(** * Blackjack Monte Carlo EV solver: a shallow embedding

    The development follows [LATEST20250108.py] (shoe, hand valuation,
    dealer playout, per-action trials, the chunked estimator and the action
    selector) and [11-23-BJSOLV-RNG.py] (the dealer that hits a 17 holding
    an Ace).

    Conventions of the embedding:
    - Python [int] is [Z]; Python [float] is idealised as an exact rational
      [Q] (no rounding), except in [Binary64], where the insurance EV is
      rounded to double precision; lists of card values are [list Z];
    - the [shoe_counts] dict is a [gmap string Z];
    - the global [random] generator is a stream [nat -> nat] read at a
      position that every draw advances by one;
    - a Python exception is an [Err] result; [while True] loops carry fuel,
      and running out of it is the distinguished outcome [OutOfFuel];
    - the functions are first given on values; [Store] gives the estimator
      again on list and dict objects held by address and changed in
      place, with the generator and the clock in the world, and the two
      are related at the end of the file. *)

From Stdlib Require Import ZArith QArith Lia Bool Sorted.
From Stdlib Require PrimFloat Uint63.
From stdpp Require Import gmap strings list fin_maps.

Open Scope Z_scope.

(** ** Constants *)

Definition BLACKJACK : Z := 21.
Definition DEALER_STAND : Z := 17.
Definition NUM_DECKS : Z := 6.
Definition SIMULATIONS : nat := Z.to_nat 10000.
Definition RTP : Q := (995 # 1000)%Q.

(** ** Python list primitives on card values *)

(** [sum(cards)] *)
Definition py_sum (cards : list Z) : Z := foldr Z.add 0 cards.

(** [cards.count(x)] *)
Fixpoint py_count (x : Z) (cards : list Z) : nat :=
  match cards with
  | [] => O
  | c :: cs => if c =? x then S (py_count x cs) else py_count x cs
  end.

(** [x in cards] *)
Fixpoint py_in (x : Z) (cards : list Z) : bool :=
  match cards with
  | [] => false
  | c :: cs => (c =? x) || py_in x cs
  end.

(** ** Hand valuation *)

(** The loop [while total > BLACKJACK and aces > 0: total -= 10; aces -= 1],
    returning both loop variables.  [aces] starts from a [count], so it is a
    natural number and the loop is structural on it. *)
Fixpoint reduce_aces (total : Z) (aces : nat) : Z * nat :=
  match aces with
  | O => (total, O)
  | S aces' =>
      if BLACKJACK <? total then reduce_aces (total - 10) aces'
      else (total, aces)
  end.

Definition hand_value (cards : list Z) : Z :=
  fst (reduce_aces (py_sum cards) (py_count 11 cards)).

Definition is_soft_hand (cards : list Z) : bool :=
  match snd (reduce_aces (py_sum cards) (py_count 11 cards)) with
  | O => false
  | S _ => true
  end.

(** *** What a valuation of the Aces is

    A valuation marks cards as lowered; only a card entered as 11 can be
    lowered, and it then counts 1.  Marks beyond the hand are ignored and
    missing marks mean "not lowered". *)
Fixpoint valued_total (cards : list Z) (low : list bool) : Z :=
  match cards with
  | [] => 0
  | c :: cs =>
      match low with
      | [] => c + valued_total cs []
      | b :: bs => (if b && (c =? 11) then 1 else c) + valued_total cs bs
      end
  end.

(** Number of Aces a valuation lowers. *)
Fixpoint lowered (cards : list Z) (low : list bool) : nat :=
  match cards, low with
  | c :: cs, b :: bs =>
      if b && (c =? 11) then S (lowered cs bs) else lowered cs bs
  | _, _ => O
  end.

(** The hard sum: every Ace counted as 1. *)
Definition hard_sum (cards : list Z) : Z :=
  valued_total cards (repeat true (length cards)).

(** The valuation lowering exactly the first [k] Aces. *)
Fixpoint lower_first (k : nat) (cards : list Z) : list bool :=
  match cards with
  | [] => []
  | c :: cs =>
      match k with
      | O => []
      | S k' => if c =? 11 then true :: lower_first k' cs
                else false :: lower_first k cs
      end
  end.

(** [k] is the number of reductions the loop performs on [(total, aces)]:
    the least [k <= aces] at which the total is no longer above 21, or
    [aces] when there is none. *)
Definition minimal_reduction (total : Z) (aces k : nat) : Prop :=
  (k <= aces)%nat /\
  (k = aces \/ total - 10 * Z.of_nat k <= BLACKJACK) /\
  (forall j : nat, (j < k)%nat -> BLACKJACK < total - 10 * Z.of_nat j).

(** ** Exceptions and results *)

Inductive exn : Type :=
| ValueError | KeyError | IndexError | ZeroDivisionError | OutOfFuel.

Inductive result (A : Type) : Type :=
| Ok (a : A)
| Err (e : exn).
Arguments Ok {A} a.
Arguments Err {A} e.

(** Computations that read the random stream: the position in, the value
    and the new position out, or the exception raised. *)
Definition M (A : Type) : Type := nat -> result (A * nat).

Definition ret {A} (a : A) : M A := fun pos => Ok (a, pos).

Definition bind {A B} (m : M A) (k : A -> M B) : M B :=
  fun pos =>
    match m pos with
    | Ok (a, pos') => k a pos'
    | Err e => Err e
    end.

Definition raise {A} (e : exn) : M A := fun _ => Err e.

Definition lift {A} (r : result A) : M A :=
  fun pos => match r with Ok a => Ok (a, pos) | Err e => Err e end.

Notation "'let*' x ':=' m 'in' k" := (bind m (fun x => k))
  (at level 10, x name, m at level 100, k at level 200, only parsing).
Notation "'let*' ' p ':=' m 'in' k" :=
  (bind m (fun x => match x with p => k end))
  (at level 10, p pattern, m at level 100, k at level 200, only parsing).

(** ** Shoe *)

Definition ALL_RANKS : list string :=
  ["2"; "3"; "4"; "5"; "6"; "7"; "8"; "9"; "T"; "J"; "Q"; "K"; "A"]%string.

Definition RANK_TO_VALUE : gmap string Z :=
  list_to_map
    [("2", 2); ("3", 3); ("4", 4); ("5", 5); ("6", 6); ("7", 7); ("8", 8);
     ("9", 9); ("T", 10); ("J", 10); ("Q", 10); ("K", 10); ("A", 11)]%string.

(** The counting weights are the floats 1.0, 2.0, 0.0, -1.0, -2.0. *)
Definition COUNTING_SYSTEM : gmap string Q :=
  list_to_map
    [("2", 1); ("7", 1); ("3", 1); ("6", 2); ("4", 2); ("5", 2); ("8", 0);
     ("9", -1); ("T", -2); ("J", -2); ("Q", -2); ("K", -2);
     ("A", 0)]%string%Q.

Definition initialize_shoe_counts (num_decks : Z) : gmap string Z :=
  foldl (fun shoe_counts rank => <[rank := 4 * num_decks]> shoe_counts)
        ∅ ALL_RANKS.

(** The mutable state [remove_card_from_shoe] works on: the dict it is
    handed and the module-level [running_count]. *)
Record shoe_state : Type := ShoeState {
  shoe_counts_of : gmap string Z;
  running_count : Q
}.

(** [remove_card_from_shoe(shoe_counts, rank)].  The state after the call is
    returned next to the outcome, because the dict is updated in place
    before a later lookup can raise. *)
Definition remove_card_from_shoe (st : shoe_state) (rank : string)
  : shoe_state * result unit :=
  match shoe_counts_of st !! rank with
  | None => (st, Err KeyError)
  | Some count =>
      if 0 <? count then
        let shoe' := <[rank := count - 1]> (shoe_counts_of st) in
        match COUNTING_SYSTEM !! rank with
        | None => (ShoeState shoe' (running_count st), Err KeyError)
        | Some w => (ShoeState shoe' (running_count st + w)%Q, Ok tt)
        end
      else (st, Err ValueError)
  end.

(** [k] successive removals of one rank, stopping at the first exception. *)
Fixpoint remove_cards (k : nat) (st : shoe_state) (rank : string)
  : shoe_state * result unit :=
  match k with
  | O => (st, Ok tt)
  | S k' =>
      match remove_card_from_shoe st rank with
      | (st', Ok _) => remove_cards k' st' rank
      | (st', Err e) => (st', Err e)
      end
  end.

(** Every count of the shoe is non-negative. *)
Definition counts_nonneg (shoe_counts : gmap string Z) : Prop :=
  forall r n, shoe_counts !! r = Some n -> 0 <= n.

(** [build_shoe_list(shoe_counts)]: the loop over [ALL_RANKS], with the
    list built so far as accumulator. *)
Fixpoint build_shoe_from (ranks : list string) (shoe_counts : gmap string Z)
    (cards_list : list Z) : result (list Z) :=
  match ranks with
  | [] => Ok cards_list
  | rank :: ranks' =>
      match shoe_counts !! rank with
      | None => Err KeyError
      | Some count =>
          match RANK_TO_VALUE !! rank with
          | None => Err KeyError
          | Some val =>
              build_shoe_from ranks' shoe_counts
                (if 0 <? count
                 then cards_list ++ replicate (Z.to_nat count) val
                 else cards_list)
          end
      end
  end.

Definition build_shoe_list (shoe_counts : gmap string Z) : result (list Z) :=
  build_shoe_from ALL_RANKS shoe_counts [].

(** ** List mutation used by the simulators *)

(** The list left by a successful [l.remove(x)]: the first [x] is gone. *)
Fixpoint remove_first (x : Z) (l : list Z) : list Z :=
  match l with
  | [] => []
  | c :: cs => if c =? x then cs else c :: remove_first x cs
  end.

(** [l.remove(x)], which raises [ValueError] when [x] is absent. *)
Definition list_remove (x : Z) (l : list Z) : result (list Z) :=
  if py_in x l then Ok (remove_first x l) else Err ValueError.

(** [if x in l: l.remove(x)] *)
Definition discard_if_present (x : Z) (l : list Z) : list Z :=
  if py_in x l then remove_first x l else l.

(** [not l] on a list *)
Definition py_not (l : list Z) : bool :=
  match l with [] => true | _ :: _ => false end.

(** [a / b] on numbers: true division. *)
Definition py_truediv (a b : Q) : result Q :=
  if Qeq_bool b 0 then Err ZeroDivisionError else Ok (a / b)%Q.

(** ** Simulation: everything that draws from the random stream *)

Section Simulation.

(** The values the generator will hand out, in order. *)
Variable stream : nat -> nat.

(** [random.choice(l)]: [IndexError] on an empty list, otherwise the element
    at the index the generator picks below [len(l)]. *)
Definition choice (l : list Z) : M Z :=
  fun pos =>
    match l with
    | [] => Err IndexError
    | _ :: _ => Ok (nth (stream pos mod length l)%nat l 0, S pos)
    end.

(** *** Dealer playout *)

(** The [while True] loop of [simulate_dealer_hand_once], on the loop
    variables [dealer_cards] and [local_shoe]; it returns both. *)
Fixpoint dealer_loop (fuel : nat) (dealer_cards local_shoe : list Z)
  : M (list Z * list Z) :=
  match fuel with
  | O => raise OutOfFuel
  | S fuel' =>
      let total := hand_value dealer_cards in
      if (total <? DEALER_STAND) && negb (py_not local_shoe) then
        let* draw_val := choice local_shoe  in
        let* local_shoe' := lift (list_remove draw_val local_shoe)  in
        dealer_loop fuel' (dealer_cards ++ [draw_val]) local_shoe'
      else ret (dealer_cards, local_shoe)
  end.

(** The pool the dealer draws from: a copy of [shoe_list] with the upcard
    taken out once when it is there. *)
Definition dealer_pool (dealer_card_val : Z) (shoe_list : list Z) : list Z :=
  discard_if_present dealer_card_val shoe_list.

(** The playout up to the end of the loop: final dealer cards and what is
    left of the local pool. *)
Definition dealer_playout (fuel : nat) (dealer_card_val : Z)
    (shoe_list : list Z) : M (list Z * list Z) :=
  dealer_loop fuel [dealer_card_val] (dealer_pool dealer_card_val shoe_list).

(** Fuel that covers one draw per card of a pool, and the closing test. *)
Definition loop_fuel (pool : list Z) : nat := S (length pool).

Definition simulate_dealer_hand_once (dealer_card_val : Z)
    (shoe_list : list Z) : M Z :=
  let* '(dealer_cards, _) :=
     dealer_playout (loop_fuel shoe_list) dealer_card_val shoe_list  in
  ret (hand_value dealer_cards).

(** *** Player playout *)

(** [play_out_hand(p_cards, local_deck)] (the helper nested in
    [monte_carlo_ev]); [local_deck] is mutated, so it is returned too. *)
Fixpoint play_out_loop (fuel : nat) (p_cards local_deck : list Z)
  : M (list Z * list Z) :=
  match fuel with
  | O => raise OutOfFuel
  | S fuel' =>
      let total_now := hand_value p_cards in
      if 17 <=? total_now then ret (p_cards, local_deck)
      else if py_not local_deck then ret (p_cards, local_deck)
      else
        let* new_card_val := choice local_deck  in
        let* local_deck' := lift (list_remove new_card_val local_deck)  in
        let p_cards' := p_cards ++ [new_card_val] in
        if BLACKJACK <? hand_value p_cards' then ret (p_cards', local_deck')
        else play_out_loop fuel' p_cards' local_deck'
  end.

Definition play_out_hand (p_cards local_deck : list Z) : M (list Z * list Z) :=
  play_out_loop (loop_fuel local_deck) p_cards local_deck.

Definition compare_final_totals (player_total dealer_total : Z) : Z :=
  if BLACKJACK <? player_total then -1
  else if BLACKJACK <? dealer_total then 1
  else if dealer_total <? player_total then 1
  else if player_total <? dealer_total then -1
  else 0.

(** *** Stand *)

(** [simulate_dealer_hands], after [shoe_list] has been built. *)
Fixpoint dealer_totals_loop (num_simulations : nat) (dealer_card_val : Z)
    (shoe_list final_totals : list Z) : M (list Z) :=
  match num_simulations with
  | O => ret final_totals
  | S n =>
      let* t := simulate_dealer_hand_once dealer_card_val shoe_list  in
      dealer_totals_loop n dealer_card_val shoe_list (final_totals ++ [t])
  end.

Definition simulate_dealer_hands (dealer_card_val : Z)
    (shoe_counts : gmap string Z) (num_simulations : nat) : M (list Z) :=
  let* shoe_list := lift (build_shoe_list shoe_counts)  in
  dealer_totals_loop num_simulations dealer_card_val shoe_list [].

(** What one dealer total adds to [chunk_ev] in
    [process_results_for_stand_like] when the player has not bust. *)
Definition stand_like_step (player_t : Z) (is_soft : bool) (d_total : Z) : Z :=
  if BLACKJACK <? d_total then 1
  else if is_soft then
    let soft_total := if player_t <=? 11 then player_t + 10 else player_t in
    if d_total <? Z.max soft_total player_t then 1
    else if Z.max soft_total player_t <? d_total then -1
    else 0
  else
    if d_total <? player_t then 1
    else if player_t <? d_total then -1
    else 0.

Definition process_results_for_stand_like (player_t : Z)
    (dealer_totals_list : list Z) (is_soft : bool) : Z :=
  if BLACKJACK <? player_t then -1 * Z.of_nat (length dealer_totals_list)
  else
    foldl (fun chunk_ev d_total =>
             chunk_ev + stand_like_step player_t is_soft d_total)
          0 dealer_totals_list.

(** *** Hit and Double Down trials *)

(** The loop [for val in player_cards: if val in local_shoe: remove]. *)
Definition remove_known (player_cards local_shoe : list Z) : list Z :=
  foldl (fun shoe val => discard_if_present val shoe) local_shoe player_cards.

(** The local pool of a Hit or Double Down trial once the known cards are
    out: the player's cards, then the dealer upcard. *)
Definition trial_pool (player_cards : list Z) (dealer_card_val : Z)
    (shoe_counts : gmap string Z) : result (list Z) :=
  match build_shoe_list shoe_counts with
  | Err e => Err e
  | Ok local_shoe =>
      Ok (discard_if_present dealer_card_val
            (remove_known player_cards local_shoe))
  end.

(** The comparison closing a Hit ([bet = 1]) or Double Down ([bet = 2])
    trial: what is added to [ev_chunk]. *)
Definition settle (bet p_total d_total : Z) : Z :=
  if BLACKJACK <? p_total then - bet
  else if (BLACKJACK <? d_total) || (d_total <? p_total) then bet
  else if p_total <? d_total then - bet
  else 0.

Definition hit_trial (player_cards : list Z) (dealer_card_val : Z)
    (shoe_counts : gmap string Z) : M Z :=
  let* local_shoe := lift (trial_pool player_cards dealer_card_val shoe_counts)  in
  let* '(tmp_cards, local_shoe) := play_out_hand player_cards local_shoe  in
  let p_total := hand_value tmp_cards in
  let* d_total := simulate_dealer_hand_once dealer_card_val local_shoe  in
  ret (settle 1 p_total d_total).

(** [draw_val = random.choice(local_shoe) if local_shoe else 0], then
    [if draw_val in local_shoe: local_shoe.remove(draw_val)]. *)
Definition double_draw (local_shoe : list Z) : M (Z * list Z) :=
  let* draw_val := (if py_not local_shoe then ret 0 else choice local_shoe)  in
  ret (draw_val, discard_if_present draw_val local_shoe).

Definition double_trial (player_cards : list Z) (dealer_card_val : Z)
    (shoe_counts : gmap string Z) : M Z :=
  let* local_shoe := lift (trial_pool player_cards dealer_card_val shoe_counts)  in
  let* '(draw_val, local_shoe) := double_draw local_shoe  in
  let tmp_cards := player_cards ++ [draw_val] in
  let p_total := hand_value tmp_cards in
  let* d_total := simulate_dealer_hand_once dealer_card_val local_shoe  in
  ret (settle 2 p_total d_total).

(** *** Split trial *)

(** One sub-hand: a fresh card on the split card, the playout, and a dealer
    playout on a copy of the pool.  Returns the comparison and the pool as
    the player's draws left it. *)
Definition split_sub_hand (split_card_val dealer_card_val : Z)
    (local_shoe : list Z) : M (Z * list Z) :=
  let* new_card := choice local_shoe  in
  let* local_shoe := lift (list_remove new_card local_shoe)  in
  let* '(sub_hand, local_shoe) :=
     play_out_hand [split_card_val; new_card] local_shoe  in
  let p_total := hand_value sub_hand in
  let* dealer_final := simulate_dealer_hand_once dealer_card_val local_shoe  in
  ret (compare_final_totals p_total dealer_final, local_shoe).

(** The body of the inner loop: what the iteration adds to [ev_chunk]
    ([continue] adds nothing). *)
Definition split_trial (split_card_val dealer_card_val : Z)
    (shoe_counts : gmap string Z) : M Z :=
  let* local_shoe := lift (build_shoe_list shoe_counts)  in
  if (2 <=? py_count split_card_val local_shoe)%nat then
    let* local_shoe := lift (list_remove split_card_val local_shoe) in
    let* local_shoe := lift (list_remove split_card_val local_shoe) in
    let local_shoe := discard_if_present dealer_card_val local_shoe in
    let* '(result_1, local_shoe) :=
       split_sub_hand split_card_val dealer_card_val local_shoe  in
    let* '(result_2, _) :=
       split_sub_hand split_card_val dealer_card_val local_shoe  in
    ret (result_1 + result_2)
  else ret 0.

(** *** The estimator *)

(** [for _ in range(n): ev_chunk += <trial>], from [ev_chunk]. *)
Fixpoint trials_loop (n : nat) (trial : M Z) (ev_chunk : Z) : M Z :=
  match n with
  | O => ret ev_chunk
  | S n' => let* x := trial in trials_loop n' trial (ev_chunk + x)
  end.

(** The ten-chunk loop of Stand, Hit and Double Down: [chunk] computes
    [ev_chunk]; [i] is the loop index and [todo] the iterations left. *)
Fixpoint checkpoint_loop (chunk : M Z) (chunk_size : nat) (todo i : nat)
    (ev : Z) (checkpoint_means : list Q) : M (Z * list Q) :=
  match todo with
  | O => ret (ev, checkpoint_means)
  | S todo' =>
      let* ev_chunk := chunk  in
      let ev := ev + ev_chunk in
      let* mean := lift (py_truediv (inject_Z ev)
                      (inject_Z ((Z.of_nat i + 1) * Z.of_nat chunk_size)))  in
      checkpoint_loop chunk chunk_size todo' (S i) ev
        (checkpoint_means ++ [mean])
  end.

(** The ten-chunk loop of Split, which only accumulates. *)
Fixpoint split_loop (chunk : M Z) (todo : nat) (split_ev_accumulator : Z)
  : M Z :=
  match todo with
  | O => ret split_ev_accumulator
  | S todo' =>
      let* ev_chunk := chunk  in
      split_loop chunk todo' (split_ev_accumulator + ev_chunk)
  end.

(** [player_cards[0]] *)
Definition py_first (l : list Z) : result Z :=
  match l with [] => Err IndexError | c :: _ => Ok c end.

(** [monte_carlo_ev]; the result is [(final_ev, checkpoint_means)].  The
    elapsed wall time, a diagnostic, is left out. *)
Definition monte_carlo_ev (player_cards : list Z) (dealer_card_val : Z)
    (shoe_counts : gmap string Z) (action : string) (simulations : nat)
  : M (Q * list Q) :=
  let player_total := hand_value player_cards in
  let is_soft_player := is_soft_hand player_cards in
  let chunk_size := (simulations / 10)%nat in
  let* '(ev, checkpoint_means) :=
    (if String.eqb action "Stand" then
       let* '(ev, means) :=
         checkpoint_loop
           (let* dealer_totals :=
              simulate_dealer_hands dealer_card_val shoe_counts chunk_size in
            ret (process_results_for_stand_like player_total dealer_totals
                   is_soft_player))
           chunk_size 10 0 0 [] in
       ret (inject_Z ev, means)
     else if String.eqb action "Hit" then
       let* '(ev, means) :=
         checkpoint_loop
           (trials_loop chunk_size
              (hit_trial player_cards dealer_card_val shoe_counts) 0)
           chunk_size 10 0 0 [] in
       ret (inject_Z ev, means)
     else if String.eqb action "Double Down" then
       let* '(ev, means) :=
         checkpoint_loop
           (trials_loop chunk_size
              (double_trial player_cards dealer_card_val shoe_counts) 0)
           chunk_size 10 0 0 [] in
       ret (inject_Z ev, means)
     else if String.eqb action "Split" then
       let* split_card_val := lift (py_first player_cards) in
       let* split_ev_accumulator :=
         split_loop
           (trials_loop chunk_size
              (split_trial split_card_val dealer_card_val shoe_counts) 0)
           10 0 in
       let* ev := lift (py_truediv (inject_Z split_ev_accumulator)
                          (inject_Z (10 * Z.of_nat chunk_size))) in
       ret (ev, [])
     else ret (inject_Z 0, [])) in
  let* mean := lift (py_truediv ev (inject_Z (Z.of_nat simulations))) in
  ret ((mean * RTP)%Q, checkpoint_means).

(** *** The trials one after the other

    What the claims about the estimator are measured against: the payoffs of
    [n] trials run in sequence on the stream, each trial being the body of
    the action's inner loop. *)
Fixpoint run_trials (n : nat) (trial : M Z) : M (list Z) :=
  match n with
  | O => ret []
  | S n' =>
      let* x := trial in
      let* xs := run_trials n' trial in
      ret (x :: xs)
  end.

(** What one dealer total adds to the Stand chunk. *)
Definition stand_payoff (player_t : Z) (is_soft : bool) (d_total : Z) : Z :=
  if BLACKJACK <? player_t then -1
  else stand_like_step player_t is_soft d_total.

(** One Stand trial: a dealer playout on the built list, scored against the
    standing hand. *)
Definition stand_trial (player_cards : list Z) (dealer_card_val : Z)
    (shoe_counts : gmap string Z) : M Z :=
  let* shoe_list := lift (build_shoe_list shoe_counts) in
  let* d_total := simulate_dealer_hand_once dealer_card_val shoe_list in
  ret (stand_payoff (hand_value player_cards) (is_soft_hand player_cards)
         d_total).

(** The trial an action's branch of [monte_carlo_ev] repeats; a string
    that names no branch runs no trial. *)
Definition action_trial (action : string) (player_cards : list Z)
    (dealer_card_val : Z) (shoe_counts : gmap string Z) : M Z :=
  if String.eqb action "Stand" then
    stand_trial player_cards dealer_card_val shoe_counts
  else if String.eqb action "Hit" then
    hit_trial player_cards dealer_card_val shoe_counts
  else if String.eqb action "Double Down" then
    double_trial player_cards dealer_card_val shoe_counts
  else if String.eqb action "Split" then
    let* split_card_val := lift (py_first player_cards) in
    split_trial split_card_val dealer_card_val shoe_counts
  else ret 0.

(** The i-th checkpoint, [i] from 1 to 10, over payoffs in chunks of
    [chunk_size]: the sum of the first [i] chunks over their size. *)
Definition checkpoint (chunk_size : nat) (payoffs : list Z) (i : nat) : Q :=
  (inject_Z (py_sum (take (i * chunk_size) payoffs))
   / inject_Z (Z.of_nat i * Z.of_nat chunk_size))%Q.

(** *** Action selection *)

(** The [actions] list [get_player_action] evaluates. *)
Definition legal_actions (player_cards : list Z)
    (is_first_turn is_split_hand : bool) : list string :=
  let actions := ["Stand"; "Hit"]%string in
  let actions :=
    if is_first_turn && (length player_cards =? 2)%nat && negb is_split_hand
    then actions ++ ["Double Down"%string] else actions in
  let same_rank :=
    match player_cards with
    | [c0; c1] => c0 =? c1
    | _ => false
    end in
  if is_first_turn && (length player_cards =? 2)%nat && same_rank
  then actions ++ ["Split"%string] else actions.

(** [evs[action] = ev] on a dict kept in insertion order. *)
Fixpoint dict_set (k : string) (v : Q) (d : list (string * Q))
  : list (string * Q) :=
  match d with
  | [] => [(k, v)]
  | (k', v') :: d' =>
      if String.eqb k' k then (k, v) :: d' else (k', v') :: dict_set k v d'
  end.

(** The loop filling [evs], with the default number of simulations. *)
Fixpoint evaluate_actions (player_cards : list Z) (dealer_card_val : Z)
    (shoe_counts : gmap string Z) (actions : list string)
    (evs : list (string * Q)) : M (list (string * Q)) :=
  match actions with
  | [] => ret evs
  | action :: actions' =>
      let* '(ev, _) :=
        monte_carlo_ev player_cards dealer_card_val shoe_counts action
          SIMULATIONS in
      evaluate_actions player_cards dealer_card_val shoe_counts actions'
        (dict_set action ev evs)
  end.

End Simulation.

(** [sorted(items, key=lambda x: x[1], reverse=True)]: a stable sort, so
    entries of equal EV keep the order they had.  [insert_desc] places an
    entry that came earlier in front of the later entries it does not lose
    to. *)
Fixpoint insert_desc (x : string * Q) (l : list (string * Q))
  : list (string * Q) :=
  match l with
  | [] => [x]
  | y :: ys =>
      if Qle_bool (snd y) (snd x) then x :: l else y :: insert_desc x ys
  end.

Definition sorted_by_ev_desc (items : list (string * Q))
  : list (string * Q) :=
  foldr insert_desc [] items.

(** The three locals computed from [sorted_actions]. *)
Record selection : Type := Selection {
  best_action : string;
  second_best_action : option string;
  ev_diff : Q
}.

(** [sorted_actions[0]] raises [IndexError] on an empty list. *)
Definition select_best (evs : list (string * Q)) : result selection :=
  match sorted_by_ev_desc evs with
  | [] => Err IndexError
  | (a0, e0) :: rest =>
      Ok {| best_action := a0;
            second_best_action :=
              match rest with [] => None | (a1, _) :: _ => Some a1 end;
            ev_diff :=
              match rest with [] => 0%Q | (_, e1) :: _ => (e0 - e1)%Q end |}
  end.

(** What [get_player_action] prints about the actions. *)
Inductive colour : Type := Green | DimYellow | DimRed.

Inductive report_line : Type :=
| ActionLine (action : string) (ev : Q) (c : colour)
| EvDiffLine (gap : Q) (versus : string)
| OptimalLine (action : string).

(** Truth value of [second_best_action]: [None] and the empty string are
    false. *)
Definition py_truthy (o : option string) : bool :=
  match o with
  | None => false
  | Some s => negb (String.eqb s "")
  end.

Definition py_eq_opt (a : string) (o : option string) : bool :=
  match o with
  | None => false
  | Some s => String.eqb a s
  end.

(** The loop [for action, evval in evs.items()] and the closing line. *)
Definition report (evs : list (string * Q)) (sel : selection)
  : list report_line :=
  flat_map
    (fun '(action, evval) =>
       let c := if String.eqb action (best_action sel) then Green
                else if py_eq_opt action (second_best_action sel)
                     then DimYellow else DimRed in
       ActionLine action evval c ::
       (if String.eqb action (best_action sel)
           && py_truthy (second_best_action sel)
        then match second_best_action sel with
             | Some s => [EvDiffLine (ev_diff sel) s]
             | None => []
             end
        else []))
    evs
  ++ [OptimalLine (best_action sel)].

(** [get_player_action]: the returned [best_action] and the printed
    report. *)
Definition get_player_action (stream : nat -> nat) (player_cards : list Z)
    (dealer_card_val : Z) (shoe_counts : gmap string Z)
    (is_first_turn is_split_hand : bool) : M (string * list report_line) :=
  let actions := legal_actions player_cards is_first_turn is_split_hand in
  let* evs :=
    evaluate_actions stream player_cards dealer_card_val shoe_counts
      actions [] in
  let* sel := lift (select_best evs) in
  ret (best_action sel, report evs sel).

(** The fixed priority order of the actions. *)
Definition PRIORITY : list string :=
  ["Stand"; "Hit"; "Double Down"; "Split"]%string.

(** Position of an action in an ordered list of actions. *)
Fixpoint position (a : string) (l : list string) : nat :=
  match l with
  | [] => O
  | b :: l' => if String.eqb b a then O else S (position a l')
  end.

(** The actions of a list all belong to [PRIORITY] and come in its order,
    each at position [lo] or later. *)
Fixpoint priority_ordered_from (lo : nat) (actions : list string) : bool :=
  match actions with
  | [] => true
  | a :: rest =>
      existsb (String.eqb a) PRIORITY
      && (lo <=? position a PRIORITY)%nat
      && priority_ordered_from (S (position a PRIORITY)) rest
  end.

Definition priority_ordered (actions : list string) : bool :=
  priority_ordered_from 0 actions.

(** Descending by EV. *)
Definition ev_ge (x y : string * Q) : Prop := (snd y <= snd x)%Q.

(** ** The dealer of [11-23-BJSOLV-RNG.py], who hits a 17 holding an Ace *)

Module Soft17.

(** The file's [hand_value] is the same loop as above ([while total >
    BLACKJACK and aces]), so [hand_value] stands for both. *)

(** One card per rank; the four ten-valued ranks give four tens. *)
Definition DECK : list Z := [2; 3; 4; 5; 6; 7; 8; 9; 10; 10; 10; 10; 11].

(** The test of the [while True] loop: draw another card? *)
Definition dealer_draws (dealer_hand : list Z) : bool :=
  let value := hand_value dealer_hand in
  (value <? DEALER_STAND) || ((value =? DEALER_STAND) && py_in 11 dealer_hand).

Section Dealer.

Variable stream : nat -> nat.

(** The loop of [simulate_dealer_hand], returning the hand it extended. *)
Fixpoint dealer_hand_loop (fuel : nat) (dealer_hand : list Z)
  : M (list Z) :=
  match fuel with
  | O => raise OutOfFuel
  | S fuel' =>
      if dealer_draws dealer_hand then
        let* card := choice stream DECK in
        dealer_hand_loop fuel' (dealer_hand ++ [card])
      else ret dealer_hand
  end.

(** Every card drawn adds at least 1 to the hard sum, and no hand of hard
    sum 18 or more draws: this many iterations are enough. *)
Definition dealer_fuel (dealer_hand : list Z) : nat :=
  S (Z.to_nat (18 - hard_sum dealer_hand)).

(** [simulate_dealer_hand]: the returned total, and the hand as the call
    leaves it. *)
Definition simulate_dealer_hand (dealer_hand : list Z) : M (Z * list Z) :=
  let* final_hand := dealer_hand_loop (dealer_fuel dealer_hand) dealer_hand in
  ret (hand_value final_hand, final_hand).

End Dealer.

End Soft17.

(** ** Further functions of [LATEST20250108.py] *)

(** [sum(shoe_counts.values())] *)
Definition py_sum_values (shoe_counts : gmap string Z) : Z :=
  map_fold (fun _ count acc => count + acc) 0 shoe_counts.

(** [shoe_counts[rank]] read as an expression. *)
Definition dict_get (shoe_counts : gmap string Z) (rank : string) : result Z :=
  match shoe_counts !! rank with
  | Some count => Ok count
  | None => Err KeyError
  end.

(** [calculate_insurance_ev(shoe_counts)] in exact arithmetic; the early
    [return 0] is the rational 0.  [Binary64.calculate_insurance_ev] below
    rounds as the source does. *)
Definition calculate_insurance_ev (shoe_counts : gmap string Z) : result Q :=
  let total_cards := py_sum_values shoe_counts in
  match dict_get shoe_counts "T" with
  | Err e => Err e
  | Ok t =>
  match dict_get shoe_counts "J" with
  | Err e => Err e
  | Ok j =>
  match dict_get shoe_counts "Q" with
  | Err e => Err e
  | Ok q =>
  match dict_get shoe_counts "K" with
  | Err e => Err e
  | Ok k =>
      let ten_value_cards := t + j + q + k in
      if total_cards =? 0 then Ok 0%Q
      else
        match py_truediv (inject_Z ten_value_cards) (inject_Z total_cards) with
        | Err e => Err e
        | Ok prob_dealer_blackjack =>
            Ok ((prob_dealer_blackjack * 2)
                - (1 - prob_dealer_blackjack))%Q
        end
  end end end end.

(** *** The insurance EV in double precision *)

Module Binary64.

(** A Python [int] as a [float]; the conversion is exact below [2^53] in
    absolute value. *)
Definition float_of_int (n : Z) : PrimFloat.float :=
  if n <? 0 then PrimFloat.opp (PrimFloat.of_uint63 (Uint63.of_Z (- n)))
  else PrimFloat.of_uint63 (Uint63.of_Z n).

(** [a / b] on two ints, [b] not 0, below [2^53] in absolute value: both
    convert exactly and the quotient is rounded once, as [PrimFloat.div]
    does.  Larger operands are left out ([None]). *)
Definition int_truediv (a b : Z) : option PrimFloat.float :=
  if (Z.abs a <? 2 ^ 53) && (Z.abs b <? 2 ^ 53)
  then Some (PrimFloat.div (float_of_int a) (float_of_int b))
  else None.

(** [calculate_insurance_ev(shoe_counts)], every operation rounded to
    binary64 as Python does; the early [return 0] is the float 0.  [None]
    where the counts are beyond what [int_truediv] covers. *)
Definition calculate_insurance_ev (shoe_counts : gmap string Z)
  : option (result PrimFloat.float) :=
  let total_cards := py_sum_values shoe_counts in
  match dict_get shoe_counts "T" with
  | Err e => Some (Err e)
  | Ok t =>
  match dict_get shoe_counts "J" with
  | Err e => Some (Err e)
  | Ok j =>
  match dict_get shoe_counts "Q" with
  | Err e => Some (Err e)
  | Ok q =>
  match dict_get shoe_counts "K" with
  | Err e => Some (Err e)
  | Ok k =>
      let ten_value_cards := t + j + q + k in
      if total_cards =? 0 then Some (Ok PrimFloat.zero)
      else
        match int_truediv ten_value_cards total_cards with
        | None => None
        | Some prob_dealer_blackjack =>
            Some (Ok (PrimFloat.sub
                        (PrimFloat.mul prob_dealer_blackjack (float_of_int 2))
                        (PrimFloat.sub (float_of_int 1)
                           prob_dealer_blackjack)))
        end
  end end end end.

(** [insurance_ev > 0], the test of [main] (line 544). *)
Definition reported_profitable (insurance_ev : PrimFloat.float) : bool :=
  PrimFloat.ltb PrimFloat.zero insurance_ev.

(** [insurance_ev < 0], the test of [print_dealer_probabilities]
    (line 501). *)
Definition reported_unprofitable (insurance_ev : PrimFloat.float) : bool :=
  PrimFloat.ltb insurance_ev PrimFloat.zero.

End Binary64.

(** The characters of a Python string, each as the one-character string a
    [for c in s] loop yields. *)
Fixpoint py_chars (s : string) : list string :=
  match s with
  | EmptyString => []
  | String c s' => String c EmptyString :: py_chars s'
  end.

(** [rank in ALL_RANKS] *)
Definition is_rank (rank : string) : bool :=
  existsb (String.eqb rank) ALL_RANKS.

(** The removal loops of [main] (lines 574-578 and 627-631) over the
    characters of the input: [if c not in ALL_RANKS: raise ValueError],
    then [remove_card_from_shoe(shoe_counts, c)].  The state reached is
    returned with the outcome. *)
Fixpoint remove_listed (st : shoe_state) (cards : list string)
  : shoe_state * result unit :=
  match cards with
  | [] => (st, Ok tt)
  | c :: cards' =>
      if is_rank c then
        match remove_card_from_shoe st c with
        | (st', Ok _) => remove_listed st' cards'
        | (st', Err e) => (st', Err e)
        end
      else (st, Err ValueError)
  end.

(** [main]'s handler [except ValueError: shoe_counts = backup_shoe_counts]
    applied to the state an exception left: the dict is the backup, the
    module-level [running_count] is whatever it had become.  Other
    exceptions are not caught. *)
Definition restore_backup (backup : gmap string Z)
    (outcome : shoe_state * result unit) : shoe_state * result unit :=
  match outcome with
  | (st', Err ValueError) => (ShoeState backup (running_count st'), Ok tt)
  | _ => outcome
  end.

(** The counting weight of a card, 0 for a string that is no rank. *)
Definition count_weight (rank : string) : Q :=
  match COUNTING_SYSTEM !! rank with
  | Some w => w
  | None => 0%Q
  end.

(** ** Further functions of [11-23-BJSOLV-RNG.py] *)

Module Soft17Solver.

(** This file runs [SIMULATIONS = 10] trials by default. *)
Definition SIMULATIONS : nat := 10.

(** What the closing comparison of a trial adds to [ev]. *)
Definition outcome (bet player_total dealer_total : Z) : Z :=
  if (dealer_total <? player_total) || (BLACKJACK <? dealer_total) then bet
  else if player_total <? dealer_total then - bet
  else 0.

Section Solver.

Variable stream : nat -> nat.

(** The Hit and Double Down bodies: one card from [DECK], a bust loses
    [bet] at once, otherwise the dealer plays. *)
Definition draw_trial (bet : Z) (player_cards : list Z) (dealer_card : Z)
  : M Z :=
  let* card := choice stream Soft17.DECK in
  let player_total := hand_value (player_cards ++ [card]) in
  if BLACKJACK <? player_total then ret (- bet)
  else
    let* '(dealer_total, _) :=
      Soft17.simulate_dealer_hand stream [dealer_card] in
    ret (outcome bet player_total dealer_total).

(** The body of the loop of [monte_carlo_ev]: what one iteration adds to
    [ev]. *)
Definition trial (action : string) (player_cards : list Z) (dealer_card : Z)
  : M Z :=
  if String.eqb action "Stand" then
    let* '(dealer_total, _) :=
      Soft17.simulate_dealer_hand stream [dealer_card] in
    ret (outcome 1 (hand_value player_cards) dealer_total)
  else if String.eqb action "Hit" then
    draw_trial 1 player_cards dealer_card
  else if String.eqb action "Double Down" then
    draw_trial 2 player_cards dealer_card
  else ret 0.

(** [monte_carlo_ev(player_cards, dealer_card, action, simulations)] *)
Definition monte_carlo_ev (player_cards : list Z) (dealer_card : Z)
    (action : string) (simulations : nat) : M Q :=
  let* ev := trials_loop simulations (trial action player_cards dealer_card) 0 in
  lift (py_truediv (inject_Z ev) (inject_Z (Z.of_nat simulations))).

(** The [actions] list of [get_player_action]. *)
Definition offered_actions (player_cards : list Z) : list string :=
  if negb (length player_cards =? 2)%nat then ["Stand"; "Hit"]%string
  else ["Stand"; "Hit"; "Double Down"]%string.

(** The dict comprehension filling [evs]. *)
Fixpoint evaluate (player_cards : list Z) (dealer_card : Z)
    (actions : list string) (evs : list (string * Q))
  : M (list (string * Q)) :=
  match actions with
  | [] => ret evs
  | action :: actions' =>
      let* ev := monte_carlo_ev player_cards dealer_card action SIMULATIONS in
      evaluate player_cards dealer_card actions' (dict_set action ev evs)
  end.

End Solver.

(** [max(evs, key=evs.get)] from a first key on: a later key replaces the
    current one only when its value is strictly greater. *)
Fixpoint max_from (best : string * Q) (rest : list (string * Q))
  : string * Q :=
  match rest with
  | [] => best
  | x :: rest' =>
      if Qle_bool (snd x) (snd best) then max_from best rest'
      else max_from x rest'
  end.

(** [max] raises [ValueError] on an empty dict. *)
Definition py_max_key (evs : list (string * Q)) : result string :=
  match evs with
  | [] => Err ValueError
  | x :: rest => Ok (fst (max_from x rest))
  end.

(** [get_player_action(player_cards, dealer_card)]: the returned action. *)
Definition get_player_action (stream : nat -> nat) (player_cards : list Z)
    (dealer_card : Z) : M string :=
  let* evs :=
    evaluate stream player_cards dealer_card (offered_actions player_cards)
      [] in
  lift (py_max_key evs).

End Soft17Solver.

(** ** The estimator on the store

    [monte_carlo_ev] once more, with what the functions above leave out:
    the list and dict objects the program passes around by reference, and
    mutates in place, the global generator, and the clock.  Every list the
    program creates is a new object at a new address; a method call on a
    list changes the object at its address, whoever else holds it. *)

Module Store.

(** What a run can read and change. *)
Record world : Type := World {
  lists : gmap nat (list Z);          (* the list objects, by address *)
  dicts : gmap nat (gmap string Z);   (* the dict objects, by address *)
  next_addr : nat;                    (* the next free address *)
  rng_pos : nat;                      (* the state of the global generator *)
  clock_reads : nat                   (* how often the clock has been read *)
}.

(** A run ends with a value and a world, or raises; it is stuck on an
    address that holds no object, which a Python program cannot produce.
    What a raising run has made of the world is not kept: nothing here goes
    on after an exception. *)
Inductive outcome (A : Type) : Type :=
| Done (a : A) (w : world)
| Raised (e : exn)
| Stuck.
Arguments Done {A} a w.
Arguments Raised {A} e.
Arguments Stuck {A}.

Definition St (A : Type) : Type := world -> outcome A.

Definition ret {A} (a : A) : St A := fun w => Done a w.

Definition bind {A B} (m : St A) (k : A -> St B) : St B :=
  fun w =>
    match m w with
    | Done a w' => k a w'
    | Raised e => Raised e
    | Stuck => Stuck
    end.

Definition raise {A} (e : exn) : St A := fun _ => Raised e.

Definition lift {A} (r : result A) : St A :=
  fun w => match r with Ok a => Done a w | Err e => Raised e end.

Notation "'let!' x ':=' m 'in' k" := (bind m (fun x => k))
  (at level 10, x name, m at level 100, k at level 200, only parsing).
Notation "'let!' ' p ':=' m 'in' k" :=
  (bind m (fun x => match x with p => k end))
  (at level 10, p pattern, m at level 100, k at level 200, only parsing).

(** *** Objects *)

(** The world with a new list object at the next free address. *)
Definition alloc (l : list Z) (w : world) : world :=
  World (<[next_addr w := l]> (lists w)) (dicts w) (S (next_addr w))
    (rng_pos w) (clock_reads w).

(** The world with the list object at [r] replaced. *)
Definition update (r : nat) (l : list Z) (w : world) : world :=
  World (<[r := l]> (lists w)) (dicts w) (next_addr w) (rng_pos w)
    (clock_reads w).

(** The world with the generator at [pos]; this is also what [random.seed]
    with the seed of an earlier point does. *)
Definition reseed (pos : nat) (w : world) : world :=
  World (lists w) (dicts w) (next_addr w) pos (clock_reads w).

(** The world after one more look at the clock. *)
Definition tick (w : world) : world :=
  World (lists w) (dicts w) (next_addr w) (rng_pos w) (S (clock_reads w)).

(** [[...]], [[]], [[v] * n]: a new list object. *)
Definition new_list (l : list Z) : St nat :=
  fun w => Done (next_addr w) (alloc l w).

(** The contents of the list object at [r]. *)
Definition read (r : nat) : St (list Z) :=
  fun w => match lists w !! r with Some l => Done l w | None => Stuck end.

(** The list object at [r] changed in place. *)
Definition write (r : nat) (l : list Z) : St unit :=
  fun w =>
    match lists w !! r with
    | Some _ => Done tt (update r l w)
    | None => Stuck
    end.

(** The contents of the dict object at [r]. *)
Definition read_dict (r : nat) : St (gmap string Z) :=
  fun w => match dicts w !! r with Some d => Done d w | None => Stuck end.

(** A function that only reads its list argument ([hand_value(cards)],
    [x in l], [not l], [l.count(x)], [len(l)]) applied to the object at
    [r]. *)
Definition on_list {A} (f : list Z -> A) (r : nat) : St A :=
  let! l := read r in ret (f l).

(** [l.append(v)] *)
Definition append (r : nat) (v : Z) : St unit :=
  let! l := read r in write r (l ++ [v]).

(** [l.extend(vs)] *)
Definition extend (r : nat) (vs : list Z) : St unit :=
  let! l := read r in write r (l ++ vs).

(** [l.remove(v)] *)
Definition remove (r : nat) (v : Z) : St unit :=
  let! l := read r in
  let! l' := lift (list_remove v l) in
  write r l'.

(** [if v in l: l.remove(v)] *)
Definition discard (r : nat) (v : Z) : St unit :=
  let! present := on_list (py_in v) r in
  if present then remove r v else ret tt.

(** [l.copy()] *)
Definition copy (r : nat) : St nat :=
  let! l := read r in new_list l.

Section Run.

(** The values the global generator hands out, in order, and the values
    the clock shows, in the order it is read. *)
Variable stream : nat -> nat.
Variable now : nat -> Q.

(** [random.choice(l)]: the generator moves on by one value. *)
Definition random_choice (r : nat) : St Z :=
  let! l := read r in
  fun w =>
    match choice stream l (rng_pos w) with
    | Ok (x, pos') => Done x (reseed pos' w)
    | Err e => Raised e
    end.

(** [time.time()] *)
Definition time_time : St Q :=
  fun w => Done (now (clock_reads w)) (tick w).

(** *** [build_shoe_list] *)

Fixpoint build_shoe_from (ranks : list string) (shoe_counts cards_list : nat)
  : St unit :=
  match ranks with
  | [] => ret tt
  | rank :: ranks' =>
      let! d := read_dict shoe_counts in
      let! count := lift (dict_get d rank) in
      let! val := lift (dict_get RANK_TO_VALUE rank) in
      let! _ := (if 0 <? count
                 then extend cards_list (replicate (Z.to_nat count) val)
                 else ret tt) in
      build_shoe_from ranks' shoe_counts cards_list
  end.

Definition build_shoe_list (shoe_counts : nat) : St nat :=
  let! cards_list := new_list [] in
  let! _ := build_shoe_from ALL_RANKS shoe_counts cards_list in
  ret cards_list.

(** *** [simulate_dealer_hand_once] *)

Fixpoint dealer_loop (fuel : nat) (dealer_cards local_shoe : nat) : St unit :=
  match fuel with
  | O => raise OutOfFuel
  | S fuel' =>
      let! total := on_list hand_value dealer_cards in
      let! nonempty := on_list (fun l => negb (py_not l)) local_shoe in
      if (total <? DEALER_STAND) && nonempty then
        let! draw_val := random_choice local_shoe in
        let! _ := remove local_shoe draw_val in
        let! _ := append dealer_cards draw_val in
        dealer_loop fuel' dealer_cards local_shoe
      else ret tt
  end.

Definition simulate_dealer_hand_once (dealer_card_val : Z) (shoe_list : nat)
  : St Z :=
  let! local_shoe := copy shoe_list in
  let! _ := discard local_shoe dealer_card_val in
  let! dealer_cards := new_list [dealer_card_val] in
  let! fuel := on_list loop_fuel shoe_list in
  let! _ := dealer_loop fuel dealer_cards local_shoe in
  on_list hand_value dealer_cards.

(** *** [play_out_hand] *)

Fixpoint play_out_loop (fuel : nat) (p_cards local_deck : nat) : St unit :=
  match fuel with
  | O => raise OutOfFuel
  | S fuel' =>
      let! total_now := on_list hand_value p_cards in
      if 17 <=? total_now then ret tt
      else
        let! empty := on_list py_not local_deck in
        if empty then ret tt
        else
          let! new_card_val := random_choice local_deck in
          let! _ := remove local_deck new_card_val in
          let! _ := append p_cards new_card_val in
          let! total := on_list hand_value p_cards in
          if BLACKJACK <? total then ret tt
          else play_out_loop fuel' p_cards local_deck
  end.

(** The list object handed in is the one handed back. *)
Definition play_out_hand (p_cards local_deck : nat) : St nat :=
  let! fuel := on_list loop_fuel local_deck in
  let! _ := play_out_loop fuel p_cards local_deck in
  ret p_cards.

(** *** [simulate_dealer_hands] *)

Fixpoint dealer_totals_loop (num_simulations : nat) (dealer_card_val : Z)
    (shoe_list final_totals : nat) : St unit :=
  match num_simulations with
  | O => ret tt
  | S n =>
      let! t := simulate_dealer_hand_once dealer_card_val shoe_list in
      let! _ := append final_totals t in
      dealer_totals_loop n dealer_card_val shoe_list final_totals
  end.

Definition simulate_dealer_hands (dealer_card_val : Z) (shoe_counts : nat)
    (num_simulations : nat) : St nat :=
  let! shoe_list := build_shoe_list shoe_counts in
  let! final_totals := new_list [] in
  let! _ := dealer_totals_loop num_simulations dealer_card_val shoe_list
              final_totals in
  ret final_totals.

(** *** The trials *)

(** [for val in player_cards: if val in local_shoe: local_shoe.remove(val);
    tmp_cards.append(val)], over the values [player_cards] holds when the
    loop starts; the body leaves [player_cards] alone. *)
Fixpoint take_known (vals : list Z) (local_shoe tmp_cards : nat) : St unit :=
  match vals with
  | [] => ret tt
  | val :: vals' =>
      let! _ := discard local_shoe val in
      let! _ := append tmp_cards val in
      take_known vals' local_shoe tmp_cards
  end.

Definition hit_trial (player_cards : nat) (dealer_card_val : Z)
    (shoe_counts : nat) : St Z :=
  let! local_shoe := build_shoe_list shoe_counts in
  let! tmp_cards := new_list [] in
  let! vals := read player_cards in
  let! _ := take_known vals local_shoe tmp_cards in
  let! _ := discard local_shoe dealer_card_val in
  let! tmp_cards := play_out_hand tmp_cards local_shoe in
  let! p_total := on_list hand_value tmp_cards in
  let! d_total := simulate_dealer_hand_once dealer_card_val local_shoe in
  ret (settle 1 p_total d_total).

Definition double_trial (player_cards : nat) (dealer_card_val : Z)
    (shoe_counts : nat) : St Z :=
  let! local_shoe := build_shoe_list shoe_counts in
  let! tmp_cards := new_list [] in
  let! vals := read player_cards in
  let! _ := take_known vals local_shoe tmp_cards in
  let! _ := discard local_shoe dealer_card_val in
  let! empty := on_list py_not local_shoe in
  let! draw_val := (if empty then ret 0 else random_choice local_shoe) in
  let! _ := discard local_shoe draw_val in
  let! _ := append tmp_cards draw_val in
  let! p_total := on_list hand_value tmp_cards in
  let! d_total := simulate_dealer_hand_once dealer_card_val local_shoe in
  ret (settle 2 p_total d_total).

(** One sub-hand of a split; the dealer plays on [local_shoe.copy()]. *)
Definition split_sub_hand (split_card_val dealer_card_val : Z)
    (local_shoe : nat) : St Z :=
  let! sub_hand := new_list [split_card_val] in
  let! new_card := random_choice local_shoe in
  let! _ := remove local_shoe new_card in
  let! _ := append sub_hand new_card in
  let! sub_hand := play_out_hand sub_hand local_shoe in
  let! p_total := on_list hand_value sub_hand in
  let! snapshot := copy local_shoe in
  let! dealer_final := simulate_dealer_hand_once dealer_card_val snapshot in
  ret (compare_final_totals p_total dealer_final).

Definition split_trial (split_card_val dealer_card_val : Z)
    (shoe_counts : nat) : St Z :=
  let! local_shoe := build_shoe_list shoe_counts in
  let! copies := on_list (py_count split_card_val) local_shoe in
  if (2 <=? copies)%nat then
    let! _ := remove local_shoe split_card_val in
    let! _ := remove local_shoe split_card_val in
    let! _ := discard local_shoe dealer_card_val in
    let! result_1 :=
      split_sub_hand split_card_val dealer_card_val local_shoe in
    let! result_2 :=
      split_sub_hand split_card_val dealer_card_val local_shoe in
    ret (result_1 + result_2)
  else ret 0.

(** *** The loops of [monte_carlo_ev] *)

Fixpoint trials_loop (n : nat) (trial : St Z) (ev_chunk : Z) : St Z :=
  match n with
  | O => ret ev_chunk
  | S n' => let! x := trial in trials_loop n' trial (ev_chunk + x)
  end.

(** [checkpoint_means], a list no other name refers to, is carried as a
    value. *)
Fixpoint checkpoint_loop (chunk : St Z) (chunk_size : nat) (todo i : nat)
    (ev : Z) (checkpoint_means : list Q) : St (Z * list Q) :=
  match todo with
  | O => ret (ev, checkpoint_means)
  | S todo' =>
      let! ev_chunk := chunk in
      let ev := ev + ev_chunk in
      let! mean := lift (py_truediv (inject_Z ev)
                      (inject_Z ((Z.of_nat i + 1) * Z.of_nat chunk_size))) in
      checkpoint_loop chunk chunk_size todo' (S i) ev
        (checkpoint_means ++ [mean])
  end.

Fixpoint split_loop (chunk : St Z) (todo : nat) (split_ev_accumulator : Z)
  : St Z :=
  match todo with
  | O => ret split_ev_accumulator
  | S todo' =>
      let! ev_chunk := chunk in
      split_loop chunk todo' (split_ev_accumulator + ev_chunk)
  end.

(** [monte_carlo_ev(player_cards, dealer_card_val, shoe_counts, action,
    simulations)] on the objects at [player_cards] and [shoe_counts]; the
    result is [(final_ev, elapsed_time, checkpoint_means)]. *)
Definition monte_carlo_ev (player_cards : nat) (dealer_card_val : Z)
    (shoe_counts : nat) (action : string) (simulations : nat)
  : St (Q * Q * list Q) :=
  let! start_time := time_time in
  let! player_total := on_list hand_value player_cards in
  let! is_soft_player := on_list is_soft_hand player_cards in
  let chunk_size := (simulations / 10)%nat in
  let! '(ev, checkpoint_means) :=
    (if String.eqb action "Stand" then
       let! '(ev, means) :=
         checkpoint_loop
           (let! dealer_totals :=
              simulate_dealer_hands dealer_card_val shoe_counts chunk_size in
            on_list
              (fun dealer_totals_list =>
                 process_results_for_stand_like player_total
                   dealer_totals_list is_soft_player)
              dealer_totals)
           chunk_size 10 0 0 [] in
       ret (inject_Z ev, means)
     else if String.eqb action "Hit" then
       let! '(ev, means) :=
         checkpoint_loop
           (trials_loop chunk_size
              (hit_trial player_cards dealer_card_val shoe_counts) 0)
           chunk_size 10 0 0 [] in
       ret (inject_Z ev, means)
     else if String.eqb action "Double Down" then
       let! '(ev, means) :=
         checkpoint_loop
           (trials_loop chunk_size
              (double_trial player_cards dealer_card_val shoe_counts) 0)
           chunk_size 10 0 0 [] in
       ret (inject_Z ev, means)
     else if String.eqb action "Split" then
       let! split_card_val := (let! l := read player_cards in
                               lift (py_first l)) in
       let! split_ev_accumulator :=
         split_loop
           (trials_loop chunk_size
              (split_trial split_card_val dealer_card_val shoe_counts) 0)
           10 0 in
       let! ev := lift (py_truediv (inject_Z split_ev_accumulator)
                          (inject_Z (10 * Z.of_nat chunk_size))) in
       ret (ev, [])
     else ret (inject_Z 0, [])) in
  let! end_time := time_time in
  let elapsed_time := (end_time - start_time)%Q in
  let! mean := lift (py_truediv ev (inject_Z (Z.of_nat simulations))) in
  ret ((mean * RTP)%Q, elapsed_time, checkpoint_means).

End Run.

(** The EV and the trace of what [monte_carlo_ev] returns, or the
    exception it raised. *)
Definition ev_and_trace (o : outcome (Q * Q * list Q))
  : option (result (Q * list Q)) :=
  match o with
  | Done (final_ev, _, checkpoint_means) _ =>
      Some (Ok (final_ev, checkpoint_means))
  | Raised e => Some (Err e)
  | Stuck => None
  end.

(** The world a run that returned has left; the world [w] it started in
    stands in for a run that raised. *)
Definition world_after {A} (o : outcome A) (w : world) : world :=
  match o with
  | Done _ w' => w'
  | _ => w
  end.

End Store.

(** ** Notions the statements are phrased with *)

(** No list object lies at or beyond the next free address. *)
Definition store_wf (w : Store.world) : Prop :=
  forall r, (Store.next_addr w <= r)%nat -> Store.lists w !! r = None.

(** [w'] is what steps of the program can make of [w] when, of the list
    objects of [w], they change only those at [touched]: the dict objects
    and the other list objects of [w] are as they were; new objects may have
    been made. *)
Definition store_step (touched : list nat) (w w' : Store.world) : Prop :=
  (Store.next_addr w <= Store.next_addr w')%nat /\
  Store.dicts w' = Store.dicts w /\
  (forall r, (r < Store.next_addr w)%nat -> ~ In r touched ->
             Store.lists w' !! r = Store.lists w !! r) /\
  store_wf w'.

(** The run [h] on the store, started in [w], does what [m] does on the
    stream from the generator's position in [w]: where [m] returns, [h]
    returns with the generator where [m] left the stream, the two results
    and the final world being related by [post]; where [m] raises, [h]
    raises the same exception. *)
Definition refines {A B} (h : Store.St A) (m : M B) (w : Store.world)
    (post : A -> B -> Store.world -> Prop) : Prop :=
  match m (Store.rng_pos w) with
  | Ok (b, pos') =>
      exists a w',
        h w = Store.Done a w' /\ Store.rng_pos w' = pos' /\ post a b w'
  | Err e => h w = Store.Raised e
  end.

(** The world holds the hand at [player_cards] and the shoe at
    [shoe_counts]. *)
Definition store_holds (w : Store.world) (player_cards : nat)
    (cards : list Z) (shoe_counts : nat) (shoe : gmap string Z) : Prop :=
  store_wf w /\
  Store.lists w !! player_cards = Some cards /\
  Store.dicts w !! shoe_counts = Some shoe.


(** The cards one rank contributes to the list [build_shoe_list] builds:
    its value, once per remaining copy. *)
Definition rank_block (shoe_counts : gmap string Z) (rank : string)
  : list Z :=
  match shoe_counts !! rank, RANK_TO_VALUE !! rank with
  | Some count, Some val => replicate (Z.to_nat count) val
  | _, _ => []
  end.

(** The copies of a rank a shoe stands for: its count, a missing or
    negative count standing for none. *)
Definition count_of (shoe_counts : gmap string Z) (rank : string) : nat :=
  Z.to_nat (default 0 (shoe_counts !! rank)).

(** The cards a shoe stands for, over the 13 ranks. *)
Definition cards_in_shoe (shoe_counts : gmap string Z) : nat :=
  foldr (fun rank acc => (count_of shoe_counts rank + acc)%nat) O ALL_RANKS.

(** The cards of value [v] a shoe stands for: the copies of every rank that
    [RANK_TO_VALUE] maps to [v]. *)
Definition copies_of_value (shoe_counts : gmap string Z) (v : Z) : nat :=
  foldr (fun rank acc =>
           ((if bool_decide (RANK_TO_VALUE !! rank = Some v)
             then count_of shoe_counts rank else O) + acc)%nat)
        O ALL_RANKS.

(** The shoe holds every rank of [ALL_RANKS]. *)
Definition shoe_complete (shoe_counts : gmap string Z) : Prop :=
  forall rank, In rank ALL_RANKS -> is_Some (shoe_counts !! rank).




(** [after] is [before] with one card of value [x] taken out when there is
    one, and [before] itself when there is none. *)
Definition taken_if_present (x : Z) (before after : list Z) : Prop :=
  (py_in x before = true ->
   S (py_count x after) = py_count x before /\
   S (length after) = length before) /\
  (py_in x before = false -> after = before).

(** A fixed generator for the worked examples. *)
Definition sample_stream (n : nat) : nat :=
  Z.to_nat ((Z.of_nat n * 7919 + 13) mod 1009).

(** Two generators that hand out the same values. *)
Definition same_stream (s1 s2 : nat -> nat) : Prop := forall n, s1 n = s2 n.

(** [sample_stream] written another way. *)
Definition sample_stream_alt (n : nat) : nat :=
  Z.to_nat ((13 + 7919 * Z.of_nat n) mod 1009).

(** Two computations that agree from every position. *)
Definition agree {A} (m1 m2 : M A) : Prop := forall pos, m1 pos = m2 pos.

(** A store for the worked examples: the hand at address 0, the shoe at
    address 0 of the dicts, the generator and the clock at their start. *)
Definition sample_world (player_cards : list Z) (shoe_counts : gmap string Z)
  : Store.world :=
  Store.World {[ O := player_cards ]} {[ O := shoe_counts ]} 1 0 0.

(** A clock that shows the values the generator hands out. *)
Definition sample_clock (n : nat) : Q := inject_Z (Z.of_nat (sample_stream n)).

(** ** Hand valuation: lemmas *)

Section HandValue.

Lemma valued_total_nil_marks cards : valued_total cards [] = py_sum cards.
Proof.
  induction cards as [|c cs IH]; simpl; [reflexivity|].
  now rewrite IH.
Qed.

Lemma valued_total_lowered cards low :
  valued_total cards low = py_sum cards - 10 * Z.of_nat (lowered cards low).
Proof.
  revert low; induction cards as [|c cs IH]; intros low; simpl.
  - destruct low; reflexivity.
  - destruct low as [|b bs].
    + rewrite valued_total_nil_marks. simpl. lia.
    + rewrite IH. destruct b; simpl; [|lia].
      destruct (Z.eqb_spec c 11) as [->|Hc]; lia.
Qed.

Lemma lowered_le_count cards low :
  (lowered cards low <= py_count 11 cards)%nat.
Proof.
  revert low; induction cards as [|c cs IH]; intros low; simpl.
  - destruct low; lia.
  - destruct low as [|b bs].
    + destruct (c =? 11); lia.
    + specialize (IH bs). destruct b; simpl; destruct (c =? 11); lia.
Qed.

Lemma lowered_lower_first k cards :
  (k <= py_count 11 cards)%nat -> lowered cards (lower_first k cards) = k.
Proof.
  revert k; induction cards as [|c cs IH]; intros k Hk; simpl in *.
  - lia.
  - destruct k as [|k']; [reflexivity|].
    destruct (c =? 11) eqn:Hc; simpl; rewrite ?Hc; simpl.
    + rewrite IH; lia.
    + apply IH; lia.
Qed.

Lemma lowered_all cards :
  lowered cards (repeat true (length cards)) = py_count 11 cards.
Proof.
  induction cards as [|c cs IH]; simpl; [reflexivity|].
  destruct (c =? 11); simpl; now rewrite IH.
Qed.

Lemma hard_sum_count cards :
  hard_sum cards = py_sum cards - 10 * Z.of_nat (py_count 11 cards).
Proof. unfold hard_sum. now rewrite valued_total_lowered, lowered_all. Qed.

(** The loop stops after a minimal number of reductions. *)
Lemma reduce_aces_minimal total aces :
  exists k, minimal_reduction total aces k /\
            reduce_aces total aces = (total - 10 * Z.of_nat k, (aces - k)%nat).
Proof.
  revert total; induction aces as [|a IH]; intros total; simpl.
  - exists O. unfold minimal_reduction. repeat split; try lia.
    f_equal; lia.
  - destruct (Z.ltb_spec BLACKJACK total) as [Hgt|Hle].
    + destruct (IH (total - 10)) as (k & (Hk1 & Hk2 & Hk3) & Heq).
      exists (S k). split.
      * repeat split; [lia| |].
        -- destruct Hk2 as [->|Hk2]; [now left|right; lia].
        -- intros [|j] Hj; [simpl; lia|].
           specialize (Hk3 j ltac:(lia)). lia.
      * rewrite Heq. f_equal; lia.
    + exists O. unfold minimal_reduction. repeat split; try lia.
      f_equal; lia.
Qed.

Lemma minimal_reduction_unique total aces k1 k2 :
  minimal_reduction total aces k1 -> minimal_reduction total aces k2 -> k1 = k2.
Proof.
  intros (Ha1 & Ha2 & Ha3) (Hb1 & Hb2 & Hb3).
  destruct (Nat.lt_trichotomy k1 k2) as [Hlt|[Heq|Hgt]]; [|assumption|].
  - specialize (Hb3 k1 Hlt). destruct Ha2; lia.
  - specialize (Ha3 k2 Hgt). destruct Hb2; lia.
Qed.

End HandValue.


(** ** Hand valuation: theorems *)

Lemma hand_value_reduction cards :
  exists k, minimal_reduction (py_sum cards) (py_count 11 cards) k /\
            hand_value cards = py_sum cards - 10 * Z.of_nat k /\
            is_soft_hand cards = (k <? py_count 11 cards)%nat.
Proof.
  destruct (reduce_aces_minimal (py_sum cards) (py_count 11 cards))
    as (k & Hmin & Heq).
  exists k. split; [exact Hmin|]. unfold hand_value, is_soft_hand.
  rewrite Heq. simpl. split; [reflexivity|].
  destruct Hmin as (Hle & _).
  destruct (py_count 11 cards - k)%nat eqn:E; symmetry.
  - apply Nat.ltb_ge. lia.
  - apply Nat.ltb_lt. lia.
Qed.

Example hand_value_soft_17 : hand_value [11; 6] = 17.
Proof. reflexivity. Qed.

Example hand_value_two_aces_nine : hand_value [11; 9; 11] = 21.
Proof. reflexivity. Qed.

Example hand_value_bust : hand_value [10; 6; 11; 9] = 26.
Proof. reflexivity. Qed.

(** C2. [hand_value] returns a total that some valuation of the Aces (each
    as 1 or 11) achieves; when some valuation stays at or under 21 it is at
    most 21 and no valuation under 21 beats it; when every valuation is over
    21 it is the hard sum; and it is the sum less 10 for each of the minimal
    number of reductions of the loop. *)
Theorem hand_value_best_total (cards : list Z) :
  (exists low, valued_total cards low = hand_value cards) /\
  ((exists low, valued_total cards low <= 21) ->
   hand_value cards <= 21 /\
   forall low, valued_total cards low <= 21 ->
               valued_total cards low <= hand_value cards) /\
  ((forall low, 21 < valued_total cards low) ->
   hand_value cards = hard_sum cards) /\
  (exists k, minimal_reduction (py_sum cards) (py_count 11 cards) k /\
             hand_value cards = py_sum cards - 10 * Z.of_nat k).
Proof.
  destruct (hand_value_reduction cards) as (k & Hmin & Hv & _).
  pose proof Hmin as (Hle & Hstop & Hbefore).
  unfold BLACKJACK in *.
  assert (Hach : valued_total cards (lower_first k cards) = hand_value cards).
  { rewrite valued_total_lowered, lowered_lower_first by exact Hle.
    now rewrite Hv. }
  split; [eauto|]. split; [|split].
  - intros [low Hlow].
    rewrite valued_total_lowered in Hlow.
    pose proof (lowered_le_count cards low) as Hc.
    assert (Hfit : py_sum cards - 10 * Z.of_nat k <= 21).
    { destruct Hstop as [->|Hs]; [lia|exact Hs]. }
    split; [lia|].
    intros low' Hlow'. rewrite valued_total_lowered in *.
    destruct (Nat.lt_ge_cases (lowered cards low') k) as [Hlt|Hge]; [|lia].
    specialize (Hbefore _ Hlt). lia.
  - intros Hall. rewrite hard_sum_count.
    destruct Hstop as [->|Hs]; [lia|].
    specialize (Hall (lower_first k cards)). lia.
  - eauto.
Qed.

(** C9. [is_soft_hand] is true exactly when the minimal reduction that
    yields [hand_value] leaves an Ace at 11 (fewer reductions than Aces);
    an Ace with a ten-valued card totals 21 and is soft. *)
Theorem is_soft_hand_iff_ace_left (cards : list Z) :
  (is_soft_hand cards = true <->
   exists k, minimal_reduction (py_sum cards) (py_count 11 cards) k /\
             hand_value cards = py_sum cards - 10 * Z.of_nat k /\
             (k < py_count 11 cards)%nat) /\
  hand_value [11; 10] = 21 /\ is_soft_hand [11; 10] = true /\
  hand_value [10; 11] = 21 /\ is_soft_hand [10; 11] = true.
Proof.
  split; [|repeat split; reflexivity].
  destruct (hand_value_reduction cards) as (k & Hmin & Hv & Hs).
  rewrite Hs. split.
  - intros H. apply Nat.ltb_lt in H. exists k. auto.
  - intros (k' & Hmin' & _ & Hlt).
    rewrite (minimal_reduction_unique _ _ _ _ Hmin Hmin').
    now apply Nat.ltb_lt.
Qed.

(** ** Shoe: removal *)

Section ShoeRemoval.

Implicit Types (st : shoe_state) (rank : string).

Lemma counting_system_total rank :
  In rank ALL_RANKS -> exists w, COUNTING_SYSTEM !! rank = Some w.
Proof.
  unfold ALL_RANKS. simpl.
  intros H; repeat (destruct H as [<-|H]); try (eexists; reflexivity).
  destruct H.
Qed.

Lemma remove_card_success st rank c :
  In rank ALL_RANKS ->
  shoe_counts_of st !! rank = Some c -> 0 < c ->
  exists w,
    remove_card_from_shoe st rank =
      (ShoeState (<[rank := c - 1]> (shoe_counts_of st))
                 (running_count st + w)%Q, Ok tt).
Proof.
  intros Hin Hc Hpos.
  destruct (counting_system_total rank Hin) as [w Hw].
  exists w. unfold remove_card_from_shoe. rewrite Hc, Hw.
  destruct (Z.ltb_spec 0 c); [reflexivity|lia].
Qed.

Lemma remove_card_empty st rank c :
  shoe_counts_of st !! rank = Some c -> c <= 0 ->
  remove_card_from_shoe st rank = (st, Err ValueError).
Proof.
  intros Hc Hle. unfold remove_card_from_shoe. rewrite Hc.
  destruct (Z.ltb_spec 0 c); [lia|reflexivity].
Qed.

Lemma remove_card_nonneg st rank :
  counts_nonneg (shoe_counts_of st) ->
  counts_nonneg (shoe_counts_of (fst (remove_card_from_shoe st rank))).
Proof.
  intros Hnn. unfold remove_card_from_shoe.
  destruct (shoe_counts_of st !! rank) as [c|] eqn:Hc; [|exact Hnn].
  destruct (Z.ltb_spec 0 c) as [Hpos|_]; [|exact Hnn].
  assert (Hins : counts_nonneg (<[rank := c - 1]> (shoe_counts_of st))).
  { intros r n. rewrite lookup_insert.
    case_decide; [intros [= <-]; lia|apply Hnn]. }
  destruct (COUNTING_SYSTEM !! rank); exact Hins.
Qed.

Lemma remove_cards_nonneg k st rank :
  counts_nonneg (shoe_counts_of st) ->
  counts_nonneg (shoe_counts_of (fst (remove_cards k st rank))).
Proof.
  revert st; induction k as [|k IH]; intros st Hnn; simpl; [exact Hnn|].
  pose proof (remove_card_nonneg st rank Hnn) as H1.
  destruct (remove_card_from_shoe st rank) as [st' [[]|e]]; simpl in *.
  - now apply IH.
  - exact H1.
Qed.

(** C6. For a rank of the shoe with count [c]: [k <= c] removals all
    succeed and leave [c - k], with every other rank's count as it was; a
    removal at count 0 raises [ValueError] (card not available) and leaves
    the whole state as it was; and removals keep all counts non-negative. *)
Theorem remove_card_from_shoe_counts st rank (c : Z) (k : nat) :
  In rank ALL_RANKS ->
  shoe_counts_of st !! rank = Some c ->
  (Z.of_nat k <= c ->
   exists st',
     remove_cards k st rank = (st', Ok tt) /\
     shoe_counts_of st' !! rank = Some (c - Z.of_nat k) /\
     forall r, r <> rank ->
               shoe_counts_of st' !! r = shoe_counts_of st !! r) /\
  (c = 0 -> remove_card_from_shoe st rank = (st, Err ValueError)) /\
  (counts_nonneg (shoe_counts_of st) ->
   counts_nonneg (shoe_counts_of (fst (remove_card_from_shoe st rank))) /\
   counts_nonneg (shoe_counts_of (fst (remove_cards k st rank)))).
Proof.
  intros Hin Hc. split; [|split].
  - revert st c Hc; induction k as [|k IH]; intros st c Hc Hk.
    + exists st. simpl. split; [reflexivity|]. split; [|reflexivity].
      rewrite Hc. f_equal. lia.
    + destruct (remove_card_success st rank c Hin Hc ltac:(lia)) as [w Hw].
      simpl. rewrite Hw.
      destruct (IH (ShoeState (<[rank := c - 1]> (shoe_counts_of st))
                              (running_count st + w)%Q) (c - 1))
        as (st' & Hrun & Hcount & Hother).
      * simpl. apply lookup_insert_eq.
      * lia.
      * exists st'. split; [exact Hrun|]. split.
        -- rewrite Hcount. f_equal. lia.
        -- intros r Hr. rewrite (Hother r Hr). simpl.
           now apply lookup_insert_ne.
  - intros ->. now apply (remove_card_empty st rank 0).
  - intros Hnn. split.
    + now apply remove_card_nonneg.
    + now apply remove_cards_nonneg.
Qed.

End ShoeRemoval.

Lemma remove_card_from_shoe_counts_witness :
  exists st',
    remove_cards 3 (ShoeState (initialize_shoe_counts 1) 0) "T" =
      (st', Ok tt) /\
    shoe_counts_of st' !! "T"%string = Some (4 - Z.of_nat 3) /\
    forall r, r <> "T"%string ->
              shoe_counts_of st' !! r = initialize_shoe_counts 1 !! r.
Proof.
  apply (remove_card_from_shoe_counts
           (ShoeState (initialize_shoe_counts 1) 0) "T" 4 3).
  - simpl. tauto.
  - reflexivity.
  - simpl. lia.
Defined.

(** ** The stream monad and list primitives: basic facts *)

Section Basics.

Lemma bind_ok {A B} (m : M A) (k : A -> M B) pos a pos' :
  m pos = Ok (a, pos') -> bind m k pos = k a pos'.
Proof. intros H. unfold bind. now rewrite H. Qed.

Lemma py_in_In x l : py_in x l = true <-> In x l.
Proof.
  induction l as [|c cs IH]; simpl; [split; [discriminate|tauto]|].
  rewrite orb_true_iff, IH, Z.eqb_eq. tauto.
Qed.

Lemma py_in_count x l : py_in x l = (0 <? py_count x l)%nat.
Proof.
  induction l as [|c cs IH]; simpl; [reflexivity|].
  destruct (c =? x); simpl; [reflexivity|exact IH].
Qed.

Lemma remove_first_length x l :
  py_in x l = true -> S (length (remove_first x l)) = length l.
Proof.
  induction l as [|c cs IH]; simpl; [discriminate|].
  destruct (c =? x); simpl; [reflexivity|].
  intros H. now rewrite IH.
Qed.

Lemma remove_first_perm x l :
  py_in x l = true -> Permutation (x :: remove_first x l) l.
Proof.
  induction l as [|c cs IH]; simpl; [discriminate|].
  destruct (Z.eqb_spec c x) as [->|Hne]; simpl; [reflexivity|].
  intros H. rewrite Permutation_swap. now rewrite IH.
Qed.

Lemma remove_first_count x y l :
  py_count y (remove_first x l) =
    if (x =? y) && py_in x l then pred (py_count y l) else py_count y l.
Proof.
  induction l as [|c cs IH]; simpl.
  - now rewrite andb_false_r.
  - destruct (Z.eqb_spec c x) as [->|Hcx]; simpl.
    + rewrite andb_true_r. destruct (Z.eqb_spec x y); reflexivity.
    + rewrite IH. destruct (Z.eqb_spec x y) as [->|Hxy]; simpl.
      * destruct (Z.eqb_spec c y); [contradiction|reflexivity].
      * reflexivity.
Qed.

Lemma discard_if_present_length x l :
  (length (discard_if_present x l) <= length l)%nat.
Proof.
  unfold discard_if_present. destruct (py_in x l) eqn:E; [|lia].
  pose proof (remove_first_length x l E). lia.
Qed.

Lemma choice_nonempty stream l pos :
  l <> [] ->
  exists x, choice stream l pos = Ok (x, S pos) /\ py_in x l = true.
Proof.
  intros Hl. destruct l as [|c cs]; [contradiction|].
  eexists. split; [reflexivity|].
  apply py_in_In, nth_In, Nat.mod_upper_bound. simpl. lia.
Qed.

Lemma py_not_false l : py_not l = false <-> l <> [].
Proof. destruct l; simpl; split; congruence. Qed.

End Basics.

(** ** Dealer playout *)

Section DealerPlayout.

Variable stream : nat -> nat.

(** From any loop state with enough fuel, the loop ends: it has appended
    [drawn], taken out of the pool, to the hand. *)
Lemma dealer_loop_spec (n : nat) :
  forall local_shoe dealer_cards pos,
    length local_shoe = n ->
    exists drawn shoe',
      (forall fuel, (n < fuel)%nat ->
         dealer_loop stream fuel dealer_cards local_shoe pos =
           Ok ((dealer_cards ++ drawn, shoe'), (pos + length drawn)%nat)) /\
      Permutation (drawn ++ shoe') local_shoe /\
      (DEALER_STAND <= hand_value (dealer_cards ++ drawn) \/ shoe' = []) /\
      (forall j, (j < length drawn)%nat ->
                 hand_value (dealer_cards ++ take j drawn) < DEALER_STAND).
Proof.
  induction n as [|n IH]; intros local_shoe dealer_cards pos Hlen.
  - destruct local_shoe; [|discriminate].
    exists [], []. rewrite app_nil_r. split; [|split; [|split]].
    + intros [|fuel] Hf; [lia|]. simpl.
      rewrite andb_false_r, Nat.add_0_r. reflexivity.
    + reflexivity.
    + now right.
    + simpl; intros; lia.
  - destruct (Z.ltb_spec (hand_value dealer_cards) DEALER_STAND) as [Hlt|Hge].
    + assert (Hne : local_shoe <> []) by (destruct local_shoe; easy).
      destruct (choice_nonempty stream local_shoe pos Hne) as (x & Hx & Hin).
      pose proof (remove_first_length x local_shoe Hin) as Hrl.
      destruct (IH (remove_first x local_shoe) (dealer_cards ++ [x]) (S pos))
        as (drawn & shoe' & Hrun & Hperm & Hend & Hbefore); [lia|].
      exists (x :: drawn), shoe'. split; [|split; [|split]].
      * intros [|fuel] Hf; [lia|]. simpl.
        apply Z.ltb_lt in Hlt. rewrite Hlt.
        apply py_not_false in Hne. rewrite Hne. simpl.
        rewrite (bind_ok _ _ _ _ _ Hx).
        unfold list_remove. rewrite Hin. unfold bind at 1, lift.
        rewrite Hrun by lia. rewrite <- app_assoc. simpl.
        repeat f_equal. lia.
      * simpl. rewrite Hperm. now apply remove_first_perm.
      * now rewrite <- app_assoc in Hend.
      * intros [|j] Hj; simpl.
        -- now rewrite app_nil_r.
        -- specialize (Hbefore j ltac:(simpl in Hj; lia)).
           now rewrite <- app_assoc in Hbefore.
    + exists [], local_shoe. rewrite app_nil_r. split; [|split; [|split]].
      * intros [|fuel] Hf; [lia|]. simpl.
        apply Z.ltb_ge in Hge. rewrite Hge, Nat.add_0_r. reflexivity.
      * reflexivity.
      * now left.
      * simpl; intros; lia.
Qed.

End DealerPlayout.

(** C3. For every upcard and every snapshot, the dealer playout ends with
    any fuel above the snapshot's size, having drawn at most that many
    cards.  The cards drawn and the cards left are exactly the snapshot,
    less one card of the upcard's value when the snapshot holds one.  The
    dealer drew only while under 17, and the final total is 17 or more (a
    stand or, above 21, a bust) unless nothing is left: under 17 the dealer
    has drawn the whole snapshot, bar that one card. *)
Theorem dealer_playout_terminates (stream : nat -> nat) (dealer_card_val : Z)
    (shoe_list : list Z) (pos : nat) :
  exists drawn shoe',
    (forall fuel, (length shoe_list < fuel)%nat ->
       dealer_playout stream fuel dealer_card_val shoe_list pos =
         Ok ((dealer_card_val :: drawn, shoe'), (pos + length drawn)%nat)) /\
    simulate_dealer_hand_once stream dealer_card_val shoe_list pos =
      Ok (hand_value (dealer_card_val :: drawn), (pos + length drawn)%nat) /\
    (length drawn <= length shoe_list)%nat /\
    (In dealer_card_val shoe_list ->
     Permutation (dealer_card_val :: drawn ++ shoe') shoe_list) /\
    (~ In dealer_card_val shoe_list ->
     Permutation (drawn ++ shoe') shoe_list) /\
    (DEALER_STAND <= hand_value (dealer_card_val :: drawn) \/ shoe' = []) /\
    (hand_value (dealer_card_val :: drawn) < DEALER_STAND ->
     shoe' = [] /\
     (In dealer_card_val shoe_list ->
      Permutation (dealer_card_val :: drawn) shoe_list) /\
     (~ In dealer_card_val shoe_list -> Permutation drawn shoe_list)) /\
    (forall j, (j < length drawn)%nat ->
               hand_value (dealer_card_val :: take j drawn) < DEALER_STAND).
Proof.
  pose proof (discard_if_present_length dealer_card_val shoe_list) as Hpool.
  destruct (dealer_loop_spec stream _
              (dealer_pool dealer_card_val shoe_list) [dealer_card_val] pos
              eq_refl)
    as (drawn & shoe' & Hrun & Hperm & Hend & Hbefore).
  fold (dealer_pool dealer_card_val shoe_list) in Hpool.
  exists drawn, shoe'.
  assert (Hfuel : forall fuel, (length shoe_list < fuel)%nat ->
            dealer_playout stream fuel dealer_card_val shoe_list pos =
              Ok ((dealer_card_val :: drawn, shoe'),
                  (pos + length drawn)%nat)).
  { intros fuel Hf. unfold dealer_playout. apply Hrun. lia. }
  assert (Hin : In dealer_card_val shoe_list ->
                Permutation (dealer_card_val :: drawn ++ shoe') shoe_list).
  { intros H. apply py_in_In in H.
    unfold dealer_pool, discard_if_present in Hperm. rewrite H in Hperm.
    rewrite Hperm. now apply remove_first_perm. }
  assert (Hout : ~ In dealer_card_val shoe_list ->
                 Permutation (drawn ++ shoe') shoe_list).
  { intros H. unfold dealer_pool, discard_if_present in Hperm.
    destruct (py_in dealer_card_val shoe_list) eqn:E; [|exact Hperm].
    apply py_in_In in E. contradiction. }
  split; [exact Hfuel|]. split; [|split; [|split; [exact Hin|]]].
  - unfold simulate_dealer_hand_once, loop_fuel.
    rewrite (bind_ok _ _ _ _ _ (Hfuel _ (Nat.lt_succ_diag_r _))).
    reflexivity.
  - apply Permutation_length in Hperm. rewrite length_app in Hperm. lia.
  - split; [exact Hout|]. split; [exact Hend|]. split; [|exact Hbefore].
    intros Hlow.
    assert (Hnil : shoe' = []).
    { destruct Hend as [Hge|He]; [|exact He]. cbn [app] in Hge. lia. }
    subst shoe'. rewrite app_nil_r in Hin, Hout. auto.
Qed.

(** ** The dealer that hits a 17 holding an Ace *)

Section Soft17Dealer.

Import Soft17.

Variable stream : nat -> nat.

Lemma py_sum_app l1 l2 : py_sum (l1 ++ l2) = py_sum l1 + py_sum l2.
Proof.
  induction l1 as [|c cs IH]; simpl; [reflexivity|].
  unfold py_sum in *. simpl. rewrite IH. lia.
Qed.

Lemma py_count_app x l1 l2 :
  py_count x (l1 ++ l2) = (py_count x l1 + py_count x l2)%nat.
Proof.
  induction l1 as [|c cs IH]; simpl; [reflexivity|].
  destruct (c =? x); simpl; now rewrite IH.
Qed.

Lemma hard_sum_snoc hand c :
  hard_sum (hand ++ [c]) = hard_sum hand + (if c =? 11 then 1 else c).
Proof.
  rewrite !hard_sum_count, py_sum_app, py_count_app. simpl.
  unfold py_sum. simpl. destruct (Z.eqb_spec c 11); lia.
Qed.

Lemma hard_sum_le_hand_value hand : hard_sum hand <= hand_value hand.
Proof.
  destruct (hand_value_reduction hand) as (k & (Hle & _) & Hv & _).
  rewrite hard_sum_count, Hv. lia.
Qed.


Lemma deck_choice pos :
  choice stream DECK pos = Ok (nth (stream pos mod 13)%nat DECK 0, S pos).
Proof. reflexivity. Qed.

Lemma deck_card_bounds i : (i < 13)%nat -> 2 <= nth i DECK 0 <= 11.
Proof.
  intros Hi. do 13 (destruct i as [|i]; [simpl; lia|]). lia.
Qed.

(** The run of the loop from any hand whose hard sum is within [n] of 18. *)
Lemma dealer_hand_loop_spec (n : nat) :
  forall dealer_hand pos,
    18 - hard_sum dealer_hand <= Z.of_nat n ->
    exists drawn,
      (forall fuel, (n < fuel)%nat ->
         dealer_hand_loop stream fuel dealer_hand pos =
           Ok (dealer_hand ++ drawn, (pos + length drawn)%nat)) /\
      dealer_draws (dealer_hand ++ drawn) = false /\
      (forall j, (j < length drawn)%nat ->
         dealer_draws (dealer_hand ++ take j drawn) = true /\
         nth j drawn 0 = nth (stream (pos + j) mod 13)%nat DECK 0).
Proof.
  induction n as [|n IH]; intros dealer_hand pos Hn;
    destruct (dealer_draws dealer_hand) eqn:Hd.
  - exfalso. pose proof (hard_sum_le_hand_value dealer_hand).
    unfold dealer_draws, DEALER_STAND in Hd. lia.
  - exists []. rewrite app_nil_r. split; [|split; [exact Hd|simpl; lia]].
    intros [|fuel] Hf; [lia|]. simpl. rewrite Hd, Nat.add_0_r. reflexivity.
  - set (card := nth (stream pos mod 13)%nat DECK 0).
    assert (Hcard : 2 <= card <= 11).
    { apply deck_card_bounds, Nat.mod_upper_bound. lia. }
    destruct (IH (dealer_hand ++ [card]) (S pos)) as (drawn & Hrun & Hend & Hpre).
    { rewrite hard_sum_snoc. destruct (card =? 11); lia. }
    exists (card :: drawn). split; [|split].
    + intros [|fuel] Hf; [lia|]. simpl. rewrite Hd.
      rewrite (bind_ok _ _ _ _ _ (deck_choice pos)). fold card.
      rewrite Hrun by lia. rewrite <- app_assoc. simpl.
      repeat f_equal. lia.
    + now rewrite <- app_assoc in Hend.
    + intros [|j] Hj; simpl.
      * rewrite app_nil_r, Nat.add_0_r. now split.
      * destruct (Hpre j ltac:(simpl in Hj; lia)) as [H1 H2].
        rewrite <- app_assoc in H1. simpl in H1. split; [exact H1|].
        rewrite H2. now replace (S pos + j)%nat with (pos + S j)%nat by lia.
  - exists []. rewrite app_nil_r. split; [|split; [exact Hd|simpl; lia]].
    intros [|fuel] Hf; [lia|]. simpl. rewrite Hd, Nat.add_0_r. reflexivity.
Qed.

End Soft17Dealer.



(** ** Player playout and the Hit and Double Down trials *)

Section Trials.

Variable stream : nat -> nat.

Lemma discard_taken x l : taken_if_present x l (discard_if_present x l).
Proof.
  unfold taken_if_present, discard_if_present. split; intros H; rewrite H.
  - split; [|now apply remove_first_length].
    rewrite remove_first_count, Z.eqb_refl, H. simpl.
    rewrite py_in_count in H. apply Nat.ltb_lt in H. lia.
  - reflexivity.
Qed.

(** The player's loop ends within one iteration per card of the deck. *)
Lemma play_out_loop_spec (n : nat) :
  forall local_deck p_cards pos,
    length local_deck = n ->
    exists drawn deck',
      (forall fuel, (n < fuel)%nat ->
         play_out_loop stream fuel p_cards local_deck pos =
           Ok ((p_cards ++ drawn, deck'), (pos + length drawn)%nat)) /\
      Permutation (drawn ++ deck') local_deck.
Proof.
  induction n as [|n IH]; intros local_deck p_cards pos Hlen.
  - destruct local_deck; [|discriminate].
    exists [], []. rewrite app_nil_r, Nat.add_0_r. split; [|reflexivity].
    intros [|fuel] Hf; [lia|]. simpl.
    destruct (17 <=? hand_value p_cards); reflexivity.
  - destruct (17 <=? hand_value p_cards) eqn:Hstand.
    + exists [], local_deck. rewrite app_nil_r, Nat.add_0_r.
      split; [|reflexivity].
      intros [|fuel] Hf; [lia|]. simpl. now rewrite Hstand.
    + assert (Hne : local_deck <> []) by (destruct local_deck; easy).
      destruct (choice_nonempty stream local_deck pos Hne) as (x & Hx & Hin).
      pose proof (remove_first_length x local_deck Hin) as Hrl.
      pose proof (remove_first_perm x local_deck Hin) as Hperm.
      destruct (BLACKJACK <? hand_value (p_cards ++ [x])) eqn:Hbust.
      * exists [x], (remove_first x local_deck). split; [|exact Hperm].
        intros [|fuel] Hf; [lia|]. simpl. rewrite Hstand.
        apply py_not_false in Hne. rewrite Hne.
        rewrite (bind_ok _ _ _ _ _ Hx).
        unfold list_remove. rewrite Hin. unfold bind, lift.
        rewrite Hbust. unfold ret. repeat f_equal. lia.
      * destruct (IH (remove_first x local_deck) (p_cards ++ [x]) (S pos))
          as (drawn & deck' & Hrun & Hp); [lia|].
        exists (x :: drawn), deck'. split.
        -- intros [|fuel] Hf; [lia|]. simpl. rewrite Hstand.
           apply py_not_false in Hne. rewrite Hne.
           rewrite (bind_ok _ _ _ _ _ Hx).
           unfold list_remove. rewrite Hin. unfold bind at 1, lift.
           rewrite Hbust, Hrun by lia. rewrite <- app_assoc. simpl.
           repeat f_equal. lia.
        -- simpl. now rewrite Hp.
Qed.

Lemma play_out_hand_returns p_cards local_deck pos :
  exists drawn deck',
    play_out_hand stream p_cards local_deck pos =
      Ok ((p_cards ++ drawn, deck'), (pos + length drawn)%nat) /\
    Permutation (drawn ++ deck') local_deck.
Proof.
  destruct (play_out_loop_spec _ local_deck p_cards pos eq_refl)
    as (drawn & deck' & Hrun & Hp).
  exists drawn, deck'. split; [|exact Hp].
  apply Hrun. unfold loop_fuel. lia.
Qed.

Lemma simulate_dealer_hand_once_returns dealer_card_val shoe_list pos :
  exists drawn shoe',
    simulate_dealer_hand_once stream dealer_card_val shoe_list pos =
      Ok (hand_value (dealer_card_val :: drawn), (pos + length drawn)%nat) /\
    Permutation (drawn ++ shoe') (dealer_pool dealer_card_val shoe_list).
Proof.
  destruct (dealer_loop_spec stream _
              (dealer_pool dealer_card_val shoe_list) [dealer_card_val] pos
              eq_refl)
    as (drawn & shoe' & Hrun & Hperm & _).
  exists drawn, shoe'. split; [|exact Hperm].
  unfold simulate_dealer_hand_once, dealer_playout, loop_fuel.
  specialize (Hrun (S (length shoe_list))).
  rewrite (bind_ok _ _ _ _ _ (Hrun ltac:(
    pose proof (discard_if_present_length dealer_card_val shoe_list);
    unfold dealer_pool; lia))).
  reflexivity.
Qed.

Lemma trial_pool_built player_cards dealer_card_val shoe_counts built :
  build_shoe_list shoe_counts = Ok built ->
  trial_pool player_cards dealer_card_val shoe_counts =
    Ok (discard_if_present dealer_card_val (remove_known player_cards built)).
Proof. intros H. unfold trial_pool. now rewrite H. Qed.

(** A Hit trial always comes back once the shoe list can be built: the
    player draws out of [pool2], the dealer out of [dealer_pool] of what the
    player left. *)
Lemma hit_trial_run player_cards dealer_card_val shoe_counts built pos :
  build_shoe_list shoe_counts = Ok built ->
  exists p_drawn pool3 d_drawn shoe',
    let pool2 := discard_if_present dealer_card_val
                   (remove_known player_cards built) in
    play_out_hand stream player_cards pool2 pos =
      Ok ((player_cards ++ p_drawn, pool3), (pos + length p_drawn)%nat) /\
    Permutation (d_drawn ++ shoe') (dealer_pool dealer_card_val pool3) /\
    hit_trial stream player_cards dealer_card_val shoe_counts pos =
      Ok (settle 1 (hand_value (player_cards ++ p_drawn))
                   (hand_value (dealer_card_val :: d_drawn)),
          (pos + length p_drawn + length d_drawn)%nat).
Proof.
  intros Hb. simpl.
  destruct (play_out_hand_returns player_cards
              (discard_if_present dealer_card_val
                 (remove_known player_cards built)) pos)
    as (p_drawn & pool3 & Hplay & _).
  destruct (simulate_dealer_hand_once_returns dealer_card_val pool3
              (pos + length p_drawn)%nat) as (d_drawn & shoe' & Hdeal & Hperm).
  exists p_drawn, pool3, d_drawn, shoe'.
  split; [exact Hplay|]. split; [exact Hperm|].
  unfold hit_trial.
  rewrite (trial_pool_built _ _ _ _ Hb). unfold bind at 1, lift.
  rewrite (bind_ok _ _ _ _ _ Hplay).
  now rewrite (bind_ok _ _ _ _ _ Hdeal).
Qed.

(** So does a Double Down trial. *)
Lemma double_trial_run player_cards dealer_card_val shoe_counts built pos :
  build_shoe_list shoe_counts = Ok built ->
  exists draw_val pos1 d_drawn shoe',
    let pool2 := discard_if_present dealer_card_val
                   (remove_known player_cards built) in
    let pool3 := discard_if_present draw_val pool2 in
    double_draw stream pool2 pos = Ok ((draw_val, pool3), pos1) /\
    Permutation (d_drawn ++ shoe') (dealer_pool dealer_card_val pool3) /\
    double_trial stream player_cards dealer_card_val shoe_counts pos =
      Ok (settle 2 (hand_value (player_cards ++ [draw_val]))
                   (hand_value (dealer_card_val :: d_drawn)),
          (pos1 + length d_drawn)%nat).
Proof.
  intros Hb. simpl.
  set (pool2 := discard_if_present dealer_card_val
                  (remove_known player_cards built)).
  assert (Hdraw : exists draw_val pos1,
            double_draw stream pool2 pos =
              Ok ((draw_val, discard_if_present draw_val pool2), pos1)).
  { unfold double_draw. destruct pool2 as [|c cs] eqn:E.
    - exists 0, pos. reflexivity.
    - eexists _, _. simpl. reflexivity. }
  destruct Hdraw as (draw_val & pos1 & Hdraw).
  destruct (simulate_dealer_hand_once_returns dealer_card_val
              (discard_if_present draw_val pool2) pos1)
    as (d_drawn & shoe' & Hdeal & Hperm).
  exists draw_val, pos1, d_drawn, shoe'.
  split; [exact Hdraw|]. split; [exact Hperm|].
  unfold double_trial.
  rewrite (trial_pool_built _ _ _ _ Hb). unfold bind at 1, lift.
  fold pool2. rewrite (bind_ok _ _ _ _ _ Hdraw).
  now rewrite (bind_ok _ _ _ _ _ Hdeal).
Qed.

End Trials.

(** C8 (as amended). In a Hit and in a Double Down trial the upcard's value
    is taken out of the local pool by the action simulator, before the
    player draws, when the pool holds it, and once more inside the dealer
    routine when what the player left still holds it; the dealer's draws all
    come from that second pool.  Where a card of the value is there, the
    pool loses exactly one; where none is, the pool stays as it is. *)
Theorem upcard_taken_where_present (stream : nat -> nat)
    (player_cards : list Z) (dealer_card_val : Z)
    (shoe_counts : gmap string Z) (built : list Z) (pos : nat) :
  build_shoe_list shoe_counts = Ok built ->
  let known := remove_known player_cards built in
  let pool2 := discard_if_present dealer_card_val known in
  trial_pool player_cards dealer_card_val shoe_counts = Ok pool2 /\
  taken_if_present dealer_card_val known pool2 /\
  (exists p_drawn pool3 d_drawn shoe',
     play_out_hand stream player_cards pool2 pos =
       Ok ((player_cards ++ p_drawn, pool3), (pos + length p_drawn)%nat) /\
     taken_if_present dealer_card_val pool3
       (dealer_pool dealer_card_val pool3) /\
     Permutation (d_drawn ++ shoe') (dealer_pool dealer_card_val pool3) /\
     hit_trial stream player_cards dealer_card_val shoe_counts pos =
       Ok (settle 1 (hand_value (player_cards ++ p_drawn))
                    (hand_value (dealer_card_val :: d_drawn)),
           (pos + length p_drawn + length d_drawn)%nat)) /\
  (exists draw_val pos1 d_drawn shoe',
     let pool3 := discard_if_present draw_val pool2 in
     double_draw stream pool2 pos = Ok ((draw_val, pool3), pos1) /\
     taken_if_present dealer_card_val pool3
       (dealer_pool dealer_card_val pool3) /\
     Permutation (d_drawn ++ shoe') (dealer_pool dealer_card_val pool3) /\
     double_trial stream player_cards dealer_card_val shoe_counts pos =
       Ok (settle 2 (hand_value (player_cards ++ [draw_val]))
                    (hand_value (dealer_card_val :: d_drawn)),
           (pos1 + length d_drawn)%nat)).
Proof.
  intros Hb known pool2. split; [|split; [|split]].
  - now apply trial_pool_built.
  - apply discard_taken.
  - destruct (hit_trial_run stream player_cards dealer_card_val shoe_counts
                built pos Hb)
      as (p_drawn & pool3 & d_drawn & shoe' & Hplay & Hperm & Htrial).
    exists p_drawn, pool3, d_drawn, shoe'.
    split; [exact Hplay|]. split; [apply discard_taken|]. now split.
  - destruct (double_trial_run stream player_cards dealer_card_val
                shoe_counts built pos Hb)
      as (draw_val & pos1 & d_drawn & shoe' & Hdraw & Hperm & Htrial).
    exists draw_val, pos1, d_drawn, shoe'.
    split; [exact Hdraw|]. split; [apply discard_taken|]. now split.
Qed.

Lemma upcard_taken_where_present_witness :
  trial_pool [10; 6] 9 (initialize_shoe_counts 1) =
    Ok (discard_if_present 9
          (remove_known [10; 6]
             (replicate 4 2 ++ replicate 4 3 ++ replicate 4 4 ++
              replicate 4 5 ++ replicate 4 6 ++ replicate 4 7 ++
              replicate 4 8 ++ replicate 4 9 ++ replicate 16 10 ++
              replicate 4 11))).
Proof.
  apply (upcard_taken_where_present (fun _ => O) [10; 6] 9
           (initialize_shoe_counts 1) _ O).
  reflexivity.
Defined.

(** C8 as stated fails on a shoe that holds no card of the upcard's value
    (the last 9 is the upcard itself): neither the action simulator nor the
    dealer routine takes anything out, and the dealer draws from a pool with
    as many 9s, none, as the list built from the shoe. *)
Lemma upcard_removed_twice_counterexample :
  let shoe_counts := <["9"%string := 0]> (initialize_shoe_counts 1) in
  exists built pool3 pos1,
    build_shoe_list shoe_counts = Ok built /\
    let known := remove_known [10; 6] built in
    trial_pool [10; 6] 9 shoe_counts = Ok known /\
    S (py_count 9 (discard_if_present 9 known)) <> py_count 9 known /\
    play_out_hand (fun _ => O) [10; 6] known O =
      Ok (([10; 6; 2], pool3), pos1) /\
    dealer_pool 9 pool3 = pool3 /\
    S (py_count 9 (dealer_pool 9 pool3)) <> py_count 9 pool3 /\
    py_count 9 (dealer_pool 9 pool3) = py_count 9 built.
Proof.
  intros shoe_counts. eexists _, _, _.
  split; [vm_compute; reflexivity|]. cbv zeta.
  split; [vm_compute; reflexivity|].
  split; [vm_compute; discriminate|].
  split; [vm_compute; reflexivity|].
  split; [vm_compute; reflexivity|].
  split; [vm_compute; discriminate|].
  vm_compute; reflexivity.
Qed.

(** ** The estimator: chunked loops against the plain sequence of trials *)

Section Estimator.

Variable stream : nat -> nat.

Lemma py_truediv_nonzero (a : Q) (b : Z) :
  b <> 0 -> py_truediv a (inject_Z b) = Ok (a / inject_Z b)%Q.
Proof.
  intros Hb. unfold py_truediv.
  destruct (Qeq_bool (inject_Z b) 0) eqn:E; [|reflexivity].
  apply Qeq_bool_eq in E. unfold Qeq in E. simpl in E. lia.
Qed.

Lemma run_trials_add (a b : nat) (trial : M Z) pos :
  run_trials (a + b) trial pos =
    match run_trials a trial pos with
    | Ok (xs1, pos1) =>
        match run_trials b trial pos1 with
        | Ok (xs2, pos2) => Ok (xs1 ++ xs2, pos2)
        | Err e => Err e
        end
    | Err e => Err e
    end.
Proof.
  revert pos; induction a as [|a IH]; intros pos; simpl.
  - unfold ret. destruct (run_trials b trial pos) as [[xs2 pos2]|e]; reflexivity.
  - unfold bind, ret. destruct (trial pos) as [[x pos0]|e]; [|reflexivity].
    rewrite IH.
    destruct (run_trials a trial pos0) as [[xs1 pos1]|e]; [|reflexivity].
    destruct (run_trials b trial pos1) as [[xs2 pos2]|e]; reflexivity.
Qed.

Lemma run_trials_length n (trial : M Z) pos xs pos' :
  run_trials n trial pos = Ok (xs, pos') -> length xs = n.
Proof.
  revert pos xs pos'; induction n as [|n IH]; intros pos xs pos'; simpl.
  - unfold ret. now intros [= <- _].
  - unfold bind. destruct (trial pos) as [[x pos0]|e]; [|discriminate].
    destruct (run_trials n trial pos0) as [[xs0 pos1]|e] eqn:E; [|discriminate].
    unfold ret. intros [= <- _]. simpl. f_equal. exact (IH _ _ _ E).
Qed.

Lemma run_trials_total n (trial : M Z) :
  (forall pos, exists x pos', trial pos = Ok (x, pos')) ->
  forall pos, exists xs pos', run_trials n trial pos = Ok (xs, pos').
Proof.
  intros Htot. induction n as [|n IH]; intros pos; simpl.
  - eexists _, _. reflexivity.
  - destruct (Htot pos) as (x & pos0 & Hx).
    destruct (IH pos0) as (xs & pos1 & Hxs).
    exists (x :: xs), pos1.
    rewrite (bind_ok _ _ _ _ _ Hx). now rewrite (bind_ok _ _ _ _ _ Hxs).
Qed.

(** The inner loop adds up the payoffs of its trials. *)
Lemma trials_loop_run n (trial : M Z) ev_chunk pos xs pos' :
  run_trials n trial pos = Ok (xs, pos') ->
  trials_loop n trial ev_chunk pos = Ok (ev_chunk + py_sum xs, pos').
Proof.
  revert ev_chunk pos xs pos'; induction n as [|n IH];
    intros ev_chunk pos xs pos'; simpl.
  - unfold ret. intros [= <- <-]. unfold py_sum. simpl.
    now rewrite Z.add_0_r.
  - unfold bind. destruct (trial pos) as [[x pos0]|e]; [|discriminate].
    destruct (run_trials n trial pos0) as [[xs0 pos1]|e] eqn:E; [|discriminate].
    unfold ret. intros [= <- <-]. rewrite (IH _ _ _ _ E).
    unfold py_sum. simpl. f_equal. f_equal. lia.
Qed.

End Estimator.

Section EstimatorLoops.

Variable stream : nat -> nat.

(** The ten-chunk loop, chunk by chunk, against the trials in sequence:
    each checkpoint is the running sum over the running count. *)
Lemma checkpoint_loop_run (trial chunk : M Z) (c : nat) :
  (0 < c)%nat ->
  (forall pos xs pos',
     run_trials c trial pos = Ok (xs, pos') ->
     chunk pos = Ok (py_sum xs, pos')) ->
  forall todo i ev means pos xs pos',
    run_trials (todo * c) trial pos = Ok (xs, pos') ->
    checkpoint_loop chunk c todo i ev means pos =
      Ok ((ev + py_sum xs,
           means ++
           map (fun j =>
                  (inject_Z (ev + py_sum (take (j * c) xs))
                   / inject_Z ((Z.of_nat i + Z.of_nat j) * Z.of_nat c))%Q)
               (seq 1 todo)),
          pos').
Proof.
  intros Hc Hchunk.
  induction todo as [|todo IH]; intros i ev means pos xs pos' Hrun.
  - simpl in Hrun. unfold ret in Hrun. injection Hrun as <- <-.
    simpl. unfold ret, py_sum. simpl. now rewrite Z.add_0_r, app_nil_r.
  - change (S todo * c)%nat with (c + todo * c)%nat in Hrun.
    rewrite run_trials_add in Hrun.
    destruct (run_trials c trial pos) as [[xs1 pos1]|e] eqn:E1;
      [|discriminate].
    destruct (run_trials (todo * c) trial pos1) as [[xs2 pos2]|e] eqn:E2;
      [|discriminate].
    injection Hrun as <- <-.
    pose proof (run_trials_length _ _ _ _ _ E1) as Hlen.
    cbn [checkpoint_loop].
    rewrite (bind_ok _ _ _ _ _ (Hchunk _ _ _ E1)).
    rewrite py_truediv_nonzero by lia.
    unfold bind at 1, lift.
    rewrite (IH _ _ _ _ _ _ E2).
    rewrite py_sum_app, Z.add_assoc, <- app_assoc.
    do 3 f_equal. apply (f_equal (app means)).
    change (seq 1 (S todo)) with (1%nat :: seq 2 todo).
    rewrite <- (seq_shift todo 1), map_cons, map_map. cbn [app]. f_equal.
    + rewrite Nat.mul_1_l, take_app_length' by (symmetry; exact Hlen).
      reflexivity.
    + apply map_ext. intros j.
      change (S j * c)%nat with (c + j * c)%nat.
      rewrite (take_app_add' xs1 xs2 c) by (symmetry; exact Hlen).
      rewrite py_sum_app, Z.add_assoc. do 2 f_equal. lia.
Qed.

(** The accumulating loop of Split. *)
Lemma split_loop_run (trial chunk : M Z) (c : nat) :
  (forall pos xs pos',
     run_trials c trial pos = Ok (xs, pos') ->
     chunk pos = Ok (py_sum xs, pos')) ->
  forall todo acc pos xs pos',
    run_trials (todo * c) trial pos = Ok (xs, pos') ->
    split_loop chunk todo acc pos = Ok (acc + py_sum xs, pos').
Proof.
  intros Hchunk.
  induction todo as [|todo IH]; intros acc pos xs pos' Hrun.
  - simpl in Hrun. unfold ret in Hrun. injection Hrun as <- <-.
    simpl. unfold ret, py_sum. simpl. now rewrite Z.add_0_r.
  - change (S todo * c)%nat with (c + todo * c)%nat in Hrun.
    rewrite run_trials_add in Hrun.
    destruct (run_trials c trial pos) as [[xs1 pos1]|e] eqn:E1;
      [|discriminate].
    destruct (run_trials (todo * c) trial pos1) as [[xs2 pos2]|e] eqn:E2;
      [|discriminate].
    injection Hrun as <- <-.
    cbn [split_loop].
    rewrite (bind_ok _ _ _ _ _ (Hchunk _ _ _ E1)).
    rewrite (IH _ _ _ _ E2).
    now rewrite py_sum_app, Z.add_assoc.
Qed.

Lemma trials_chunk (trial : M Z) (c : nat) pos xs pos' :
  run_trials c trial pos = Ok (xs, pos') ->
  trials_loop c trial 0 pos = Ok (py_sum xs, pos').
Proof. intros H. now rewrite (trials_loop_run _ _ _ _ _ _ H). Qed.

End EstimatorLoops.

(** ** The estimator: Stand, Hit and Double Down *)

Section EstimatorActions.

Variable stream : nat -> nat.
Variables (player_cards : list Z) (dealer_card_val : Z).
Variables (shoe_counts : gmap string Z) (built : list Z).
Hypothesis Hbuilt : build_shoe_list shoe_counts = Ok built.

Lemma dealer_totals_loop_run n shoe_list acc pos ts pos' :
  run_trials n (simulate_dealer_hand_once stream dealer_card_val shoe_list)
    pos = Ok (ts, pos') ->
  dealer_totals_loop stream n dealer_card_val shoe_list acc pos =
    Ok (acc ++ ts, pos').
Proof.
  revert acc pos ts pos'; induction n as [|n IH]; intros acc pos ts pos'; simpl.
  - unfold ret. intros [= <- <-]. now rewrite app_nil_r.
  - unfold bind.
    destruct (simulate_dealer_hand_once stream dealer_card_val shoe_list pos)
      as [[t pos0]|e]; [|discriminate].
    destruct (run_trials n _ pos0) as [[ts0 pos1]|e] eqn:E; [|discriminate].
    unfold ret. intros [= <- <-]. rewrite (IH _ _ _ _ E).
    now rewrite <- app_assoc.
Qed.

Lemma run_trials_stand n pos :
  run_trials n (stand_trial stream player_cards dealer_card_val shoe_counts)
    pos =
  match run_trials n
          (simulate_dealer_hand_once stream dealer_card_val built) pos with
  | Ok (ts, pos') =>
      Ok (map (stand_payoff (hand_value player_cards)
                 (is_soft_hand player_cards)) ts, pos')
  | Err e => Err e
  end.
Proof.
  revert pos; induction n as [|n IH]; intros pos; simpl; [reflexivity|].
  unfold stand_trial at 1. rewrite Hbuilt. unfold bind, lift, ret.
  destruct (simulate_dealer_hand_once stream dealer_card_val built pos)
    as [[t pos0]|e]; [|reflexivity].
  fold (bind (A:=Z) (B:=list Z)). unfold bind in IH. rewrite IH.
  destruct (run_trials n _ pos0) as [[ts pos1]|e]; reflexivity.
Qed.

Lemma process_results_sum player_t is_soft ts :
  process_results_for_stand_like player_t ts is_soft =
    py_sum (map (stand_payoff player_t is_soft) ts).
Proof.
  unfold process_results_for_stand_like, stand_payoff.
  destruct (BLACKJACK <? player_t).
  - induction ts as [|t ts IH]; [reflexivity|].
    cbn [length map]. unfold py_sum in *. cbn [foldr]. lia.
  - assert (H : forall acc,
              foldl (fun chunk_ev d_total =>
                       chunk_ev + stand_like_step player_t is_soft d_total)
                    acc ts =
              acc + py_sum (map (stand_like_step player_t is_soft) ts)).
    { induction ts as [|t ts IH]; intros acc; simpl.
      - unfold py_sum. simpl. lia.
      - rewrite IH. unfold py_sum. simpl. lia. }
    now rewrite H.
Qed.

(** The Stand chunk is the sum of its trials. *)
Lemma stand_chunk_run c pos xs pos' :
  run_trials c (stand_trial stream player_cards dealer_card_val shoe_counts)
    pos = Ok (xs, pos') ->
  (let* dealer_totals :=
     simulate_dealer_hands stream dealer_card_val shoe_counts c in
   ret (process_results_for_stand_like (hand_value player_cards)
          dealer_totals (is_soft_hand player_cards))) pos =
    Ok (py_sum xs, pos').
Proof.
  rewrite run_trials_stand.
  destruct (run_trials c _ pos) as [[ts pos1]|e] eqn:E; [|discriminate].
  intros [= <- <-].
  unfold simulate_dealer_hands. rewrite Hbuilt.
  unfold bind at 2, lift.
  rewrite (bind_ok _ _ _ _ _ (dealer_totals_loop_run _ _ [] _ _ _ E)).
  unfold ret. simpl. now rewrite process_results_sum.
Qed.

Lemma stand_trial_total pos :
  exists x pos',
    stand_trial stream player_cards dealer_card_val shoe_counts pos =
      Ok (x, pos').
Proof.
  destruct (simulate_dealer_hand_once_returns stream dealer_card_val built pos)
    as (drawn & shoe' & Hd & _).
  eexists _, _. unfold stand_trial. rewrite Hbuilt. unfold bind at 1, lift.
  rewrite (bind_ok _ _ _ _ _ Hd). reflexivity.
Qed.

Lemma hit_trial_total pos :
  exists x pos',
    hit_trial stream player_cards dealer_card_val shoe_counts pos =
      Ok (x, pos').
Proof.
  destruct (hit_trial_run stream player_cards dealer_card_val shoe_counts
              built pos Hbuilt) as (? & ? & ? & ? & _ & _ & H).
  eauto.
Qed.

Lemma double_trial_total pos :
  exists x pos',
    double_trial stream player_cards dealer_card_val shoe_counts pos =
      Ok (x, pos').
Proof.
  destruct (double_trial_run stream player_cards dealer_card_val shoe_counts
              built pos Hbuilt) as (? & ? & ? & ? & _ & _ & H).
  eauto.
Qed.

(** The closing lines of [monte_carlo_ev]. *)
Lemma finish_ev (body : M (Q * list Q)) (n : nat) ev means pos pos' :
  body pos = Ok ((ev, means), pos') -> (0 < n)%nat ->
  (let* '(ev, checkpoint_means) := body in
   let* mean := lift (py_truediv ev (inject_Z (Z.of_nat n))) in
   ret ((mean * RTP)%Q, checkpoint_means)) pos =
    Ok (((ev / inject_Z (Z.of_nat n) * RTP)%Q, means), pos').
Proof.
  intros Hbody Hn. rewrite (bind_ok _ _ _ _ _ Hbody).
  rewrite py_truediv_nonzero by lia. reflexivity.
Qed.

(** Ten chunks of [c] trials, from the start of the run. *)
Lemma ten_chunks (trial chunk : M Z) (c : nat) pos :
  (0 < c)%nat ->
  (forall pos, exists x pos', trial pos = Ok (x, pos')) ->
  (forall pos xs pos',
     run_trials c trial pos = Ok (xs, pos') ->
     chunk pos = Ok (py_sum xs, pos')) ->
  exists payoffs pos',
    run_trials (10 * c) trial pos = Ok (payoffs, pos') /\
    (let* '(ev, means) := checkpoint_loop chunk c 10 0 0 [] in
     ret (inject_Z ev, means)) pos =
      Ok ((inject_Z (py_sum payoffs),
           map (checkpoint c payoffs) (seq 1 10)), pos').
Proof.
  intros Hc Htot Hchunk.
  destruct (run_trials_total (10 * c) trial Htot pos) as (payoffs & pos' & Hrun).
  exists payoffs, pos'. split; [exact Hrun|].
  rewrite (bind_ok _ _ _ _ _
             (checkpoint_loop_run trial chunk c Hc Hchunk 10 0 0 [] _ _ _ Hrun)).
  reflexivity.
Qed.

Lemma ten_chunks_div (c : nat) : ((10 * c) / 10 = c)%nat.
Proof. rewrite Nat.mul_comm. now apply Nat.div_mul. Qed.

(** Stand, Hit and Double Down over [10 * c] trials: the final EV is the
    sum of all payoffs over the trial count, scaled by [RTP], and the trace
    is the ten checkpoints. *)
Lemma monte_carlo_ev_run (action : string) (c : nat) pos :
  (0 < c)%nat ->
  action = "Stand"%string \/ action = "Hit"%string \/
  action = "Double Down"%string ->
  exists payoffs pos',
    run_trials (10 * c)
      (action_trial stream action player_cards dealer_card_val shoe_counts)
      pos = Ok (payoffs, pos') /\
    monte_carlo_ev stream player_cards dealer_card_val shoe_counts action
      (10 * c) pos =
      Ok (((inject_Z (py_sum payoffs) / inject_Z (Z.of_nat (10 * c)) * RTP)%Q,
           map (checkpoint c payoffs) (seq 1 10)), pos').
Proof.
  intros Hc Hact. unfold monte_carlo_ev. cbv zeta. rewrite ten_chunks_div.
  destruct Hact as [-> | [-> | ->]];
    cbn [String.eqb Ascii.eqb Bool.eqb andb];
    unfold action_trial; cbn [String.eqb Ascii.eqb Bool.eqb andb].
  - destruct (ten_chunks _ _ c pos Hc stand_trial_total
                (fun pos xs pos' => stand_chunk_run c pos xs pos'))
      as (payoffs & pos' & Hrun & Hloop).
    exists payoffs, pos'. split; [exact Hrun|].
    apply (finish_ev _ _ _ _ _ _ Hloop). lia.
  - destruct (ten_chunks _ _ c pos Hc hit_trial_total
                (fun pos xs pos' => trials_chunk _ c pos xs pos'))
      as (payoffs & pos' & Hrun & Hloop).
    exists payoffs, pos'. split; [exact Hrun|].
    apply (finish_ev _ _ _ _ _ _ Hloop). lia.
  - destruct (ten_chunks _ _ c pos Hc double_trial_total
                (fun pos xs pos' => trials_chunk _ c pos xs pos'))
      as (payoffs & pos' & Hrun & Hloop).
    exists payoffs, pos'. split; [exact Hrun|].
    apply (finish_ev _ _ _ _ _ _ Hloop). lia.
Qed.

End EstimatorActions.

(** ** The estimator: what [monte_carlo_ev] returns *)

(** Split over [10 * c] trials that all come back: the accumulated sum is
    divided by the trial count on the Split branch and once more on the
    closing line shared by all actions. *)
Lemma split_ev_run stream split_card_val rest dealer_card_val shoe_counts
    (c : nat) pos payoffs pos' :
  (0 < c)%nat ->
  run_trials (10 * c)
    (split_trial stream split_card_val dealer_card_val shoe_counts) pos =
    Ok (payoffs, pos') ->
  monte_carlo_ev stream (split_card_val :: rest) dealer_card_val shoe_counts
    "Split" (10 * c) pos =
    Ok (((inject_Z (py_sum payoffs) / inject_Z (10 * Z.of_nat c)
          / inject_Z (Z.of_nat (10 * c)) * RTP)%Q, []), pos').
Proof.
  intros Hc Hrun. unfold monte_carlo_ev. cbv zeta. rewrite ten_chunks_div.
  cbn [String.eqb Ascii.eqb Bool.eqb andb py_first].
  apply finish_ev; [|lia].
  unfold bind at 1, lift at 1.
  rewrite (bind_ok _ _ _ _ _
             (split_loop_run _ _ c
                (fun pos xs pos' => trials_chunk _ c pos xs pos')
                10 0 _ _ _ Hrun)).
  rewrite py_truediv_nonzero by lia. reflexivity.
Qed.

(** Whatever Split returns, its trace is empty: that branch never appends
    to [checkpoint_means]. *)
Lemma split_trace_empty stream player_cards dealer_card_val shoe_counts
    simulations pos ev trace pos' :
  monte_carlo_ev stream player_cards dealer_card_val shoe_counts "Split"
    simulations pos = Ok ((ev, trace), pos') ->
  trace = [].
Proof.
  unfold monte_carlo_ev. cbv zeta. cbn [String.eqb Ascii.eqb Bool.eqb andb].
  unfold bind at 1 2 3 4. unfold lift at 1 3.
  destruct (py_first player_cards) as [split_card_val|e]; [|discriminate].
  destruct (split_loop _ _ _ _) as [[acc pos1]|e]; [|discriminate].
  destruct (py_truediv (inject_Z acc) _) as [ev0|e]; [|discriminate].
  unfold ret at 1, bind, lift.
  destruct (py_truediv ev0 _) as [mean|e]; [|discriminate].
  unfold ret. now intros [= _ <- _].
Qed.

(** C5 (as amended). For Stand, Hit and Double Down and every trial count
    [N > 0] divisible by 10, the returned trace has exactly 10 entries, the
    i-th (i = 1..10) being the sum of the payoffs of the first [i] chunks
    over [i * (N / 10)]; for Split the returned trace is empty, no
    checkpoint being recorded on that branch. *)
Theorem convergence_trace_checkpoints (stream : nat -> nat)
    (player_cards : list Z) (dealer_card_val : Z)
    (shoe_counts : gmap string Z) (built : list Z) (action : string)
    (N pos : nat) :
  build_shoe_list shoe_counts = Ok built ->
  (N mod 10 = 0)%nat -> (0 < N)%nat ->
  (action = "Stand"%string \/ action = "Hit"%string \/
   action = "Double Down"%string ->
   exists payoffs ev trace pos',
     run_trials N
       (action_trial stream action player_cards dealer_card_val shoe_counts)
       pos = Ok (payoffs, pos') /\
     monte_carlo_ev stream player_cards dealer_card_val shoe_counts action
       N pos = Ok ((ev, trace), pos') /\
     length trace = 10%nat /\
     trace = map (checkpoint (N / 10) payoffs) (seq 1 10)) /\
  (action = "Split"%string ->
   forall ev trace pos',
     monte_carlo_ev stream player_cards dealer_card_val shoe_counts action
       N pos = Ok ((ev, trace), pos') ->
     trace = []).
Proof.
  intros Hb Hmod Hpos. split.
  - intros Hact.
    assert (HN : N = (10 * (N / 10))%nat) by now apply Nat.Div0.div_exact.
    assert (Hc : (0 < N / 10)%nat) by lia.
    destruct (monte_carlo_ev_run stream player_cards dealer_card_val
                shoe_counts built Hb action (N / 10) pos Hc Hact)
      as (payoffs & pos' & Hrun & Hev).
    rewrite <- HN in Hrun, Hev.
    eexists payoffs, _, _, pos'.
    split; [exact Hrun|]. split; [exact Hev|]. split; reflexivity.
  - intros -> ev trace pos'. apply split_trace_empty.
Qed.

Lemma convergence_trace_checkpoints_witness :
  exists payoffs ev trace pos',
    run_trials 20
      (action_trial sample_stream "Hit" [10; 6] 10 (initialize_shoe_counts 6))
      O = Ok (payoffs, pos') /\
    monte_carlo_ev sample_stream [10; 6] 10 (initialize_shoe_counts 6) "Hit"
      20 O = Ok ((ev, trace), pos') /\
    length trace = 10%nat /\
    trace = map (checkpoint (20 / 10) payoffs) (seq 1 10).
Proof.
  assert (Hb : exists built,
            build_shoe_list (initialize_shoe_counts 6) = Ok built)
    by (eexists; vm_compute; reflexivity).
  destruct Hb as [built Hb].
  apply (convergence_trace_checkpoints sample_stream [10; 6] 10
           (initialize_shoe_counts 6) built "Hit" 20 O Hb).
  - reflexivity.
  - lia.
  - right; left; reflexivity.
Defined.

(** C5 as stated fails for Split, whose trace has no entry at all, and at
    the trial count 0, which is divisible by 10 and where Stand raises
    [ZeroDivisionError] at its first checkpoint. *)
Lemma convergence_trace_counterexample :
  (exists ev pos',
     monte_carlo_ev sample_stream [8; 8] 10 (initialize_shoe_counts 6)
       "Split" 10 O = Ok ((ev, []), pos')) /\
  monte_carlo_ev sample_stream [10; 6] 10 (initialize_shoe_counts 6)
    "Stand" 0 O = Err ZeroDivisionError.
Proof.
  split; [eexists _, _|]; vm_compute; reflexivity.
Qed.

(** C1 at a failing input: Split on a pair of 8s against a 10, six decks,
    ten trials.  The ten per-trial payoffs add up to -4, so the claimed EV
    is (-4 / 10) * RTP; the code returns (-4 / 10 / 10) * RTP, the sum
    having been divided by the trial count twice. *)
Theorem split_ev_divided_twice :
  exists payoffs ev pos',
    run_trials 10
      (action_trial sample_stream "Split" [8; 8] 10 (initialize_shoe_counts 6))
      O = Ok (payoffs, pos') /\
    py_sum payoffs = -4 /\
    monte_carlo_ev sample_stream [8; 8] 10 (initialize_shoe_counts 6)
      "Split" 10 O = Ok ((ev, []), pos') /\
    (ev == inject_Z (py_sum payoffs) / inject_Z 10 / inject_Z 10 * RTP)%Q /\
    ~ (ev == inject_Z (py_sum payoffs) / inject_Z 10 * RTP)%Q.
Proof.
  eexists _, _, _.
  split; [vm_compute; reflexivity|].
  split; [vm_compute; reflexivity|].
  split; [vm_compute; reflexivity|].
  split; vm_compute; [reflexivity|discriminate].
Qed.

(** ** Action selection *)

Section Selection.

Implicit Types (evs : list (string * Q)) (x y : string * Q).

Lemma insert_desc_perm x l : Permutation (insert_desc x l) (x :: l).
Proof.
  induction l as [|y ys IH]; simpl; [reflexivity|].
  destruct (Qle_bool (snd y) (snd x)); [reflexivity|].
  rewrite IH. apply Permutation_swap.
Qed.

Lemma sorted_by_ev_desc_perm evs : Permutation (sorted_by_ev_desc evs) evs.
Proof.
  induction evs as [|x t IH]; simpl; [reflexivity|].
  rewrite insert_desc_perm. now rewrite IH.
Qed.

Lemma insert_desc_sorted x l :
  StronglySorted ev_ge l -> StronglySorted ev_ge (insert_desc x l).
Proof.
  induction l as [|y ys IH]; intros Hs; simpl.
  - repeat constructor.
  - inversion Hs as [|? ? Hys Hall]; subst.
    destruct (Qle_bool (snd y) (snd x)) eqn:E.
    + apply Qle_bool_iff in E. constructor; [exact Hs|].
      constructor; [exact E|].
      eapply Forall_impl; [exact Hall|].
      intros z Hz. unfold ev_ge in *. eapply Qle_trans; [exact Hz|exact E].
    + assert (Hlt : (snd x < snd y)%Q).
      { apply Qnot_le_lt. intros H. apply Qle_bool_iff in H. congruence. }
      constructor; [now apply IH|].
      rewrite insert_desc_perm. constructor; [|exact Hall].
      unfold ev_ge. now apply Qlt_le_weak.
Qed.

Lemma sorted_by_ev_desc_sorted evs :
  StronglySorted ev_ge (sorted_by_ev_desc evs).
Proof.
  induction evs as [|x t IH]; simpl; [constructor|].
  now apply insert_desc_sorted.
Qed.

(** The sort is stable at its head: the first entry is the earliest entry
    of greatest EV. *)
Lemma sorted_head_first_max evs h rest :
  sorted_by_ev_desc evs = h :: rest ->
  exists l1 l2,
    evs = l1 ++ h :: l2 /\
    (forall y, In y l1 -> (snd y < snd h)%Q) /\
    (forall y, In y l2 -> (snd y <= snd h)%Q).
Proof.
  revert h rest; induction evs as [|x t IH]; intros h rest; simpl.
  - discriminate.
  - destruct (sorted_by_ev_desc t) as [|y ys] eqn:Et; simpl.
    + intros [= <- <-].
      pose proof (sorted_by_ev_desc_perm t) as Hp. rewrite Et in Hp.
      apply Permutation_nil in Hp. subst t.
      exists [], []. repeat split; intros ? [].
    + destruct (IH y ys eq_refl) as (l1 & l2 & -> & H1 & H2).
      destruct (Qle_bool (snd y) (snd x)) eqn:E.
      * intros [= <- <-]. apply Qle_bool_iff in E.
        exists [], (l1 ++ y :: l2). repeat split; [intros ? []|].
        intros z Hz. apply in_app_or in Hz as [Hz|[<-|Hz]].
        -- apply Qlt_le_weak. eapply Qlt_le_trans; [apply (H1 _ Hz)|exact E].
        -- exact E.
        -- eapply Qle_trans; [apply (H2 _ Hz)|exact E].
      * intros [= <- <-].
        assert (Hlt : (snd x < snd y)%Q).
        { apply Qnot_le_lt. intros H. apply Qle_bool_iff in H. congruence. }
        exists (x :: l1), l2. repeat split; [|exact H2].
        intros z [<-|Hz]; [exact Hlt|now apply H1].
Qed.

Lemma priority_ordered_from_bounds lo actions :
  priority_ordered_from lo actions = true ->
  forall a, In a actions ->
            In a PRIORITY /\ (lo <= position a PRIORITY)%nat.
Proof.
  revert lo; induction actions as [|b rest IH]; intros lo H a; [intros []|].
  cbn [priority_ordered_from] in H. apply andb_true_iff in H as [H Hrest].
  apply andb_true_iff in H as [Hin Hlo]. apply Nat.leb_le in Hlo.
  intros [<-|Ha].
  - split; [|exact Hlo].
    apply existsb_exists in Hin as (c & Hc & Heq).
    apply String.eqb_eq in Heq. now subst.
  - destruct (IH _ Hrest a Ha) as [H1 H2]. split; [exact H1|lia].
Qed.

Lemma priority_ordered_from_later lo (l1 l2 : list string) h :
  priority_ordered_from lo (l1 ++ h :: l2) = true ->
  forall a, In a l2 -> (position h PRIORITY < position a PRIORITY)%nat.
Proof.
  revert lo; induction l1 as [|b l1 IH]; intros lo H a Ha;
    cbn [priority_ordered_from app] in H.
  - apply andb_true_iff in H as [_ Hrest].
    destruct (priority_ordered_from_bounds _ _ Hrest a Ha). lia.
  - apply andb_true_iff in H as [_ Hrest]. eapply IH; eauto.
Qed.

Lemma priority_ordered_from_nodup lo actions :
  priority_ordered_from lo actions = true -> List.NoDup actions.
Proof.
  revert lo; induction actions as [|b rest IH]; intros lo H; [constructor|].
  cbn [priority_ordered_from] in H. apply andb_true_iff in H as [_ Hrest].
  constructor; [|eauto].
  intros Hb. destruct (priority_ordered_from_bounds _ _ Hrest b Hb). lia.
Qed.

Lemma priority_action_nonempty a : In a PRIORITY -> String.eqb a "" = false.
Proof.
  unfold PRIORITY. simpl. intros H.
  repeat (destruct H as [<-|H]; [reflexivity|]). destruct H.
Qed.

Lemma report_gap_line evs sel s best_ev :
  In (best_action sel, best_ev) evs ->
  second_best_action sel = Some s -> String.eqb s "" = false ->
  In (EvDiffLine (ev_diff sel) s) (report evs sel).
Proof.
  intros Hin Hs Hne. unfold report. apply in_or_app. left.
  apply in_flat_map. exists (best_action sel, best_ev). split; [exact Hin|].
  rewrite String.eqb_refl, Hs. simpl. rewrite Hne. simpl. auto.
Qed.

End Selection.

(** The selecting lines on any dict whose keys come in the fixed priority
    order (Stand, Hit, Double Down, Split): the best action has the
    greatest EV and, among the actions of that same EV, the first place in
    the priority order.  With two or more entries the runner-up is another
    action whose EV no action but the best exceeds, and the gap is best EV
    minus runner-up EV, printed in the report.  On a dict of one entry the
    [else 0] of line 457 applies. *)
Lemma select_best_ranked (evs : list (string * Q)) :
  (0 < length evs)%nat ->
  priority_ordered (map fst evs) = true ->
  exists sel best_ev,
    select_best evs = Ok sel /\
    In (best_action sel, best_ev) evs /\
    (forall a e, In (a, e) evs ->
       (e <= best_ev)%Q /\
       ((e == best_ev)%Q ->
        (position (best_action sel) PRIORITY <= position a PRIORITY)%nat)) /\
    ((2 <= length evs)%nat ->
     exists second second_ev,
       second_best_action sel = Some second /\
       second <> best_action sel /\
       In (second, second_ev) evs /\
       (forall a e, In (a, e) evs -> a <> best_action sel ->
                    (e <= second_ev)%Q) /\
       ev_diff sel = (best_ev - second_ev)%Q /\
       In (EvDiffLine (best_ev - second_ev)%Q second) (report evs sel)) /\
    (length evs = 1%nat ->
     second_best_action sel = None /\
     ev_diff sel = 0%Q /\
     report evs sel =
       [ActionLine (best_action sel) best_ev Green;
        OptimalLine (best_action sel)]).
Proof.
  intros Hlen Hord.
  pose proof (sorted_by_ev_desc_perm evs) as Hperm.
  pose proof (sorted_by_ev_desc_sorted evs) as Hsorted.
  unfold select_best.
  destruct (sorted_by_ev_desc evs) as [|[a0 e0] rest] eqn:Es.
  { apply Permutation_length in Hperm. simpl in Hperm. lia. }
  destruct (sorted_head_first_max _ _ _ Es)
    as (l1 & l2 & Hevs & Hbefore & Hafter).
  eexists _, e0. split; [reflexivity|].
  cbn [best_action second_best_action ev_diff].
  assert (Hbest : In (a0, e0) evs).
  { rewrite Hevs. apply in_or_app. right. now left. }
  split; [exact Hbest|]. split; [|split].
  - intros a e Hin. rewrite Hevs in Hin.
    apply in_app_or in Hin as [Hin|[Heq|Hin]].
    + specialize (Hbefore _ Hin). simpl in Hbefore. split.
      * now apply Qlt_le_weak.
      * intros Heq. rewrite Heq in Hbefore. now apply Qlt_irrefl in Hbefore.
    + injection Heq as <- <-. split; [apply Qle_refl|lia].
    + specialize (Hafter _ Hin). simpl in Hafter. split; [exact Hafter|].
      intros _. unfold priority_ordered in Hord.
      rewrite Hevs, map_app in Hord. simpl in Hord.
      apply Nat.lt_le_incl.
      apply (priority_ordered_from_later _ _ _ _ Hord a).
      apply in_map_iff. now exists (a, e).
  - intros H2. destruct rest as [|[a1 e1] rest2].
    { apply Permutation_length in Hperm. simpl in Hperm. lia. }
    assert (Hsecond : In (a1, e1) evs).
    { apply (Permutation_in _ Hperm). right. now left. }
    assert (Hnodup : List.NoDup (a0 :: a1 :: map fst rest2)).
    { apply (Permutation_NoDup (l:=map fst evs)).
      - change (a0 :: a1 :: map fst rest2)
          with (map fst ((a0, e0) :: (a1, e1) :: rest2)).
        apply Permutation_map. now symmetry.
      - now apply (priority_ordered_from_nodup 0). }
    assert (Hne : a1 <> a0).
    { inversion Hnodup as [|? ? Hnot _]; subst.
      intros ->. apply Hnot. now left. }
    exists a1, e1. split; [reflexivity|]. split; [exact Hne|].
    split; [exact Hsecond|]. split; [|split; [reflexivity|]].
    + intros a e Hin Ha.
      apply (Permutation_in _ (Permutation_sym Hperm)) in Hin.
      destruct Hin as [Heq|[Heq|Hin]].
      * injection Heq as <- <-. contradiction.
      * injection Heq as <- <-. apply Qle_refl.
      * inversion Hsorted as [|? ? Hs1 _]; subst.
        inversion Hs1 as [|? ? _ Hall]; subst.
        rewrite List.Forall_forall in Hall. apply (Hall _ Hin).
    + apply (report_gap_line evs
               {| best_action := a0; second_best_action := Some a1;
                  ev_diff := (e0 - e1)%Q |} a1 e0 Hbest eq_refl).
      apply priority_action_nonempty.
      apply (priority_ordered_from_bounds 0 (map fst evs) Hord).
      apply in_map_iff. now exists (a1, e1).
  - intros H1. destruct evs as [|[a e] [|? ?]]; try discriminate.
    simpl in Es. injection Es as <- <- <-.
    split; [reflexivity|]. split; [reflexivity|].
    unfold report. simpl. now rewrite String.eqb_refl.
Qed.

Example select_best_tie :
  select_best [("Stand"%string, (-1 # 2)%Q); ("Hit"%string, (1 # 4)%Q);
               ("Double Down"%string, (1 # 4)%Q)] =
    Ok {| best_action := "Hit"; second_best_action := Some "Double Down"%string;
          ev_diff := (1 # 4) - (1 # 4) |}.
Proof. reflexivity. Qed.

(** *** [get_player_action] feeds the selector the legal actions in order *)

Section PlayerAction.

Variable stream : nat -> nat.

Lemma legal_actions_priority player_cards is_first_turn is_split_hand :
  priority_ordered
    (legal_actions player_cards is_first_turn is_split_hand) = true /\
  (2 <= length (legal_actions player_cards is_first_turn is_split_hand))%nat.
Proof.
  unfold legal_actions.
  destruct is_first_turn, is_split_hand;
    destruct player_cards as [|c0 [|c1 [|c2 l]]]; simpl;
    try destruct (c0 =? c1); split; first [reflexivity | simpl; lia].
Qed.

Lemma dict_set_fresh k v (d : list (string * Q)) :
  ~ In k (map fst d) -> dict_set k v d = d ++ [(k, v)].
Proof.
  induction d as [|[k' v'] d IH]; simpl; intros Hk; [reflexivity|].
  destruct (String.eqb_spec k' k) as [->|Hne]; [tauto|].
  rewrite IH; tauto.
Qed.

Lemma evaluate_actions_keys player_cards dealer_card_val shoe_counts actions :
  forall evs0 pos evs pos',
    List.NoDup (map fst evs0 ++ actions) ->
    evaluate_actions stream player_cards dealer_card_val shoe_counts
      actions evs0 pos = Ok (evs, pos') ->
    map fst evs = map fst evs0 ++ actions.
Proof.
  induction actions as [|a actions IH]; intros evs0 pos evs pos' Hnd; simpl.
  - unfold ret. intros [= <- _]. now rewrite app_nil_r.
  - unfold bind.
    destruct (monte_carlo_ev _ _ _ _ _ _ pos) as [[[ev tr] pos1]|e];
      [|discriminate].
    intros Hrun.
    assert (Hfresh : ~ In a (map fst evs0)).
    { apply NoDup_remove_2 in Hnd. intros H. apply Hnd.
      apply in_or_app. now left. }
    rewrite (dict_set_fresh _ _ _ Hfresh) in Hrun.
    apply IH in Hrun.
    + rewrite Hrun, map_app. simpl. now rewrite <- app_assoc.
    + rewrite map_app. simpl. now rewrite <- app_assoc.
Qed.

(** What [get_player_action] returns is the selector's best action over
    the EVs of the legal actions, in their order. *)
Lemma get_player_action_selects player_cards dealer_card_val shoe_counts
    is_first_turn is_split_hand pos best lines pos' :
  get_player_action stream player_cards dealer_card_val shoe_counts
    is_first_turn is_split_hand pos = Ok ((best, lines), pos') ->
  exists evs sel,
    map fst evs = legal_actions player_cards is_first_turn is_split_hand /\
    priority_ordered (map fst evs) = true /\
    (2 <= length evs)%nat /\
    select_best evs = Ok sel /\
    best = best_action sel /\ lines = report evs sel.
Proof.
  unfold get_player_action. cbv zeta. unfold bind at 1.
  destruct (evaluate_actions _ _ _ _ _ _ pos) as [[evs pos1]|e] eqn:E;
    [|discriminate].
  unfold bind, lift. destruct (select_best evs) as [sel|e] eqn:Es;
    [|discriminate].
  unfold ret. intros [= <- <- _].
  destruct (legal_actions_priority player_cards is_first_turn is_split_hand)
    as [Hord Hlen].
  apply evaluate_actions_keys in E.
  - simpl in E. exists evs, sel. rewrite E.
    repeat split; try assumption.
    rewrite <- (length_map fst), E. exact Hlen.
  - simpl. now apply (priority_ordered_from_nodup 0).
Qed.

End PlayerAction.

(** ** The estimator on values reads the stream and nothing else *)

Section Determinism.

Variables s1 s2 : nat -> nat.
Hypothesis Hsame : same_stream s1 s2.

Lemma agree_refl {A} (m : M A) : agree m m.
Proof. intros pos. reflexivity. Qed.

Lemma bind_agree {A B} (m1 m2 : M A) (k1 k2 : A -> M B) :
  agree m1 m2 -> (forall a, agree (k1 a) (k2 a)) ->
  agree (bind m1 k1) (bind m2 k2).
Proof.
  intros Hm Hk pos. unfold bind. rewrite Hm.
  destruct (m2 pos) as [[a pos1]|e]; [apply Hk|reflexivity].
Qed.

Lemma choice_agree l : agree (choice s1 l) (choice s2 l).
Proof. intros pos. unfold choice. now rewrite Hsame. Qed.

Lemma dealer_loop_agree fuel :
  forall dealer_cards local_shoe,
    agree (dealer_loop s1 fuel dealer_cards local_shoe)
          (dealer_loop s2 fuel dealer_cards local_shoe).
Proof.
  induction fuel as [|fuel IH]; intros dealer_cards local_shoe; simpl.
  - apply agree_refl.
  - destruct (_ && _); [|apply agree_refl].
    apply bind_agree; [apply choice_agree|intros draw_val].
    apply bind_agree; [apply agree_refl|intros shoe2]. apply IH.
Qed.

Lemma simulate_dealer_hand_once_agree dealer_card_val shoe_list :
  agree (simulate_dealer_hand_once s1 dealer_card_val shoe_list)
        (simulate_dealer_hand_once s2 dealer_card_val shoe_list).
Proof.
  unfold simulate_dealer_hand_once, dealer_playout.
  apply bind_agree; [apply dealer_loop_agree|intros [cards shoe2]].
  apply agree_refl.
Qed.

Lemma play_out_loop_agree fuel :
  forall p_cards local_deck,
    agree (play_out_loop s1 fuel p_cards local_deck)
          (play_out_loop s2 fuel p_cards local_deck).
Proof.
  induction fuel as [|fuel IH]; intros p_cards local_deck; simpl.
  - apply agree_refl.
  - destruct (17 <=? _); [apply agree_refl|].
    destruct (py_not local_deck); [apply agree_refl|].
    apply bind_agree; [apply choice_agree|intros new_card_val].
    apply bind_agree; [apply agree_refl|intros deck2].
    destruct (BLACKJACK <? _); [apply agree_refl|apply IH].
Qed.

Lemma dealer_totals_loop_agree n dealer_card_val shoe_list :
  forall final_totals,
    agree (dealer_totals_loop s1 n dealer_card_val shoe_list final_totals)
          (dealer_totals_loop s2 n dealer_card_val shoe_list final_totals).
Proof.
  induction n as [|n IH]; intros final_totals; simpl; [apply agree_refl|].
  apply bind_agree; [apply simulate_dealer_hand_once_agree|intros t].
  apply IH.
Qed.

Lemma hit_trial_agree player_cards dealer_card_val shoe_counts :
  agree (hit_trial s1 player_cards dealer_card_val shoe_counts)
        (hit_trial s2 player_cards dealer_card_val shoe_counts).
Proof.
  unfold hit_trial, play_out_hand.
  apply bind_agree; [apply agree_refl|intros local_shoe].
  apply bind_agree; [apply play_out_loop_agree|intros [tmp_cards shoe2]].
  apply bind_agree; [apply simulate_dealer_hand_once_agree|intros d_total].
  apply agree_refl.
Qed.

Lemma double_trial_agree player_cards dealer_card_val shoe_counts :
  agree (double_trial s1 player_cards dealer_card_val shoe_counts)
        (double_trial s2 player_cards dealer_card_val shoe_counts).
Proof.
  unfold double_trial, double_draw.
  apply bind_agree; [apply agree_refl|intros local_shoe].
  apply bind_agree.
  - apply bind_agree; [|intros draw_val; apply agree_refl].
    destruct (py_not local_shoe); [apply agree_refl|apply choice_agree].
  - intros [draw_val shoe2].
    apply bind_agree; [apply simulate_dealer_hand_once_agree|intros d_total].
    apply agree_refl.
Qed.

Lemma split_sub_hand_agree split_card_val dealer_card_val local_shoe :
  agree (split_sub_hand s1 split_card_val dealer_card_val local_shoe)
        (split_sub_hand s2 split_card_val dealer_card_val local_shoe).
Proof.
  unfold split_sub_hand, play_out_hand.
  apply bind_agree; [apply choice_agree|intros new_card].
  apply bind_agree; [apply agree_refl|intros shoe2].
  apply bind_agree; [apply play_out_loop_agree|intros [sub_hand shoe3]].
  apply bind_agree; [apply simulate_dealer_hand_once_agree|intros d_final].
  apply agree_refl.
Qed.

Lemma split_trial_agree split_card_val dealer_card_val shoe_counts :
  agree (split_trial s1 split_card_val dealer_card_val shoe_counts)
        (split_trial s2 split_card_val dealer_card_val shoe_counts).
Proof.
  unfold split_trial.
  apply bind_agree; [apply agree_refl|intros local_shoe].
  destruct (2 <=? _)%nat; [|apply agree_refl].
  apply bind_agree; [apply agree_refl|intros shoe2].
  apply bind_agree; [apply agree_refl|intros shoe3].
  apply bind_agree; [apply split_sub_hand_agree|intros [result_1 shoe4]].
  apply bind_agree; [apply split_sub_hand_agree|intros [result_2 shoe5]].
  apply agree_refl.
Qed.

Lemma trials_loop_agree n (t1 t2 : M Z) :
  agree t1 t2 ->
  forall ev_chunk, agree (trials_loop n t1 ev_chunk) (trials_loop n t2 ev_chunk).
Proof.
  intros Ht. induction n as [|n IH]; intros ev_chunk; simpl;
    [apply agree_refl|].
  apply bind_agree; [exact Ht|intros x]. apply IH.
Qed.

Lemma checkpoint_loop_agree (c1 c2 : M Z) chunk_size todo :
  agree c1 c2 ->
  forall i ev means,
    agree (checkpoint_loop c1 chunk_size todo i ev means)
          (checkpoint_loop c2 chunk_size todo i ev means).
Proof.
  intros Hc. induction todo as [|todo IH]; intros i ev means; simpl;
    [apply agree_refl|].
  apply bind_agree; [exact Hc|intros ev_chunk].
  apply bind_agree; [apply agree_refl|intros mean]. apply IH.
Qed.

Lemma split_loop_agree (c1 c2 : M Z) todo :
  agree c1 c2 ->
  forall acc, agree (split_loop c1 todo acc) (split_loop c2 todo acc).
Proof.
  intros Hc. induction todo as [|todo IH]; intros acc; simpl;
    [apply agree_refl|].
  apply bind_agree; [exact Hc|intros ev_chunk]. apply IH.
Qed.

Lemma monte_carlo_ev_agree player_cards dealer_card_val shoe_counts action
    simulations :
  agree (monte_carlo_ev s1 player_cards dealer_card_val shoe_counts action
           simulations)
        (monte_carlo_ev s2 player_cards dealer_card_val shoe_counts action
           simulations).
Proof.
  unfold monte_carlo_ev. cbv zeta.
  apply bind_agree; [|intros [ev means]; apply agree_refl].
  destruct (String.eqb action "Stand").
  { apply bind_agree; [|intros [ev means]; apply agree_refl].
    apply checkpoint_loop_agree.
    apply bind_agree; [|intros totals; apply agree_refl].
    unfold simulate_dealer_hands.
    apply bind_agree; [apply agree_refl|intros shoe_list].
    apply dealer_totals_loop_agree. }
  destruct (String.eqb action "Hit").
  { apply bind_agree; [|intros [ev means]; apply agree_refl].
    apply checkpoint_loop_agree, trials_loop_agree, hit_trial_agree. }
  destruct (String.eqb action "Double Down").
  { apply bind_agree; [|intros [ev means]; apply agree_refl].
    apply checkpoint_loop_agree, trials_loop_agree, double_trial_agree. }
  destruct (String.eqb action "Split"); [|apply agree_refl].
  apply bind_agree; [apply agree_refl|intros split_card_val].
  apply bind_agree; [|intros acc; apply agree_refl].
  apply split_loop_agree, trials_loop_agree, split_trial_agree.
Qed.

End Determinism.

(** * Further properties of the code *)

(** ** Comparing totals *)

Lemma settle_compare bet p_total d_total :
  settle bet p_total d_total = bet * compare_final_totals p_total d_total.
Proof.
  unfold settle, compare_final_totals.
  destruct (BLACKJACK <? p_total); [lia|].
  destruct (BLACKJACK <? d_total); simpl; [lia|].
  destruct (d_total <? p_total); [lia|].
  destruct (p_total <? d_total); lia.
Qed.

Lemma compare_final_totals_range p d :
  -1 <= compare_final_totals p d <= 1.
Proof.
  unfold compare_final_totals.
  repeat match goal with |- context [if ?b then _ else _] => destruct b end;
    lia.
Qed.

(** X1. [compare_final_totals] returns -1, 0 or 1; a player over 21 loses
    even against a dealer over 21; between two totals of at most 21 it is
    antisymmetric, and 0 exactly on equal totals. *)
Theorem compare_final_totals_outcomes (player_total dealer_total : Z) :
  (compare_final_totals player_total dealer_total = -1 \/
   compare_final_totals player_total dealer_total = 0 \/
   compare_final_totals player_total dealer_total = 1) /\
  (BLACKJACK < player_total ->
   compare_final_totals player_total dealer_total = -1) /\
  (player_total <= BLACKJACK -> dealer_total <= BLACKJACK ->
   compare_final_totals dealer_total player_total =
     - compare_final_totals player_total dealer_total /\
   (compare_final_totals player_total dealer_total = 0 <->
    player_total = dealer_total)).
Proof.
  unfold compare_final_totals, BLACKJACK. split; [|split].
  - repeat match goal with |- context [if ?b then _ else _] => destruct b end;
      auto.
  - intros H. destruct (Z.ltb_spec 21 player_total); [reflexivity|lia].
  - intros Hp Hd.
    destruct (Z.ltb_spec 21 player_total); [lia|].
    destruct (Z.ltb_spec 21 dealer_total); [lia|].
    destruct (Z.ltb_spec dealer_total player_total);
      destruct (Z.ltb_spec player_total dealer_total);
      split; try lia; split; intros; lia.
Qed.

Lemma compare_final_totals_outcomes_witness :
  compare_final_totals 22 25 = -1.
Proof.
  apply (compare_final_totals_outcomes 22 25). unfold BLACKJACK. lia.
Defined.

(** X2. The comparisons written inline at the end of a Hit and of a Double
    Down trial agree with [compare_final_totals]: a Hit trial adds its
    value, a Double Down trial twice its value. *)
Theorem inline_comparisons_agree (p_total d_total : Z) :
  settle 1 p_total d_total = compare_final_totals p_total d_total /\
  settle 2 p_total d_total = 2 * compare_final_totals p_total d_total.
Proof.
  rewrite !settle_compare. split; lia.
Qed.

(** ** Scoring a standing hand *)

Lemma py_sum_lower_bound cards :
  Forall (fun c => 1 <= c) cards ->
  10 * Z.of_nat (py_count 11 cards) + Z.of_nat (length cards) <= py_sum cards.
Proof.
  induction 1 as [|c cs Hc _ IH]; [reflexivity|].
  unfold py_sum in *. cbn [foldr py_count length].
  destruct (Z.eqb_spec c 11); lia.
Qed.

Lemma soft_hand_total cards :
  Forall (fun c => 1 <= c) cards -> is_soft_hand cards = true ->
  10 + Z.of_nat (length cards) <= hand_value cards.
Proof.
  intros Hall Hsoft.
  destruct (hand_value_reduction cards) as (k & _ & Hv & Hs).
  rewrite Hs in Hsoft. apply Nat.ltb_lt in Hsoft.
  pose proof (py_sum_lower_bound cards Hall). lia.
Qed.

Lemma stand_payoff_compare player_t is_soft d_total :
  is_soft = false \/ 11 < player_t ->
  stand_payoff player_t is_soft d_total =
    compare_final_totals player_t d_total.
Proof.
  intros H. unfold stand_payoff, stand_like_step, compare_final_totals.
  destruct (BLACKJACK <? player_t); [reflexivity|].
  destruct (BLACKJACK <? d_total); [reflexivity|].
  destruct is_soft; [|reflexivity].
  destruct H as [H|H]; [discriminate|].
  destruct (Z.leb_spec player_t 11); [lia|].
  now rewrite Z.max_id.
Qed.

(** X3. For a hand of at least two cards, each worth at least 1,
    [process_results_for_stand_like] is the sum over the dealer totals of
    [compare_final_totals]: the branch for soft hands, which would add 10 to
    a total of 11 or less, never changes a result, because a soft hand of
    two cards or more totals at least 12.  The result lies between minus and
    plus the number of dealer totals. *)
Theorem stand_like_soft_branch_inert (cards dealer_totals_list : list Z) :
  Forall (fun c => 1 <= c) cards ->
  (2 <= length cards)%nat ->
  process_results_for_stand_like (hand_value cards) dealer_totals_list
    (is_soft_hand cards) =
    py_sum (map (compare_final_totals (hand_value cards)) dealer_totals_list)
  /\
  - Z.of_nat (length dealer_totals_list) <=
    process_results_for_stand_like (hand_value cards) dealer_totals_list
      (is_soft_hand cards) <= Z.of_nat (length dealer_totals_list).
Proof.
  intros Hall Hlen.
  assert (Heq : process_results_for_stand_like (hand_value cards)
                  dealer_totals_list (is_soft_hand cards) =
                py_sum (map (compare_final_totals (hand_value cards))
                          dealer_totals_list)).
  { rewrite process_results_sum. f_equal. apply map_ext. intros d.
    apply stand_payoff_compare.
    destruct (is_soft_hand cards) eqn:Hs; [right|now left].
    pose proof (soft_hand_total cards Hall Hs). lia. }
  split; [exact Heq|]. rewrite Heq. clear Heq.
  induction dealer_totals_list as [|d ds IH]; [simpl; unfold py_sum; simpl; lia|].
  pose proof (compare_final_totals_range (hand_value cards) d).
  unfold py_sum in *. cbn [map foldr length]. lia.
Qed.

Lemma stand_like_soft_branch_inert_witness :
  process_results_for_stand_like (hand_value [11; 6]) [17; 22; 19]
    (is_soft_hand [11; 6]) =
    py_sum (map (compare_final_totals (hand_value [11; 6])) [17; 22; 19]).
Proof.
  apply (stand_like_soft_branch_inert [11; 6] [17; 22; 19]).
  - repeat constructor; lia.
  - simpl. lia.
Defined.

(** ** The shoe: initial counts, totals and the built list *)

Section ShoeContents.

Implicit Types (shoe : gmap string Z) (rank : string).

Lemma all_ranks_nodup : List.NoDup ALL_RANKS.
Proof.
  unfold ALL_RANKS.
  repeat (constructor; [simpl; intuition discriminate|]). constructor.
Qed.

Lemma rank_value_total rank :
  In rank ALL_RANKS ->
  exists v, RANK_TO_VALUE !! rank = Some v /\ 2 <= v <= 11.
Proof.
  unfold ALL_RANKS. simpl.
  intros H; repeat (destruct H as [<-|H]); try contradiction;
    eexists; (split; [vm_compute; reflexivity|lia]).
Qed.

Lemma is_rank_In rank : is_rank rank = true <-> In rank ALL_RANKS.
Proof.
  unfold is_rank. rewrite existsb_exists. split.
  - intros (r & Hr & Heq). apply String.eqb_eq in Heq. now subst.
  - intros H. exists rank. split; [exact H|apply String.eqb_refl].
Qed.

Lemma foldl_insert_lookup (v : Z) ranks shoe rank :
  foldl (fun m r => <[r := v]> m) shoe ranks !! rank =
    if existsb (String.eqb rank) ranks then Some v else shoe !! rank.
Proof.
  revert shoe; induction ranks as [|r ranks IH]; intros shoe; simpl;
    [reflexivity|].
  rewrite IH. destruct (existsb (String.eqb rank) ranks).
  - now rewrite orb_true_r.
  - rewrite orb_false_r. destruct (String.eqb_spec rank r) as [->|Hne].
    + apply lookup_insert_eq.
    + apply lookup_insert_ne. congruence.
Qed.

Lemma py_sum_values_insert_fresh shoe rank (count : Z) :
  shoe !! rank = None ->
  py_sum_values (<[rank := count]> shoe) = count + py_sum_values shoe.
Proof.
  intros H. unfold py_sum_values.
  apply (map_fold_insert_L (fun _ c acc => c + acc)); [|exact H].
  intros; lia.
Qed.

Lemma py_sum_values_delete shoe rank (count : Z) :
  shoe !! rank = Some count ->
  py_sum_values shoe = count + py_sum_values (delete rank shoe).
Proof.
  intros H. unfold py_sum_values.
  apply (map_fold_delete_L (fun _ c acc => c + acc)); [|exact H].
  intros; lia.
Qed.

Lemma py_sum_values_update shoe rank (count count' : Z) :
  shoe !! rank = Some count ->
  py_sum_values (<[rank := count']> shoe) =
    py_sum_values shoe - count + count'.
Proof.
  intros H. rewrite (py_sum_values_delete _ _ _ H).
  rewrite <- insert_delete_eq.
  rewrite py_sum_values_insert_fresh by apply lookup_delete_eq. lia.
Qed.

Lemma foldl_insert_sum (v : Z) ranks :
  List.NoDup ranks ->
  forall shoe,
    (forall r, In r ranks -> shoe !! r = None) ->
    py_sum_values (foldl (fun m r => <[r := v]> m) shoe ranks) =
      py_sum_values shoe + v * Z.of_nat (length ranks).
Proof.
  induction 1 as [|r ranks Hr Hnd IH]; intros shoe Hfresh; simpl; [lia|].
  rewrite IH.
  - rewrite py_sum_values_insert_fresh by (apply Hfresh; now left). lia.
  - intros r' Hr'. rewrite lookup_insert_ne; [apply Hfresh; now right|].
    intros ->. contradiction.
Qed.

(** The list built from a shoe that holds the ranks asked for: the blocks
    of the ranks, in order. *)
Lemma build_shoe_from_blocks shoe ranks :
  forall cards_list,
    (forall r, In r ranks -> In r ALL_RANKS /\ is_Some (shoe !! r)) ->
    build_shoe_from ranks shoe cards_list =
      Ok (cards_list ++ flat_map (rank_block shoe) ranks).
Proof.
  induction ranks as [|r ranks IH]; intros cards_list Hall; simpl.
  - now rewrite app_nil_r.
  - destruct (Hall r (or_introl eq_refl)) as [Hin [count Hc]].
    destruct (rank_value_total r Hin) as (v & Hv & _).
    rewrite Hc, Hv.
    rewrite IH by (intros r' Hr'; apply Hall; now right).
    assert (Hblock : rank_block shoe r = replicate (Z.to_nat count) v)
      by (unfold rank_block; now rewrite Hc, Hv).
    rewrite Hblock. destruct (Z.ltb_spec 0 count).
    + now rewrite <- app_assoc.
    + now replace (Z.to_nat count) with O by lia.
Qed.

Lemma build_shoe_from_missing shoe ranks :
  forall cards_list,
    (forall r, In r ranks -> In r ALL_RANKS) ->
    (exists r, In r ranks /\ shoe !! r = None) ->
    build_shoe_from ranks shoe cards_list = Err KeyError.
Proof.
  induction ranks as [|r ranks IH]; intros cards_list Hsub (r0 & Hr0 & Hnone);
    [destruct Hr0|]. simpl.
  destruct (shoe !! r) as [count|] eqn:Hc; [|reflexivity].
  destruct (rank_value_total r (Hsub r (or_introl eq_refl))) as (v & Hv & _).
  rewrite Hv. apply IH.
  - intros r' Hr'. apply Hsub. now right.
  - destruct Hr0 as [->|Hr0]; [congruence|]. now exists r0.
Qed.

Lemma build_shoe_list_blocks shoe :
  shoe_complete shoe ->
  build_shoe_list shoe = Ok (flat_map (rank_block shoe) ALL_RANKS).
Proof.
  intros Hc. unfold build_shoe_list.
  now rewrite build_shoe_from_blocks by (intros r Hr; split; auto).
Qed.

Lemma py_count_replicate v n w :
  py_count v (replicate n w) = if w =? v then n else O.
Proof.
  induction n as [|n IH]; simpl; [now destruct (w =? v)|].
  rewrite IH. now destruct (w =? v).
Qed.

Lemma py_count_flat_map {A} v (f : A -> list Z) l :
  py_count v (flat_map f l) =
    foldr (fun a acc => (py_count v (f a) + acc)%nat) O l.
Proof.
  induction l as [|a l IH]; simpl; [reflexivity|].
  now rewrite py_count_app, IH.
Qed.

Lemma length_flat_map {A} (f : A -> list Z) l :
  length (flat_map f l) = foldr (fun a acc => (length (f a) + acc)%nat) O l.
Proof.
  induction l as [|a l IH]; simpl; [reflexivity|].
  now rewrite length_app, IH.
Qed.

Lemma rank_block_values shoe rank :
  In rank ALL_RANKS -> Forall (fun c => 2 <= c <= 11) (rank_block shoe rank).
Proof.
  intros Hin. unfold rank_block.
  destruct (shoe !! rank) as [count|]; [|constructor].
  destruct (rank_value_total rank Hin) as (v & -> & Hv).
  apply Forall_forall. intros c Hc.
  apply elem_of_replicate_inv in Hc. now subst.
Qed.

(** One card fewer in one rank's block, the other blocks as they were: the
    whole list has lost one card of that value. *)
Lemma flat_map_one_less (f f' : string -> list Z) (v : Z) rank ranks :
  List.NoDup ranks -> In rank ranks ->
  (forall r, r <> rank -> f' r = f r) ->
  f rank = v :: f' rank ->
  Permutation (v :: flat_map f' ranks) (flat_map f ranks).
Proof.
  intros Hnd Hin Hother Hrank.
  induction Hnd as [|r ranks Hr Hnd IH]; [destruct Hin|]. simpl.
  destruct (String.eqb_spec r rank) as [->|Hne].
  - rewrite Hrank. simpl. do 2 f_equiv.
    clear IH Hin. induction ranks as [|r' ranks IH]; [reflexivity|].
    simpl. rewrite Hother, IH.
    + reflexivity.
    + intros H. apply Hr. now right.
    + now inversion Hnd.
    + intros ->. apply Hr. now left.
  - destruct Hin as [Heq|Hin]; [contradiction|].
    rewrite (Hother r Hne). rewrite <- (IH Hin).
    now rewrite Permutation_middle.
Qed.

End ShoeContents.

Section ShoeTheorems.

Implicit Types (shoe : gmap string Z) (rank : string).

Lemma rank_block_count shoe rank v :
  In rank ALL_RANKS ->
  py_count v (rank_block shoe rank) =
    if bool_decide (RANK_TO_VALUE !! rank = Some v)
    then count_of shoe rank else O.
Proof.
  intros Hin. destruct (rank_value_total rank Hin) as (w & Hw & _).
  unfold rank_block, count_of. rewrite Hw.
  destruct (shoe !! rank) as [count|]; simpl.
  - rewrite py_count_replicate.
    destruct (Z.eqb_spec w v) as [->|Hne].
    + now rewrite bool_decide_eq_true_2.
    + rewrite bool_decide_eq_false_2; [reflexivity|congruence].
  - now destruct (bool_decide _).
Qed.

Lemma rank_block_length shoe rank :
  In rank ALL_RANKS -> length (rank_block shoe rank) = count_of shoe rank.
Proof.
  intros Hin. destruct (rank_value_total rank Hin) as (w & Hw & _).
  unfold rank_block, count_of. rewrite Hw.
  destruct (shoe !! rank) as [count|]; simpl; [apply length_replicate|].
  reflexivity.
Qed.

Lemma foldr_add_ext {A} (f g : A -> nat) l :
  (forall a, In a l -> f a = g a) ->
  foldr (fun a acc => (f a + acc)%nat) O l =
  foldr (fun a acc => (g a + acc)%nat) O l.
Proof.
  induction l as [|a l IH]; intros H; simpl; [reflexivity|].
  rewrite H by now left. rewrite IH; [reflexivity|].
  intros; apply H; now right.
Qed.

(** What the built list holds, in terms of the counts. *)
Lemma build_shoe_list_holds shoe :
  shoe_complete shoe ->
  exists cards_list,
    build_shoe_list shoe = Ok cards_list /\
    length cards_list = cards_in_shoe shoe /\
    (forall v, py_count v cards_list = copies_of_value shoe v) /\
    Forall (fun c => 2 <= c <= 11) cards_list.
Proof.
  intros Hc. eexists. split; [now apply build_shoe_list_blocks|].
  split; [|split].
  - rewrite length_flat_map. apply foldr_add_ext.
    intros r Hr. now apply rank_block_length.
  - intros v. rewrite py_count_flat_map.
    apply (foldr_add_ext (fun r => py_count v (rank_block shoe r))).
    intros r Hr. now apply rank_block_count.
  - apply Forall_flat_map, Forall_forall. intros r Hr.
    apply rank_block_values. now apply list_elem_of_In.
Qed.

Lemma initialize_lookup (num_decks : Z) rank :
  initialize_shoe_counts num_decks !! rank =
    if is_rank rank then Some (4 * num_decks) else None.
Proof.
  unfold initialize_shoe_counts, is_rank.
  now rewrite foldl_insert_lookup, lookup_empty.
Qed.

Lemma initialize_total (num_decks : Z) :
  py_sum_values (initialize_shoe_counts num_decks) = 52 * num_decks.
Proof.
  unfold initialize_shoe_counts. rewrite foldl_insert_sum.
  - unfold py_sum_values. rewrite map_fold_empty. simpl. lia.
  - apply all_ranks_nodup.
  - intros; apply lookup_empty.
Qed.

(** X4. A shoe initialised for [num_decks] decks holds [4 * num_decks] of
    each of the 13 ranks and nothing else, [52 * num_decks] in total; the
    list built from it has one entry per card. *)
Theorem initialize_shoe_counts_contents (num_decks : Z) :
  (forall rank,
     initialize_shoe_counts num_decks !! rank =
       if is_rank rank then Some (4 * num_decks) else None) /\
  py_sum_values (initialize_shoe_counts num_decks) = 52 * num_decks /\
  exists cards_list,
    build_shoe_list (initialize_shoe_counts num_decks) = Ok cards_list /\
    length cards_list = Z.to_nat (52 * num_decks).
Proof.
  pose proof (initialize_lookup num_decks) as Hlook.
  split; [exact Hlook|]. split; [apply initialize_total|].
  - assert (Hc : shoe_complete (initialize_shoe_counts num_decks)).
    { intros r Hr. rewrite Hlook.
      apply is_rank_In in Hr. rewrite Hr. eauto. }
    destruct (build_shoe_list_holds _ Hc) as (l & Hb & Hlen & _).
    exists l. split; [exact Hb|]. rewrite Hlen. unfold cards_in_shoe.
    rewrite (foldr_add_ext _ (fun _ => Z.to_nat (4 * num_decks))).
    + simpl. lia.
    + intros r Hr. unfold count_of. rewrite Hlook.
      apply is_rank_In in Hr. now rewrite Hr.
Qed.

(** X5. From a shoe that holds all 13 ranks, [build_shoe_list] returns a
    list with one entry per remaining card: as long as the counts add up
    to, and for every value as many entries as the ranks of that value have
    copies (the four ten-valued ranks together under 10); a count below 1
    contributes nothing, and every entry lies between 2 and 11.  From a shoe
    that lacks a rank it raises [KeyError]. *)
Theorem build_shoe_list_contents (shoe_counts : gmap string Z) :
  (shoe_complete shoe_counts ->
   exists cards_list,
     build_shoe_list shoe_counts = Ok cards_list /\
     length cards_list = cards_in_shoe shoe_counts /\
     (forall v, py_count v cards_list = copies_of_value shoe_counts v) /\
     py_count 10 cards_list =
       (count_of shoe_counts "T" + count_of shoe_counts "J" +
        count_of shoe_counts "Q" + count_of shoe_counts "K")%nat /\
     py_count 11 cards_list = count_of shoe_counts "A" /\
     Forall (fun c => 2 <= c <= 11) cards_list) /\
  ((exists rank, In rank ALL_RANKS /\ shoe_counts !! rank = None) ->
   build_shoe_list shoe_counts = Err KeyError).
Proof.
  split.
  - intros Hc.
    destruct (build_shoe_list_holds _ Hc) as (l & Hb & Hlen & Hcount & Hval).
    exists l. repeat (split; [assumption|]).
    split; [|split; [|assumption]].
    + rewrite Hcount. unfold copies_of_value, ALL_RANKS. cbn [foldr].
      repeat match goal with
             | |- context [bool_decide ?P] =>
                 let b := eval vm_compute in (bool_decide P) in
                 change (bool_decide P) with b
             end.
      cbv beta iota. lia.
    + rewrite Hcount. unfold copies_of_value, ALL_RANKS. cbn [foldr].
      repeat match goal with
             | |- context [bool_decide ?P] =>
                 let b := eval vm_compute in (bool_decide P) in
                 change (bool_decide P) with b
             end.
      cbv beta iota. lia.
  - intros Hmiss. unfold build_shoe_list.
    apply build_shoe_from_missing; [auto|exact Hmiss].
Qed.

Lemma remove_card_effect (st st' : shoe_state) rank :
  remove_card_from_shoe st rank = (st', Ok tt) ->
  exists count,
    shoe_counts_of st !! rank = Some count /\ 0 < count /\
    shoe_counts_of st' = <[rank := count - 1]> (shoe_counts_of st) /\
    running_count st' = (running_count st + count_weight rank)%Q.
Proof.
  unfold remove_card_from_shoe, count_weight.
  destruct (shoe_counts_of st !! rank) as [count|]; [|discriminate].
  destruct (Z.ltb_spec 0 count); [|discriminate].
  destruct (COUNTING_SYSTEM !! rank) as [w|]; [|discriminate].
  intros [= <-]. exists count. auto.
Qed.

Lemma complete_after_insert shoe rank (count : Z) :
  shoe_complete shoe -> shoe_complete (<[rank := count]> shoe).
Proof.
  intros Hc r Hr. rewrite lookup_insert. case_decide; eauto.
Qed.

(** X6. Removing a card of a rank from a complete shoe and building the
    list again gives the list built before less one card of the rank's
    value, as multisets; the sum of the counts goes down by 1. *)
Theorem remove_then_build (st : shoe_state) rank (count v : Z) :
  In rank ALL_RANKS ->
  shoe_complete (shoe_counts_of st) ->
  shoe_counts_of st !! rank = Some count -> 0 < count ->
  RANK_TO_VALUE !! rank = Some v ->
  exists st' built built',
    remove_card_from_shoe st rank = (st', Ok tt) /\
    build_shoe_list (shoe_counts_of st) = Ok built /\
    build_shoe_list (shoe_counts_of st') = Ok built' /\
    Permutation (v :: built') built /\
    py_sum_values (shoe_counts_of st') =
      py_sum_values (shoe_counts_of st) - 1.
Proof.
  intros Hin Hc Hcount Hpos Hv.
  destruct (remove_card_success st rank count Hin Hcount Hpos) as [w Hw].
  eexists _, _, _. split; [exact Hw|]. cbn [shoe_counts_of].
  split; [now apply build_shoe_list_blocks|].
  split; [now apply build_shoe_list_blocks, complete_after_insert|].
  split.
  - apply (flat_map_one_less _ _ v rank);
      [apply all_ranks_nodup|exact Hin| |].
    + intros r Hr. unfold rank_block. rewrite lookup_insert_ne; congruence.
    + unfold rank_block. rewrite lookup_insert_eq, Hcount, Hv.
      replace (Z.to_nat count) with (S (Z.to_nat (count - 1))) by lia.
      reflexivity.
  - rewrite (py_sum_values_update _ _ _ _ Hcount). lia.
Qed.

Lemma initial_shoe_complete (num_decks : Z) :
  shoe_complete (initialize_shoe_counts num_decks).
Proof.
  intros r Hr. unfold initialize_shoe_counts.
  rewrite foldl_insert_lookup. apply is_rank_In in Hr.
  unfold is_rank in Hr. rewrite Hr. eauto.
Qed.

Lemma build_shoe_list_contents_witness :
  (exists cards_list,
     build_shoe_list (initialize_shoe_counts 1) = Ok cards_list /\
     length cards_list = cards_in_shoe (initialize_shoe_counts 1) /\
     (forall v,
        py_count v cards_list =
          copies_of_value (initialize_shoe_counts 1) v) /\
     py_count 10 cards_list =
       (count_of (initialize_shoe_counts 1) "T" +
        count_of (initialize_shoe_counts 1) "J" +
        count_of (initialize_shoe_counts 1) "Q" +
        count_of (initialize_shoe_counts 1) "K")%nat /\
     py_count 11 cards_list = count_of (initialize_shoe_counts 1) "A" /\
     Forall (fun c => 2 <= c <= 11) cards_list) /\
  build_shoe_list (delete "A"%string (initialize_shoe_counts 1)) =
    Err KeyError.
Proof.
  split.
  - exact (proj1 (build_shoe_list_contents (initialize_shoe_counts 1))
             (initial_shoe_complete 1)).
  - apply (proj2 (build_shoe_list_contents
                    (delete "A"%string (initialize_shoe_counts 1)))).
    exists "A"%string. split.
    + unfold ALL_RANKS. simpl. tauto.
    + apply lookup_delete_eq.
Defined.

Lemma remove_then_build_witness :
  exists st' built built',
    remove_card_from_shoe (ShoeState (initialize_shoe_counts 1) 0) "K" =
      (st', Ok tt) /\
    build_shoe_list (initialize_shoe_counts 1) = Ok built /\
    build_shoe_list (shoe_counts_of st') = Ok built' /\
    Permutation (10 :: built') built /\
    py_sum_values (shoe_counts_of st') =
      py_sum_values (initialize_shoe_counts 1) - 1.
Proof.
  apply (remove_then_build (ShoeState (initialize_shoe_counts 1) 0) "K" 4 10).
  - simpl. tauto.
  - apply initial_shoe_complete.
  - reflexivity.
  - lia.
  - reflexivity.
Defined.

Lemma remove_listed_ok (st st' : shoe_state) (cards : list string) :
  remove_listed st cards = (st', Ok tt) ->
  Forall (fun c => In c ALL_RANKS) cards /\
  py_sum_values (shoe_counts_of st') =
    py_sum_values (shoe_counts_of st) - Z.of_nat (length cards) /\
  running_count st' =
    foldl (fun rc c => (rc + count_weight c)%Q) (running_count st) cards.
Proof.
  revert st; induction cards as [|c cards IH]; intros st; simpl.
  - intros [= <-]. split; [constructor|]. split; [lia|reflexivity].
  - destruct (is_rank c) eqn:Hrank; [|discriminate].
    destruct (remove_card_from_shoe st c) as [st1 [[]|e]] eqn:Hrem;
      [|discriminate].
    intros Hrest. destruct (IH _ Hrest) as (Hall & Hsum & Hrc).
    destruct (remove_card_effect _ _ _ Hrem) as (count & Hc & Hpos & Hs & Hr).
    split; [constructor; [now apply is_rank_In|exact Hall]|]. split.
    + rewrite Hsum, Hs, (py_sum_values_update _ _ _ _ Hc). lia.
    + now rewrite Hrc, Hr.
Qed.

Lemma remove_listed_fail (st st' : shoe_state) (cards : list string) :
  remove_listed st cards = (st', Err ValueError) ->
  exists done bad rest,
    cards = done ++ bad :: rest /\
    remove_listed st done = (st', Ok tt) /\
    (is_rank bad = false \/
     exists count, shoe_counts_of st' !! bad = Some count /\ count <= 0).
Proof.
  revert st; induction cards as [|c cards IH]; intros st; simpl;
    [discriminate|].
  destruct (is_rank c) eqn:Hrank.
  - destruct (remove_card_from_shoe st c) as [st1 [[]|e]] eqn:Hrem.
    + intros Hrest.
      destruct (IH _ Hrest) as (done & bad & rest & -> & Hd & Hbad).
      exists (c :: done), bad, rest. split; [reflexivity|].
      simpl. rewrite Hrank, Hrem. now split.
    + intros [= <- ->]. exists [], c, cards. split; [reflexivity|].
      revert Hrem. unfold remove_card_from_shoe.
      destruct (shoe_counts_of st !! c) as [count|] eqn:Hc; [|discriminate].
      destruct (Z.ltb_spec 0 count).
      * destruct (COUNTING_SYSTEM !! c); discriminate.
      * intros [= <-]. split; [reflexivity|]. right. eauto.
  - intros [= <-]. exists [], c, cards. split; [reflexivity|].
    split; [reflexivity|now left].
Qed.

(** X7. When a removal loop of [main] gets through a whole input, every
    character was a rank, the counts add up to as many cards fewer as the
    input has characters, and the running count has gained the weight of
    each card in turn. *)
Theorem remove_listed_totals (st st' : shoe_state) (cards : list string) :
  remove_listed st cards = (st', Ok tt) ->
  Forall (fun c => In c ALL_RANKS) cards /\
  py_sum_values (shoe_counts_of st') =
    py_sum_values (shoe_counts_of st) - Z.of_nat (length cards) /\
  running_count st' =
    foldl (fun rc c => (rc + count_weight c)%Q) (running_count st) cards.
Proof. apply remove_listed_ok. Qed.

Lemma remove_listed_totals_witness :
  exists st',
    remove_listed (ShoeState (initialize_shoe_counts 1) 0)
      (py_chars "T5") = (st', Ok tt) /\
    py_sum_values (shoe_counts_of st') =
      py_sum_values (initialize_shoe_counts 1) - 2.
Proof.
  eexists. split; [vm_compute; reflexivity|].
  refine (proj1 (proj2 (remove_listed_totals
            (ShoeState (initialize_shoe_counts 1) 0) _ (py_chars "T5") _))).
  vm_compute; reflexivity.
Defined.

(** X8. When a removal loop of [main] stops on [ValueError] (a character
    that is no rank, or a rank with no copy left), the cards before the
    offending one have been removed.  The handler then puts the backup dict
    back, whatever it is, but the running count stays as those removals
    left it. *)
Theorem failed_batch_rollback (st st' : shoe_state) (cards : list string)
    (backup : gmap string Z) :
  remove_listed st cards = (st', Err ValueError) ->
  exists done bad rest,
    cards = done ++ bad :: rest /\
    remove_listed st done = (st', Ok tt) /\
    (is_rank bad = false \/
     exists count, shoe_counts_of st' !! bad = Some count /\ count <= 0) /\
    restore_backup backup (remove_listed st cards) =
      (ShoeState backup
         (foldl (fun rc c => (rc + count_weight c)%Q) (running_count st)
            done),
       Ok tt).
Proof.
  intros Hfail.
  destruct (remove_listed_fail _ _ _ Hfail)
    as (done & bad & rest & Hsplit & Hdone & Hbad).
  exists done, bad, rest. repeat (split; [assumption|]).
  rewrite Hfail. simpl.
  destruct (remove_listed_ok _ _ _ Hdone) as (_ & _ & Hrc).
  now rewrite Hrc.
Qed.

Lemma failed_batch_rollback_witness :
  exists st' done bad rest,
    remove_listed (ShoeState (initialize_shoe_counts 1) 0)
      (py_chars "T5X") = (st', Err ValueError) /\
    py_chars "T5X" = done ++ bad :: rest /\
    remove_listed (ShoeState (initialize_shoe_counts 1) 0) done =
      (st', Ok tt).
Proof.
  eexists.
  assert (H : remove_listed (ShoeState (initialize_shoe_counts 1) 0)
                (py_chars "T5X") = (_, Err ValueError))
    by (vm_compute; reflexivity).
  destruct (failed_batch_rollback _ _ _ (initialize_shoe_counts 1) H)
    as (done & bad & rest & H1 & H2 & _).
  exists done, bad, rest. split; [exact H|]. now split.
Defined.

End ShoeTheorems.

(** ** Insurance *)

Section Insurance.




(** The sign of the rounded insurance EV for every pair of counts a shoe
    of [NUM_DECKS] decks can show: positive where the ten-valued cards are
    more than a third, negative everywhere else. *)
Lemma insurance_sign_table :
  forallb
    (fun total =>
       forallb
         (fun tens =>
            let ev :=
              PrimFloat.sub
                (PrimFloat.mul
                   (PrimFloat.div (Binary64.float_of_int (Z.of_nat tens))
                      (Binary64.float_of_int (Z.of_nat total)))
                   (Binary64.float_of_int 2))
                (PrimFloat.sub (Binary64.float_of_int 1)
                   (PrimFloat.div (Binary64.float_of_int (Z.of_nat tens))
                      (Binary64.float_of_int (Z.of_nat total)))) in
            Bool.eqb (Binary64.reported_profitable ev)
              (Z.of_nat total <? 3 * Z.of_nat tens)
            && Bool.eqb (Binary64.reported_unprofitable ev)
                 (3 * Z.of_nat tens <=? Z.of_nat total))
         (seq 0 (S total)))
    (seq 1 (Z.to_nat (52 * NUM_DECKS))) = true.
Proof. vm_compute. reflexivity. Qed.

(** X9. [calculate_insurance_ev], rounded to double precision as Python
    rounds it, raises [KeyError] on a shoe lacking one of T, J, Q, K and
    returns 0 when the counts add up to 0.  On every other shoe of up to
    [52 * NUM_DECKS] cards the result is never 0: it is positive, the test
    [main] reports the bet profitable on, exactly when more than a third of
    the cards are ten-valued, and negative otherwise, also at exactly one
    third, where exact arithmetic would give 0. *)
Theorem insurance_ev_rounded_sign (shoe_counts : gmap string Z) :
  ((exists rank, In rank ["T"; "J"; "Q"; "K"]%string /\
                 shoe_counts !! rank = None) ->
   Binary64.calculate_insurance_ev shoe_counts = Some (Err KeyError)) /\
  (forall t j q k,
     shoe_counts !! "T"%string = Some t ->
     shoe_counts !! "J"%string = Some j ->
     shoe_counts !! "Q"%string = Some q ->
     shoe_counts !! "K"%string = Some k ->
     let total := py_sum_values shoe_counts in
     let tens := t + j + q + k in
     (total = 0 ->
      Binary64.calculate_insurance_ev shoe_counts =
        Some (Ok PrimFloat.zero)) /\
     (0 < total <= 52 * NUM_DECKS -> 0 <= tens <= total ->
      exists ev,
        Binary64.calculate_insurance_ev shoe_counts = Some (Ok ev) /\
        (Binary64.reported_profitable ev = true <-> total < 3 * tens) /\
        (Binary64.reported_unprofitable ev = true <-> 3 * tens <= total))).
Proof.
  split.
  - intros (rank & Hin & Hnone).
    unfold Binary64.calculate_insurance_ev, dict_get.
    destruct (shoe_counts !! "T"%string) as [t|] eqn:Et; [|reflexivity].
    destruct (shoe_counts !! "J"%string) as [j|] eqn:Ej; [|reflexivity].
    destruct (shoe_counts !! "Q"%string) as [q|] eqn:Eq; [|reflexivity].
    destruct (shoe_counts !! "K"%string) as [k|] eqn:Ek; [|reflexivity].
    simpl in Hin.
    destruct Hin as [<-|[<-|[<-|[<-|[]]]]]; congruence.
  - intros t j q k Ht Hj Hq Hk total tens.
    unfold Binary64.calculate_insurance_ev, dict_get.
    rewrite Ht, Hj, Hq, Hk. fold total. fold tens. split.
    + intros H0. now rewrite H0.
    + intros Htotal Htens.
      destruct (Z.eqb_spec total 0) as [|_]; [lia|].
      assert (Hcovered : (Z.abs tens <? 2 ^ 53) && (Z.abs total <? 2 ^ 53)
                         = true).
      { change (2 ^ 53) with 9007199254740992. unfold NUM_DECKS in Htotal.
        apply andb_true_intro. split; apply Z.ltb_lt; lia. }
      unfold Binary64.int_truediv. rewrite Hcovered.
      eexists. split; [reflexivity|].
      pose proof insurance_sign_table as Htab.
      rewrite forallb_forall in Htab.
      specialize (Htab (Z.to_nat total)).
      rewrite forallb_forall in Htab.
      specialize (Htab ltac:(apply in_seq; lia) (Z.to_nat tens)
                    ltac:(apply in_seq; lia)).
      cbv zeta in Htab. rewrite !Z2Nat.id in Htab by lia.
      apply andb_true_iff in Htab as [Hp Hn].
      apply eqb_prop in Hp. apply eqb_prop in Hn.
      rewrite Hp, Hn. split; [apply Z.ltb_lt|apply Z.leb_le].
Qed.

(** Eight tens among 24 cards, exactly one third: the rounded EV is
    negative. *)
Lemma insurance_ev_rounded_sign_witness :
  exists ev,
    Binary64.calculate_insurance_ev
      (<["T"%string := 8]> (<["2"%string := 16]> (initialize_shoe_counts 0)))
      = Some (Ok ev) /\
    Binary64.reported_profitable ev = false /\
    Binary64.reported_unprofitable ev = true.
Proof.
  destruct (proj2 (insurance_ev_rounded_sign
                     (<["T"%string := 8]>
                        (<["2"%string := 16]> (initialize_shoe_counts 0))))
              8 0 0 0)
    as [_ Hpos]; try (vm_compute; reflexivity).
  destruct Hpos as (ev & Hev & Hp & Hn).
  - vm_compute. split; [reflexivity|discriminate].
  - vm_compute. split; discriminate.
  - exists ev. split; [exact Hev|]. split.
    + destruct (Binary64.reported_profitable ev); [|reflexivity].
      assert (H : 24 < 3 * 8) by (apply Hp; reflexivity). lia.
    + apply Hn. vm_compute. discriminate.
Defined.



End Insurance.

(** ** Playouts: where they stop and what they can reach *)

Section Playouts.

Variable stream : nat -> nat.

Lemma play_out_loop_stops (n : nat) :
  forall local_deck p_cards pos,
    length local_deck = n ->
    exists drawn deck',
      (forall fuel, (n < fuel)%nat ->
         play_out_loop stream fuel p_cards local_deck pos =
           Ok ((p_cards ++ drawn, deck'), (pos + length drawn)%nat)) /\
      Permutation (drawn ++ deck') local_deck /\
      (17 <= hand_value (p_cards ++ drawn) \/ deck' = []) /\
      (forall j, (j < length drawn)%nat ->
                 hand_value (p_cards ++ take j drawn) < 17).
Proof.
  induction n as [|n IH]; intros local_deck p_cards pos Hlen.
  - destruct local_deck; [|discriminate].
    exists [], []. rewrite app_nil_r, Nat.add_0_r.
    split; [|split; [reflexivity|split; [now right|simpl; lia]]].
    intros [|fuel] Hf; [lia|]. simpl.
    destruct (17 <=? hand_value p_cards); reflexivity.
  - destruct (Z.leb_spec 17 (hand_value p_cards)) as [Hstand|Hlow].
    + exists [], local_deck. rewrite app_nil_r, Nat.add_0_r.
      split; [|split; [reflexivity|split; [now left|simpl; lia]]].
      intros [|fuel] Hf; [lia|]. simpl.
      apply Z.leb_le in Hstand. now rewrite Hstand.
    + assert (Hne : local_deck <> []) by (destruct local_deck; easy).
      destruct (choice_nonempty stream local_deck pos Hne) as (x & Hx & Hin).
      pose proof (remove_first_length x local_deck Hin) as Hrl.
      pose proof (remove_first_perm x local_deck Hin) as Hperm.
      apply Z.leb_gt in Hlow.
      destruct (Z.ltb_spec BLACKJACK (hand_value (p_cards ++ [x])))
        as [Hbust|Hok].
      * exists [x], (remove_first x local_deck).
        split; [|split; [exact Hperm|split]].
        -- intros [|fuel] Hf; [lia|]. simpl. rewrite Hlow.
           apply py_not_false in Hne. rewrite Hne.
           rewrite (bind_ok _ _ _ _ _ Hx).
           unfold list_remove. rewrite Hin. unfold bind, lift.
           apply Z.ltb_lt in Hbust. rewrite Hbust.
           unfold ret. repeat f_equal. lia.
        -- left. unfold BLACKJACK in Hbust. lia.
        -- intros [|j] Hj; simpl in *; [|lia].
           rewrite app_nil_r. now apply Z.leb_gt.
      * destruct (IH (remove_first x local_deck) (p_cards ++ [x]) (S pos))
          as (drawn & deck' & Hrun & Hp & Hend & Hpre); [lia|].
        exists (x :: drawn), deck'. split; [|split; [|split]].
        -- intros [|fuel] Hf; [lia|]. simpl. rewrite Hlow.
           apply py_not_false in Hne. rewrite Hne.
           rewrite (bind_ok _ _ _ _ _ Hx).
           unfold list_remove. rewrite Hin. unfold bind at 1, lift.
           apply Z.ltb_ge in Hok. rewrite Hok, Hrun by lia.
           rewrite <- app_assoc. simpl. repeat f_equal. lia.
        -- simpl. now rewrite Hp.
        -- now rewrite <- app_assoc in Hend.
        -- intros [|j] Hj; simpl.
           ++ rewrite app_nil_r. now apply Z.leb_gt.
           ++ specialize (Hpre j ltac:(simpl in Hj; lia)).
              now rewrite <- app_assoc in Hpre.
Qed.

(** X11. [play_out_hand] always returns: the hand has grown by cards taken
    out of the deck, what is left of the deck comes back with it, every
    card was drawn at a total under 17, and the player stops at 17 or more
    (a bust included) or when the deck is empty. *)
Theorem play_out_hand_stops (p_cards local_deck : list Z) (pos : nat) :
  exists drawn deck',
    play_out_hand stream p_cards local_deck pos =
      Ok ((p_cards ++ drawn, deck'), (pos + length drawn)%nat) /\
    Permutation (drawn ++ deck') local_deck /\
    (17 <= hand_value (p_cards ++ drawn) \/ deck' = []) /\
    (forall j, (j < length drawn)%nat ->
               hand_value (p_cards ++ take j drawn) < 17).
Proof.
  destruct (play_out_loop_stops _ local_deck p_cards pos eq_refl)
    as (drawn & deck' & Hrun & Hrest).
  exists drawn, deck'. split; [|exact Hrest].
  apply Hrun. unfold loop_fuel. lia.
Qed.

(** One more card of value at most 11 on a hand of 16 or less makes at most
    26. *)
Lemma hand_value_after_draw cards c :
  hand_value cards <= 16 -> c <= 11 -> hand_value (cards ++ [c]) <= 26.
Proof.
  intros Hlow Hc.
  destruct (hand_value_reduction cards) as (k & (Hk1 & Hk2 & Hk3) & Hv & _).
  destruct (hand_value_reduction (cards ++ [c]))
    as (k' & (Hk1' & Hk2' & Hk3') & Hv' & _).
  rewrite py_sum_app, py_count_app in *.
  replace (py_sum [c]) with c in * by (unfold py_sum; simpl; lia).
  cbn [py_count] in *.
  unfold BLACKJACK in *. rewrite Hv'. rewrite Hv in Hlow.
  destruct (Z.eqb_spec c 11) as [->|Hne].
  - destruct (Nat.le_gt_cases (S k) k') as [Hge|Hlt]; [lia|].
    destruct Hk2' as [Heq|Hfit]; lia.
  - destruct (Nat.le_gt_cases k k') as [Hge|Hlt]; [lia|].
    destruct Hk2' as [Heq|Hfit]; lia.
Qed.

Lemma hard_sum_at_least_length cards :
  Forall (fun c => 2 <= c <= 11) cards ->
  Z.of_nat (length cards) <= hand_value cards.
Proof.
  intros Hall.
  pose proof (hard_sum_le_hand_value cards) as Hh.
  rewrite hard_sum_count in Hh.
  assert (Hone : Forall (fun c => 1 <= c) cards).
  { eapply Forall_impl; [exact Hall|]. intros c Hc. simpl in Hc. lia. }
  pose proof (py_sum_lower_bound cards Hone). lia.
Qed.

(** On a pool of 17 cards or more, all between 2 and 11, the dealer ends
    between 17 and 26. *)
Lemma dealer_total_range dealer_card_val shoe_list pos :
  2 <= dealer_card_val <= 11 ->
  Forall (fun c => 2 <= c <= 11) shoe_list ->
  (17 <= length shoe_list)%nat ->
  exists total pos',
    simulate_dealer_hand_once stream dealer_card_val shoe_list pos =
      Ok (total, pos') /\ 17 <= total <= 26.
Proof.
  intros Hd Hall Hlen.
  destruct (dealer_loop_spec stream _
              (dealer_pool dealer_card_val shoe_list) [dealer_card_val] pos
              eq_refl)
    as (drawn & shoe' & Hrun & Hperm & Hend & Hpre).
  pose proof (discard_if_present_length dealer_card_val shoe_list) as Hpl.
  fold (dealer_pool dealer_card_val shoe_list) in Hpl.
  exists (hand_value (dealer_card_val :: drawn)), (pos + length drawn)%nat.
  split.
  { unfold simulate_dealer_hand_once, dealer_playout, loop_fuel.
    specialize (Hrun (S (length shoe_list)) ltac:(lia)).
    now rewrite (bind_ok _ _ _ _ _ Hrun). }
  assert (Hpool : Forall (fun c => 2 <= c <= 11)
                    (dealer_pool dealer_card_val shoe_list)).
  { unfold dealer_pool, discard_if_present.
    destruct (py_in dealer_card_val shoe_list) eqn:E; [|exact Hall].
    pose proof (remove_first_perm _ _ E) as Hp.
    rewrite <- Hp in Hall. now inversion Hall. }
  assert (Hdrawn : Forall (fun c => 2 <= c <= 11) drawn).
  { rewrite <- Hperm in Hpool. now apply Forall_app in Hpool. }
  split.
  - destruct Hend as [Hend|Hempty]; [exact Hend|]. subst shoe'.
    rewrite app_nil_r in Hperm. apply Permutation_length in Hperm.
    assert (Hpoollen : (16 <= length (dealer_pool dealer_card_val shoe_list))%nat).
    { unfold dealer_pool, discard_if_present.
      destruct (py_in dealer_card_val shoe_list) eqn:E; [|lia].
      pose proof (remove_first_length _ _ E). lia. }
    pose proof (hard_sum_at_least_length (dealer_card_val :: drawn)
                  (proj2 (Forall_cons _ _ _) (conj Hd Hdrawn))) as Hh.
    simpl in Hh. lia.
  - assert (Hcases : drawn = [] \/ exists drawn0 c, drawn = drawn0 ++ [c]).
    { destruct drawn as [|x xs]; [now left|right].
      destruct (exists_last (l:=x :: xs) ltac:(discriminate))
        as (drawn0 & c & Heq).
      eauto. }
    destruct Hcases as [->|(drawn0 & c & ->)].
    + unfold hand_value, py_sum. cbn [app foldr py_count].
      destruct (Z.eqb_spec dealer_card_val 11) as [E|E];
        cbn [reduce_aces fst]; [rewrite E; simpl; lia|lia].
    + specialize (Hpre (length drawn0)).
      rewrite length_app in Hpre. specialize (Hpre ltac:(simpl; lia)).
      rewrite take_app_length in Hpre.
      apply Forall_app in Hdrawn as [_ Hc]. inversion Hc as [|? ? Hc1 _]; subst.
      change (dealer_card_val :: drawn0 ++ [c])
        with ((dealer_card_val :: drawn0) ++ [c]).
      apply hand_value_after_draw; unfold DEALER_STAND in Hpre; simpl in *; lia.
Qed.

End Playouts.

Section DealerTotals.

Variable stream : nat -> nat.

Lemma dealer_totals_loop_range dealer_card_val shoe_list :
  2 <= dealer_card_val <= 11 ->
  Forall (fun c => 2 <= c <= 11) shoe_list ->
  (17 <= length shoe_list)%nat ->
  forall n final_totals pos,
    exists totals pos',
      dealer_totals_loop stream n dealer_card_val shoe_list final_totals pos =
        Ok (final_totals ++ totals, pos') /\
      length totals = n /\
      Forall (fun t => 17 <= t <= 26) totals.
Proof.
  intros Hd Hall Hlen. induction n as [|n IH]; intros final_totals pos.
  - exists [], pos. simpl. rewrite app_nil_r. repeat split. constructor.
  - destruct (dealer_total_range stream dealer_card_val shoe_list pos
                Hd Hall Hlen) as (t & pos1 & Ht & Hrange).
    destruct (IH (final_totals ++ [t]) pos1) as (ts & pos2 & Hts & Hl & Hr).
    exists (t :: ts), pos2. simpl.
    rewrite (bind_ok _ _ _ _ _ Ht), Hts, <- app_assoc.
    split; [reflexivity|]. split; [now rewrite Hl|now constructor].
Qed.

(** X12. On a snapshot of 17 cards or more, all valued 2 to 11, and an
    upcard valued 2 to 11, one dealer playout always ends between 17 and
    26: the snapshot cannot run out before 17 is reached, and a card drawn
    at 16 or less cannot take the total past 26. *)
Theorem dealer_hand_once_range (dealer_card_val : Z) (shoe_list : list Z)
    (pos : nat) :
  2 <= dealer_card_val <= 11 ->
  Forall (fun c => 2 <= c <= 11) shoe_list ->
  (17 <= length shoe_list)%nat ->
  exists total pos',
    simulate_dealer_hand_once stream dealer_card_val shoe_list pos =
      Ok (total, pos') /\ 17 <= total <= 26.
Proof. apply dealer_total_range. Qed.

(** X13. [simulate_dealer_hands] raises [KeyError] on a shoe lacking a
    rank, whatever the number of simulations.  On a shoe that holds all 13
    ranks and stands for 17 cards or more, with an upcard valued 2 to 11, it
    returns exactly [num_simulations] totals, each between 17 and 26. *)
Theorem simulate_dealer_hands_totals (dealer_card_val : Z)
    (shoe_counts : gmap string Z) (num_simulations pos : nat) :
  ((exists rank, In rank ALL_RANKS /\ shoe_counts !! rank = None) ->
   simulate_dealer_hands stream dealer_card_val shoe_counts num_simulations
     pos = Err KeyError) /\
  (shoe_complete shoe_counts ->
   (17 <= cards_in_shoe shoe_counts)%nat ->
   2 <= dealer_card_val <= 11 ->
   exists totals pos',
     simulate_dealer_hands stream dealer_card_val shoe_counts
       num_simulations pos = Ok (totals, pos') /\
     length totals = num_simulations /\
     Forall (fun t => 17 <= t <= 26) totals).
Proof.
  unfold simulate_dealer_hands. split.
  - intros Hmiss. unfold build_shoe_list.
    rewrite build_shoe_from_missing; [reflexivity|auto|exact Hmiss].
  - intros Hc Hcards Hd.
    destruct (build_shoe_list_holds _ Hc) as (l & Hb & Hlen & _ & Hval).
    rewrite Hb. unfold bind, lift.
    destruct (dealer_totals_loop_range dealer_card_val l Hd Hval
                ltac:(lia) num_simulations [] pos)
      as (ts & pos' & Hts & Hl & Hr).
    exists ts, pos'. now rewrite Hts.
Qed.

End DealerTotals.

Lemma dealer_hand_once_range_witness :
  exists total pos',
    simulate_dealer_hand_once sample_stream 10
      (replicate 20 5 ++ replicate 4 10) O = Ok (total, pos') /\
    17 <= total <= 26.
Proof.
  apply (dealer_hand_once_range sample_stream 10
           (replicate 20 5 ++ replicate 4 10) O).
  - lia.
  - simpl. repeat constructor; lia.
  - simpl. lia.
Defined.

Lemma simulate_dealer_hands_totals_witness :
  exists totals pos',
    simulate_dealer_hands sample_stream 10 (initialize_shoe_counts 1) 5 O =
      Ok (totals, pos') /\
    length totals = 5%nat /\
    Forall (fun t => 17 <= t <= 26) totals.
Proof.
  apply (proj2 (simulate_dealer_hands_totals sample_stream 10
                  (initialize_shoe_counts 1) 5 O)).
  - apply initial_shoe_complete.
  - vm_compute. lia.
  - lia.
Defined.

(** ** The estimator at any trial count *)

Section EstimatorAnyCount.

Variable stream : nat -> nat.
Variables (player_cards : list Z) (dealer_card_val : Z).
Variables (shoe_counts : gmap string Z) (built : list Z).
Hypothesis Hbuilt : build_shoe_list shoe_counts = Ok built.

(** As [monte_carlo_ev_run], the trial count not being a multiple of 10. *)
Lemma monte_carlo_ev_run_any (action : string) (N : nat) pos :
  (10 <= N)%nat ->
  action = "Stand"%string \/ action = "Hit"%string \/
  action = "Double Down"%string ->
  exists payoffs pos',
    run_trials (10 * (N / 10))
      (action_trial stream action player_cards dealer_card_val shoe_counts)
      pos = Ok (payoffs, pos') /\
    monte_carlo_ev stream player_cards dealer_card_val shoe_counts action
      N pos =
      Ok (((inject_Z (py_sum payoffs) / inject_Z (Z.of_nat N) * RTP)%Q,
           map (checkpoint (N / 10) payoffs) (seq 1 10)), pos').
Proof.
  intros HN Hact.
  assert (Hc : (0 < N / 10)%nat).
  { apply Nat.div_str_pos. lia. }
  unfold monte_carlo_ev. cbv zeta.
  destruct Hact as [-> | [-> | ->]];
    cbn [String.eqb Ascii.eqb Bool.eqb andb];
    unfold action_trial; cbn [String.eqb Ascii.eqb Bool.eqb andb].
  - destruct (ten_chunks _ _ (N / 10) pos Hc
                (stand_trial_total stream player_cards dealer_card_val
                   shoe_counts built Hbuilt)
                (fun pos xs pos' =>
                   stand_chunk_run stream player_cards dealer_card_val
                     shoe_counts built Hbuilt (N / 10) pos xs pos'))
      as (payoffs & pos' & Hrun & Hloop).
    exists payoffs, pos'. split; [exact Hrun|].
    apply (finish_ev _ _ _ _ _ _ Hloop). lia.
  - destruct (ten_chunks _ _ (N / 10) pos Hc
                (hit_trial_total stream player_cards dealer_card_val
                   shoe_counts built Hbuilt)
                (fun pos xs pos' => trials_chunk _ (N / 10) pos xs pos'))
      as (payoffs & pos' & Hrun & Hloop).
    exists payoffs, pos'. split; [exact Hrun|].
    apply (finish_ev _ _ _ _ _ _ Hloop). lia.
  - destruct (ten_chunks _ _ (N / 10) pos Hc
                (double_trial_total stream player_cards dealer_card_val
                   shoe_counts built Hbuilt)
                (fun pos xs pos' => trials_chunk _ (N / 10) pos xs pos'))
      as (payoffs & pos' & Hrun & Hloop).
    exists payoffs, pos'. split; [exact Hrun|].
    apply (finish_ev _ _ _ _ _ _ Hloop). lia.
Qed.

Lemma stand_payoff_range player_t is_soft d_total :
  -1 <= stand_payoff player_t is_soft d_total <= 1.
Proof.
  unfold stand_payoff, stand_like_step.
  repeat match goal with |- context [if ?b then _ else _] => destruct b end;
    lia.
Qed.

Lemma settle_range bet p_total d_total :
  0 <= bet -> - bet <= settle bet p_total d_total <= bet.
Proof.
  intros Hb. rewrite settle_compare.
  pose proof (compare_final_totals_range p_total d_total). nia.
Qed.

(** The stake of an action: what one trial can win or lose. *)
Lemma action_trial_range (action : string) pos x pos' :
  action = "Stand"%string \/ action = "Hit"%string \/
  action = "Double Down"%string ->
  action_trial stream action player_cards dealer_card_val shoe_counts pos =
    Ok (x, pos') ->
  - (if String.eqb action "Double Down" then 2 else 1) <= x <=
    (if String.eqb action "Double Down" then 2 else 1).
Proof.
  intros [-> | [-> | ->]]; unfold action_trial;
    cbn [String.eqb Ascii.eqb Bool.eqb andb].
  - unfold stand_trial. rewrite Hbuilt. unfold bind, lift, ret.
    destruct (simulate_dealer_hand_once _ _ _ _) as [[t p1]|e];
      [|discriminate].
    intros [= <- _]. apply stand_payoff_range.
  - destruct (hit_trial_run stream player_cards dealer_card_val shoe_counts
                built pos Hbuilt) as (? & ? & ? & ? & _ & _ & H).
    rewrite H. intros [= <- _]. apply settle_range. lia.
  - destruct (double_trial_run stream player_cards dealer_card_val
                shoe_counts built pos Hbuilt) as (? & ? & ? & ? & _ & _ & H).
    rewrite H. intros [= <- _]. apply settle_range. lia.
Qed.

Lemma run_trials_bound (trial : M Z) (b : Z) :
  (forall pos x pos', trial pos = Ok (x, pos') -> - b <= x <= b) ->
  forall n pos xs pos',
    run_trials n trial pos = Ok (xs, pos') ->
    - (b * Z.of_nat n) <= py_sum xs <= b * Z.of_nat n.
Proof.
  intros Hb. induction n as [|n IH]; intros pos xs pos'; simpl.
  - unfold ret. intros [= <- _]. unfold py_sum. simpl. lia.
  - unfold bind. destruct (trial pos) as [[x p1]|e] eqn:Ex; [|discriminate].
    destruct (run_trials n trial p1) as [[xs0 p2]|e] eqn:E; [|discriminate].
    unfold ret. intros [= <- _].
    pose proof (Hb _ _ _ Ex). pose proof (IH _ _ _ E).
    unfold py_sum in *. cbn [foldr]. lia.
Qed.

Lemma Qdiv_between (s n b : Z) :
  0 < n -> - (b * n) <= s <= b * n ->
  (- inject_Z b <= inject_Z s / inject_Z n)%Q /\
  (inject_Z s / inject_Z n <= inject_Z b)%Q.
Proof.
  intros Hn Hs. destruct n as [|p|p]; try lia.
  unfold Qdiv, Qinv, Qmult, Qle, Qopp, inject_Z. simpl. split; lia.
Qed.

End EstimatorAnyCount.

(** X14. For Stand, Hit and Double Down and any trial count [N >= 10],
    divisible by 10 or not, the estimator runs [10 * (N // 10)] trials, the
    remainder being dropped, yet divides their summed payoffs by [N]; the
    trace is the ten checkpoints over chunks of [N // 10]. *)
Theorem monte_carlo_ev_drops_remainder (stream : nat -> nat)
    (player_cards : list Z) (dealer_card_val : Z)
    (shoe_counts : gmap string Z) (built : list Z) (action : string)
    (N pos : nat) :
  build_shoe_list shoe_counts = Ok built ->
  (10 <= N)%nat ->
  action = "Stand"%string \/ action = "Hit"%string \/
  action = "Double Down"%string ->
  exists payoffs pos',
    run_trials (10 * (N / 10))
      (action_trial stream action player_cards dealer_card_val shoe_counts)
      pos = Ok (payoffs, pos') /\
    length payoffs = (10 * (N / 10))%nat /\
    monte_carlo_ev stream player_cards dealer_card_val shoe_counts action
      N pos =
      Ok (((inject_Z (py_sum payoffs) / inject_Z (Z.of_nat N) * RTP)%Q,
           map (checkpoint (N / 10) payoffs) (seq 1 10)), pos').
Proof.
  intros Hb HN Hact.
  destruct (monte_carlo_ev_run_any stream player_cards dealer_card_val
              shoe_counts built Hb action N pos HN Hact)
    as (payoffs & pos' & Hrun & Hev).
  exists payoffs, pos'. split; [exact Hrun|]. split; [|exact Hev].
  eapply run_trials_length; exact Hrun.
Qed.

Lemma monte_carlo_ev_drops_remainder_witness :
  exists payoffs pos',
    run_trials (10 * (25 / 10))
      (action_trial sample_stream "Hit" [10; 6] 10 (initialize_shoe_counts 6))
      O = Ok (payoffs, pos') /\
    length payoffs = (10 * (25 / 10))%nat.
Proof.
  assert (Hb : exists built,
            build_shoe_list (initialize_shoe_counts 6) = Ok built)
    by (eexists; vm_compute; reflexivity).
  destruct Hb as [built Hb].
  destruct (monte_carlo_ev_drops_remainder sample_stream [10; 6] 10
              (initialize_shoe_counts 6) built "Hit" 25 O Hb)
    as (payoffs & pos' & H1 & H2 & _).
  - simpl. lia.
  - right; left; reflexivity.
  - exists payoffs, pos'. now split.
Defined.

(** X15. For Stand, Hit and Double Down and any trial count [N >= 10] the
    returned EV lies within the stake times [RTP]: between -RTP and RTP for
    Stand and Hit, between -2 RTP and 2 RTP for Double Down. *)
Theorem monte_carlo_ev_within_stake (stream : nat -> nat)
    (player_cards : list Z) (dealer_card_val : Z)
    (shoe_counts : gmap string Z) (built : list Z) (action : string)
    (N pos : nat) :
  build_shoe_list shoe_counts = Ok built ->
  (10 <= N)%nat ->
  action = "Stand"%string \/ action = "Hit"%string \/
  action = "Double Down"%string ->
  exists ev trace pos',
    monte_carlo_ev stream player_cards dealer_card_val shoe_counts action
      N pos = Ok ((ev, trace), pos') /\
    let stake := if String.eqb action "Double Down" then 2 else 1 in
    (- inject_Z stake * RTP <= ev)%Q /\ (ev <= inject_Z stake * RTP)%Q.
Proof.
  intros Hb HN Hact.
  destruct (monte_carlo_ev_run_any stream player_cards dealer_card_val
              shoe_counts built Hb action N pos HN Hact)
    as (payoffs & pos' & Hrun & Hev).
  eexists _, _, pos'. split; [exact Hev|]. cbv zeta.
  set (stake := if String.eqb action "Double Down" then 2 else 1).
  assert (Hstake : 0 <= stake) by (unfold stake; destruct (String.eqb _ _); lia).
  pose proof (run_trials_bound _ stake
                (fun pos x pos' =>
                   action_trial_range stream player_cards dealer_card_val
                     shoe_counts built Hb action pos x pos' Hact)
                _ _ _ _ Hrun) as Hsum.
  assert (Hdiv : (10 * (N / 10) <= N)%nat)
    by (apply Nat.Div0.mul_div_le).
  destruct (Qdiv_between (py_sum payoffs) (Z.of_nat N) stake ltac:(lia)
              ltac:(nia)) as [Hlo Hhi].
  assert (Hrtp : (0 <= RTP)%Q) by (unfold RTP, Qle; simpl; lia).
  split.
  - now apply Qmult_le_compat_r.
  - now apply Qmult_le_compat_r.
Qed.

Lemma monte_carlo_ev_within_stake_witness :
  exists ev trace pos',
    monte_carlo_ev sample_stream [10; 6] 10 (initialize_shoe_counts 6)
      "Double Down" 20 O = Ok ((ev, trace), pos') /\
    (- inject_Z 2 * RTP <= ev)%Q /\ (ev <= inject_Z 2 * RTP)%Q.
Proof.
  assert (Hb : exists built,
            build_shoe_list (initialize_shoe_counts 6) = Ok built)
    by (eexists; vm_compute; reflexivity).
  destruct Hb as [built Hb].
  apply (monte_carlo_ev_within_stake sample_stream [10; 6] 10
           (initialize_shoe_counts 6) built "Double Down" 20 O Hb).
  - simpl. lia.
  - right; right; reflexivity.
Defined.

(** ** The estimator at its edges *)

Section EstimatorEdges.

Variable stream : nat -> nat.

Lemma checkpoint_loop_no_trials (chunk : M Z) todo i ev means pos pos' :
  chunk pos = Ok (0, pos') ->
  checkpoint_loop chunk 0 (S todo) i ev means pos = Err ZeroDivisionError.
Proof.
  intros Hchunk. cbn [checkpoint_loop].
  rewrite (bind_ok _ _ _ _ _ Hchunk).
  replace ((Z.of_nat i + 1) * Z.of_nat 0) with 0 by lia.
  reflexivity.
Qed.

Lemma split_loop_no_trials (trial : M Z) todo acc pos :
  split_loop (trials_loop 0 trial 0) todo acc pos = Ok (acc, pos).
Proof.
  revert acc; induction todo as [|todo IH]; intros acc; simpl; [reflexivity|].
  unfold bind at 1. simpl. rewrite IH. now rewrite Z.add_0_r.
Qed.

(** X16. With fewer than 10 trials the chunk size is 0 and the estimator
    raises [ZeroDivisionError]: always for Hit and Double Down, for Stand
    once the shoe list can be built, for Split once the hand has a card. *)
Theorem monte_carlo_ev_too_few_trials (player_cards : list Z)
    (dealer_card_val : Z) (shoe_counts : gmap string Z) (action : string)
    (N pos : nat) :
  (N < 10)%nat ->
  (action = "Hit"%string \/ action = "Double Down"%string ->
   monte_carlo_ev stream player_cards dealer_card_val shoe_counts action
     N pos = Err ZeroDivisionError) /\
  (action = "Stand"%string ->
   (exists built, build_shoe_list shoe_counts = Ok built) ->
   monte_carlo_ev stream player_cards dealer_card_val shoe_counts action
     N pos = Err ZeroDivisionError) /\
  (action = "Split"%string -> player_cards <> [] ->
   monte_carlo_ev stream player_cards dealer_card_val shoe_counts action
     N pos = Err ZeroDivisionError).
Proof.
  intros HN. unfold monte_carlo_ev. cbv zeta.
  rewrite (Nat.div_small N 10 HN).
  split; [|split].
  - intros [-> | ->]; cbn [String.eqb Ascii.eqb Bool.eqb andb];
      unfold bind at 1 2;
      now rewrite (checkpoint_loop_no_trials _ _ _ _ _ pos pos eq_refl).
  - intros -> [built Hb]. cbn [String.eqb Ascii.eqb Bool.eqb andb].
    unfold bind at 1 2.
    rewrite (checkpoint_loop_no_trials _ _ _ _ _ pos pos); [reflexivity|].
    unfold simulate_dealer_hands. rewrite Hb. unfold bind, lift. simpl.
    unfold ret, process_results_for_stand_like. simpl.
    now destruct (BLACKJACK <? hand_value player_cards).
  - intros -> Hne. cbn [String.eqb Ascii.eqb Bool.eqb andb].
    destruct player_cards as [|c cs]; [contradiction|].
    unfold bind at 1 2. unfold lift at 1. cbn [py_first].
    unfold bind at 1. rewrite split_loop_no_trials. reflexivity.
Qed.

(** X17. An action string that names none of the four branches is not
    rejected: for a positive trial count the estimator returns an EV equal
    to 0 and an empty trace without running a trial or reading the
    generator; for the trial count 0 it raises [ZeroDivisionError]. *)
Theorem monte_carlo_ev_unknown_action (player_cards : list Z)
    (dealer_card_val : Z) (shoe_counts : gmap string Z) (action : string)
    (N pos : nat) :
  action <> "Stand"%string -> action <> "Hit"%string ->
  action <> "Double Down"%string -> action <> "Split"%string ->
  (N = O ->
   monte_carlo_ev stream player_cards dealer_card_val shoe_counts action
     N pos = Err ZeroDivisionError) /\
  ((0 < N)%nat ->
   exists ev,
     monte_carlo_ev stream player_cards dealer_card_val shoe_counts action
       N pos = Ok ((ev, []), pos) /\ (ev == 0)%Q).
Proof.
  intros H1 H2 H3 H4. unfold monte_carlo_ev. cbv zeta.
  apply String.eqb_neq in H1, H2, H3, H4. rewrite H1, H2, H3, H4.
  split.
  - intros ->. reflexivity.
  - intros HN. unfold bind, ret, lift.
    rewrite py_truediv_nonzero by lia.
    eexists. split; [reflexivity|].
    unfold Qeq, Qdiv, Qmult, inject_Z. simpl. lia.
Qed.

Lemma run_trials_constant (trial : M Z) (x : Z) n pos :
  (forall p, trial p = Ok (x, p)) ->
  run_trials n trial pos = Ok (replicate n x, pos).
Proof.
  intros Ht. induction n as [|n IH]; simpl; [reflexivity|].
  unfold bind. now rewrite Ht, IH.
Qed.

(** X18. When the list built from the shoe holds fewer than two cards of
    the split card's value, every Split trial is skipped: for a trial count
    [10 * c] with [c > 0] the estimator returns an EV equal to 0 and an
    empty trace, and does not read the generator. *)
Theorem split_skipped_without_pair (split_card_val : Z) (rest : list Z)
    (dealer_card_val : Z) (shoe_counts : gmap string Z) (built : list Z)
    (c pos : nat) :
  build_shoe_list shoe_counts = Ok built ->
  (py_count split_card_val built < 2)%nat ->
  (0 < c)%nat ->
  split_trial stream split_card_val dealer_card_val shoe_counts pos =
    Ok (0, pos) /\
  exists ev,
    monte_carlo_ev stream (split_card_val :: rest) dealer_card_val
      shoe_counts "Split" (10 * c) pos = Ok ((ev, []), pos) /\
    (ev == 0)%Q.
Proof.
  intros Hb Hcount Hc.
  assert (Htrial : forall p,
            split_trial stream split_card_val dealer_card_val shoe_counts p =
              Ok (0, p)).
  { intros p. unfold split_trial. rewrite Hb. unfold bind, lift.
    apply Nat.leb_gt in Hcount. now rewrite Hcount. }
  split; [apply Htrial|].
  pose proof (run_trials_constant _ 0 (10 * c) pos Htrial) as Hrun.
  rewrite (split_ev_run stream split_card_val rest dealer_card_val
             shoe_counts c pos _ _ Hc Hrun).
  eexists. split; [reflexivity|].
  assert (Hsum : forall n, py_sum (replicate n 0) = 0).
  { induction n as [|n IH]; [reflexivity|].
    unfold py_sum in *. simpl. now rewrite IH. }
  rewrite Hsum.
  unfold Qeq, Qdiv, Qmult, inject_Z. simpl. lia.
Qed.

End EstimatorEdges.

Lemma monte_carlo_ev_too_few_trials_witness :
  monte_carlo_ev sample_stream [10; 6] 10 (initialize_shoe_counts 6) "Hit" 9 O =
    Err ZeroDivisionError.
Proof.
  refine (proj1 (monte_carlo_ev_too_few_trials sample_stream [10; 6] 10
                   (initialize_shoe_counts 6) "Hit" 9 O _) _).
  - lia.
  - now left.
Defined.

Lemma monte_carlo_ev_unknown_action_witness :
  exists ev,
    monte_carlo_ev sample_stream [10; 6] 10 (initialize_shoe_counts 6) "Surrender"
      100 O = Ok ((ev, []), O) /\ (ev == 0)%Q.
Proof.
  apply (monte_carlo_ev_unknown_action sample_stream [10; 6] 10 (initialize_shoe_counts 6)
           "Surrender" 100 O); try discriminate.
  lia.
Defined.


Lemma split_skipped_without_pair_witness :
  exists ev,
    monte_carlo_ev sample_stream [8; 8] 10
      (<["8"%string := 1]> (initialize_shoe_counts 6)) "Split" (10 * 2) O =
      Ok ((ev, []), O) /\ (ev == 0)%Q.
Proof.
  assert (Hb : exists built,
            build_shoe_list (<["8"%string := 1]> (initialize_shoe_counts 6)) =
              Ok built /\ (py_count 8 built < 2)%nat).
  { eexists. split; [vm_compute; reflexivity|]. vm_compute. lia. }
  destruct Hb as (built & Hb & Hcount).
  apply (split_skipped_without_pair sample_stream 8 [8] 10 _ built 2 O Hb
           Hcount).
  lia.
Defined.

(** ** Which actions are offered, and what [get_player_action] returns *)

(** X19. Stand and Hit are always offered.  Double Down is offered exactly
    on the first turn of a two-card hand that is not a split hand; Split
    exactly on the first turn of a hand of two cards of equal value.
    Nothing else is ever offered. *)
Theorem legal_actions_offered (player_cards : list Z)
    (is_first_turn is_split_hand : bool) :
  let actions := legal_actions player_cards is_first_turn is_split_hand in
  In "Stand"%string actions /\ In "Hit"%string actions /\
  (In "Double Down"%string actions <->
   is_first_turn = true /\ length player_cards = 2%nat /\
   is_split_hand = false) /\
  (In "Split"%string actions <->
   is_first_turn = true /\ exists c, player_cards = [c; c]) /\
  (forall a, In a actions -> In a PRIORITY).
Proof.
  unfold legal_actions, PRIORITY.
  destruct is_first_turn, is_split_hand;
    destruct player_cards as [|c0 [|c1 [|c2 l]]]; simpl;
    try destruct (Z.eqb_spec c0 c1) as [->|Hne]; simpl;
    (split; [tauto|]); (split; [tauto|]);
    (split; [split; [intros H; repeat destruct H as [H|H];
                       try discriminate; try tauto; auto
                    |intros (H1 & H2 & H3); try discriminate; tauto]|]);
    (split; [split; [intros H; repeat destruct H as [H|H];
                       try discriminate; try contradiction; eauto
                    |intros (H1 & c & H2); try discriminate;
                     try (injection H2 as -> ->); try congruence; tauto]
            |intros a H; tauto]).
Qed.

Section PlayerActionReturns.

Variable stream : nat -> nat.
Variables (player_cards : list Z) (dealer_card_val : Z).
Variables (shoe_counts : gmap string Z) (built : list Z).
Hypothesis Hbuilt : build_shoe_list shoe_counts = Ok built.

Lemma simulations_chunks : SIMULATIONS = (10 * 1000)%nat.
Proof. vm_compute. reflexivity. Qed.

Lemma evaluate_actions_total actions :
  (forall a, In a actions ->
     a = "Stand"%string \/ a = "Hit"%string \/ a = "Double Down"%string) ->
  forall evs0 pos,
    exists evs pos',
      evaluate_actions stream player_cards dealer_card_val shoe_counts
        actions evs0 pos = Ok (evs, pos').
Proof.
  induction actions as [|a actions IH]; intros Hall evs0 pos; simpl.
  - eexists _, _. reflexivity.
  - destruct (monte_carlo_ev_run stream player_cards dealer_card_val
                shoe_counts built Hbuilt a 1000 pos ltac:(lia)
                (Hall a (or_introl eq_refl)))
      as (payoffs & pos1 & _ & Hev).
    rewrite <- simulations_chunks in Hev.
    rewrite (bind_ok _ _ _ _ _ Hev).
    apply IH. intros a' Ha'. apply Hall. now right.
Qed.

Lemma select_best_member (evs : list (string * Q)) :
  evs <> [] ->
  exists sel, select_best evs = Ok sel /\ In (best_action sel) (map fst evs).
Proof.
  intros Hne. unfold select_best.
  pose proof (sorted_by_ev_desc_perm evs) as Hperm.
  destruct (sorted_by_ev_desc evs) as [|[a0 e0] rest] eqn:Es.
  - apply Permutation_nil in Hperm. contradiction.
  - eexists. split; [reflexivity|]. simpl.
    apply in_map_iff. exists (a0, e0). split; [reflexivity|].
    apply (Permutation_in _ Hperm). now left.
Qed.

End PlayerActionReturns.

(** X20. On a shoe whose list can be built, when Split is not among the
    offered actions, [get_player_action] always returns: the action it
    returns is one of the offered actions, and the report closes on the
    line naming it. *)
Theorem get_player_action_returns_offered (stream : nat -> nat)
    (player_cards : list Z) (dealer_card_val : Z)
    (shoe_counts : gmap string Z) (built : list Z)
    (is_first_turn is_split_hand : bool) (pos : nat) :
  build_shoe_list shoe_counts = Ok built ->
  ~ In "Split"%string
       (legal_actions player_cards is_first_turn is_split_hand) ->
  exists best lines pos',
    get_player_action stream player_cards dealer_card_val shoe_counts
      is_first_turn is_split_hand pos = Ok ((best, lines), pos') /\
    In best (legal_actions player_cards is_first_turn is_split_hand) /\
    last lines = Some (OptimalLine best).
Proof.
  intros Hb Hnosplit.
  set (actions := legal_actions player_cards is_first_turn is_split_hand)
    in *.
  destruct (legal_actions_priority player_cards is_first_turn is_split_hand)
    as [Hord Hlen]. fold actions in Hord, Hlen.
  assert (Hthree : forall a, In a actions ->
            a = "Stand"%string \/ a = "Hit"%string \/
            a = "Double Down"%string).
  { intros a Ha.
    destruct (priority_ordered_from_bounds 0 actions Hord a Ha) as [Hp _].
    unfold PRIORITY in Hp. simpl in Hp.
    destruct Hp as [<-|[<-|[<-|[<-|[]]]]]; auto. contradiction. }
  destruct (evaluate_actions_total stream player_cards dealer_card_val
              shoe_counts built Hb actions Hthree [] pos)
    as (evs & pos' & Hevs).
  pose proof (evaluate_actions_keys stream player_cards dealer_card_val
                shoe_counts actions [] pos evs pos'
                (priority_ordered_from_nodup 0 actions Hord) Hevs) as Hkeys.
  simpl in Hkeys.
  assert (Hne : evs <> []).
  { intros ->. simpl in Hkeys. rewrite <- Hkeys in Hlen. simpl in Hlen. lia. }
  destruct (select_best_member evs Hne) as (sel & Hsel & Hin).
  exists (best_action sel), (report evs sel), pos'.
  split; [|split].
  - unfold get_player_action. fold actions.
    rewrite (bind_ok _ _ _ _ _ Hevs). rewrite Hsel. reflexivity.
  - now rewrite <- Hkeys.
  - unfold report. apply last_snoc.
Qed.

Lemma get_player_action_returns_offered_witness :
  exists best lines pos',
    get_player_action sample_stream [10; 6] 10 (initialize_shoe_counts 6)
      true false O = Ok ((best, lines), pos') /\
    In best (legal_actions [10; 6] true false).
Proof.
  assert (Hb : exists built,
            build_shoe_list (initialize_shoe_counts 6) = Ok built)
    by (eexists; vm_compute; reflexivity).
  destruct Hb as [built Hb].
  destruct (get_player_action_returns_offered sample_stream [10; 6] 10
              (initialize_shoe_counts 6) built true false O Hb)
    as (best & lines & pos' & H1 & H2 & _).
  - simpl. intuition discriminate.
  - exists best, lines, pos'. now split.
Defined.

(** ** The solver of [11-23-BJSOLV-RNG.py] *)

Section Soft17SolverFacts.

Import Soft17Solver.

Variable stream : nat -> nat.

Lemma soft17_dealer_total dealer_hand pos :
  exists total final_hand pos',
    Soft17.simulate_dealer_hand stream dealer_hand pos =
      Ok ((total, final_hand), pos').
Proof.
  destruct (dealer_hand_loop_spec stream
              (Z.to_nat (18 - hard_sum dealer_hand)) dealer_hand pos)
    as (drawn & Hrun & _); [lia|].
  eexists _, _, _. unfold Soft17.simulate_dealer_hand, Soft17.dealer_fuel.
  now rewrite (bind_ok _ _ _ _ _ (Hrun _ (Nat.lt_succ_diag_r _))).
Qed.

Lemma outcome_range bet player_total dealer_total :
  0 <= bet -> - bet <= outcome bet player_total dealer_total <= bet.
Proof.
  intros Hb. unfold outcome.
  repeat match goal with |- context [if ?b then _ else _] => destruct b end;
    lia.
Qed.

Lemma outcome_bust_player bet player_total dealer_total :
  BLACKJACK < player_total -> outcome bet player_total dealer_total = bet.
Proof.
  intros Hp. unfold outcome, BLACKJACK in *.
  destruct (Z.ltb_spec dealer_total player_total); [reflexivity|].
  destruct (Z.ltb_spec 21 dealer_total); [reflexivity|lia].
Qed.

Lemma draw_trial_returns bet player_cards dealer_card pos :
  0 <= bet ->
  exists x pos',
    draw_trial stream bet player_cards dealer_card pos = Ok (x, pos') /\
    - bet <= x <= bet.
Proof.
  intros Hb. unfold draw_trial.
  rewrite (bind_ok _ _ _ _ _ (deck_choice stream pos)).
  destruct (BLACKJACK <? _).
  - eexists _, _. split; [reflexivity|lia].
  - destruct (soft17_dealer_total [dealer_card] (S pos))
      as (t & h & pos' & Ht).
    rewrite (bind_ok _ _ _ _ _ Ht).
    eexists _, _. split; [reflexivity|]. now apply outcome_range.
Qed.

(** Every trial returns, within the stake of its action. *)
Lemma trial_returns action player_cards dealer_card pos :
  exists x pos',
    trial stream action player_cards dealer_card pos = Ok (x, pos') /\
    - (if String.eqb action "Double Down" then 2 else 1) <= x <=
      (if String.eqb action "Double Down" then 2 else 1).
Proof.
  unfold trial.
  destruct (String.eqb_spec action "Stand") as [->|_].
  { destruct (soft17_dealer_total [dealer_card] pos) as (t & h & pos' & Ht).
    rewrite (bind_ok _ _ _ _ _ Ht).
    eexists _, _. split; [reflexivity|].
    cbn [String.eqb Ascii.eqb Bool.eqb andb]. apply outcome_range. lia. }
  destruct (String.eqb_spec action "Hit") as [->|_].
  { cbn [String.eqb Ascii.eqb Bool.eqb andb].
    apply draw_trial_returns. lia. }
  destruct (String.eqb_spec action "Double Down") as [->|_].
  { apply draw_trial_returns. lia. }
  eexists _, _. split; [reflexivity|]. lia.
Qed.

Lemma trial_range action player_cards dealer_card pos x pos' :
  trial stream action player_cards dealer_card pos = Ok (x, pos') ->
  - (if String.eqb action "Double Down" then 2 else 1) <= x <=
    (if String.eqb action "Double Down" then 2 else 1).
Proof.
  intros H.
  destruct (trial_returns action player_cards dealer_card pos)
    as (x0 & p0 & H0 & Hr).
  rewrite H in H0. now injection H0 as <- <-.
Qed.

Lemma solver_ev_run action player_cards dealer_card (N : nat) pos :
  (0 < N)%nat ->
  exists payoffs pos',
    run_trials N (trial stream action player_cards dealer_card) pos =
      Ok (payoffs, pos') /\
    monte_carlo_ev stream player_cards dealer_card action N pos =
      Ok ((inject_Z (py_sum payoffs) / inject_Z (Z.of_nat N))%Q, pos').
Proof.
  intros HN.
  destruct (run_trials_total N (trial stream action player_cards dealer_card)
              (fun p =>
                 match trial_returns action player_cards dealer_card p with
                 | ex_intro _ x (ex_intro _ p' (conj H _)) =>
                     ex_intro _ x (ex_intro _ p' H)
                 end) pos)
    as (payoffs & pos' & Hrun).
  exists payoffs, pos'. split; [exact Hrun|].
  unfold monte_carlo_ev.
  rewrite (bind_ok _ _ _ _ _ (trials_loop_run _ _ _ _ _ _ Hrun)).
  rewrite Z.add_0_l, py_truediv_nonzero by lia. reflexivity.
Qed.

Lemma run_trials_all (P : Z -> Prop) (t : M Z) :
  (forall pos x pos', t pos = Ok (x, pos') -> P x) ->
  forall n pos xs pos', run_trials n t pos = Ok (xs, pos') -> Forall P xs.
Proof.
  intros HP. induction n as [|n IH]; intros pos xs pos'; simpl.
  - unfold ret. intros [= <- _]. constructor.
  - unfold bind. destruct (t pos) as [[x p1]|e] eqn:Ex; [|discriminate].
    destruct (run_trials n t p1) as [[xs0 p2]|e] eqn:E; [|discriminate].
    unfold ret. intros [= <- _]. constructor; eauto.
Qed.

Lemma max_from_first_max (rest : list (string * Q)) :
  forall best pre mid,
    (forall y, In y pre -> (snd y < snd best)%Q) ->
    (forall y, In y mid -> (snd y <= snd best)%Q) ->
    exists l1 l2,
      pre ++ best :: mid ++ rest = l1 ++ max_from best rest :: l2 /\
      (forall y, In y l1 -> (snd y < snd (max_from best rest))%Q) /\
      (forall y, In y l2 -> (snd y <= snd (max_from best rest))%Q).
Proof.
  induction rest as [|x rest IH]; intros best pre mid Hpre Hmid; simpl.
  - exists pre, mid. rewrite app_nil_r. auto.
  - destruct (Qle_bool (snd x) (snd best)) eqn:E.
    + apply Qle_bool_iff in E.
      destruct (IH best pre (mid ++ [x]) Hpre) as (l1 & l2 & Heq & H1 & H2).
      * intros y Hy. apply in_app_or in Hy as [Hy|[<-|[]]]; auto.
      * exists l1, l2. rewrite <- app_assoc in Heq. auto.
    + assert (Hlt : (snd best < snd x)%Q).
      { apply Qnot_le_lt. intros H. apply Qle_bool_iff in H. congruence. }
      destruct (IH x (pre ++ best :: mid) []) as (l1 & l2 & Heq & H1 & H2).
      * intros y Hy. apply in_app_or in Hy as [Hy|[<-|Hy]].
        -- eapply Qlt_trans; [apply (Hpre _ Hy)|exact Hlt].
        -- exact Hlt.
        -- eapply Qle_lt_trans; [apply (Hmid _ Hy)|exact Hlt].
      * intros y [].
      * exists l1, l2. rewrite <- app_assoc in Heq. simpl in Heq. auto.
Qed.

Lemma evaluate_keys player_cards dealer_card actions :
  forall evs0 pos,
    List.NoDup (map fst evs0 ++ actions) ->
    exists evs pos',
      evaluate stream player_cards dealer_card actions evs0 pos =
        Ok (evs, pos') /\
      map fst evs = map fst evs0 ++ actions.
Proof.
  induction actions as [|a actions IH]; intros evs0 pos Hnd; simpl.
  - eexists _, _. split; [reflexivity|]. now rewrite app_nil_r.
  - destruct (solver_ev_run a player_cards dealer_card SIMULATIONS pos
                ltac:(unfold SIMULATIONS; lia))
      as (payoffs & pos1 & _ & Hev).
    rewrite (bind_ok _ _ _ _ _ Hev).
    assert (Hfresh : ~ In a (map fst evs0)).
    { apply NoDup_remove_2 in Hnd. intros H. apply Hnd.
      apply in_or_app. now left. }
    rewrite (dict_set_fresh _ _ _ Hfresh).
    destruct (IH (evs0 ++ [(a, (inject_Z (py_sum payoffs)
                                / inject_Z (Z.of_nat SIMULATIONS))%Q)]) pos1)
      as (evs & pos' & Hrun & Hkeys).
    + rewrite map_app. simpl. now rewrite <- app_assoc.
    + exists evs, pos'. split; [exact Hrun|].
      rewrite Hkeys, map_app. simpl. now rewrite <- app_assoc.
Qed.

End Soft17SolverFacts.

(** X21. The estimator of [11-23-BJSOLV-RNG.py] raises
    [ZeroDivisionError] for 0 simulations.  For any positive number it
    always returns, whatever the action and the cards: the summed payoffs of
    the trials over their number, which lies within the stake, 2 for Double
    Down and 1 otherwise. *)
Theorem soft17_monte_carlo_ev_mean (stream : nat -> nat)
    (player_cards : list Z) (dealer_card : Z) (action : string)
    (simulations pos : nat) :
  (simulations = O ->
   Soft17Solver.monte_carlo_ev stream player_cards dealer_card action
     simulations pos = Err ZeroDivisionError) /\
  ((0 < simulations)%nat ->
   exists payoffs pos',
     run_trials simulations
       (Soft17Solver.trial stream action player_cards dealer_card) pos =
       Ok (payoffs, pos') /\
     Soft17Solver.monte_carlo_ev stream player_cards dealer_card action
       simulations pos =
       Ok ((inject_Z (py_sum payoffs) / inject_Z (Z.of_nat simulations))%Q,
           pos') /\
     let stake := if String.eqb action "Double Down" then 2 else 1 in
     (- inject_Z stake
      <= inject_Z (py_sum payoffs) / inject_Z (Z.of_nat simulations))%Q /\
     (inject_Z (py_sum payoffs) / inject_Z (Z.of_nat simulations)
      <= inject_Z stake)%Q).
Proof.
  split.
  - intros ->. reflexivity.
  - intros HN.
    destruct (solver_ev_run stream action player_cards dealer_card
                simulations pos HN) as (payoffs & pos' & Hrun & Hev).
    exists payoffs, pos'. split; [exact Hrun|]. split; [exact Hev|].
    cbv zeta.
    pose proof (run_trials_bound _ _
                  (trial_range stream action player_cards dealer_card)
                  _ _ _ _ Hrun) as Hsum.
    apply Qdiv_between; lia.
Qed.

Lemma soft17_monte_carlo_ev_mean_witness :
  exists payoffs pos',
    run_trials 10
      (Soft17Solver.trial sample_stream "Double Down" [5; 6] 10) O =
      Ok (payoffs, pos') /\
    Soft17Solver.monte_carlo_ev sample_stream [5; 6] 10 "Double Down" 10 O =
      Ok ((inject_Z (py_sum payoffs) / inject_Z (Z.of_nat 10))%Q, pos') /\
    let stake := if String.eqb "Double Down" "Double Down" then 2 else 1 in
    (- inject_Z stake
     <= inject_Z (py_sum payoffs) / inject_Z (Z.of_nat 10))%Q /\
    (inject_Z (py_sum payoffs) / inject_Z (Z.of_nat 10)
     <= inject_Z stake)%Q.
Proof.
  apply (proj2 (soft17_monte_carlo_ev_mean sample_stream [5; 6] 10
                  "Double Down" 10 O)).
  lia.
Defined.

(** X22. In [11-23-BJSOLV-RNG.py] a Stand trial never tests the player's
    own total against 21: on a hand over 21 every trial counts as a win, and
    the Stand EV is 1 for any positive number of simulations. *)
Theorem soft17_stand_on_bust_wins (stream : nat -> nat)
    (player_cards : list Z) (dealer_card : Z) (simulations pos : nat) :
  BLACKJACK < hand_value player_cards ->
  (0 < simulations)%nat ->
  exists ev pos',
    Soft17Solver.monte_carlo_ev stream player_cards dealer_card "Stand"
      simulations pos = Ok (ev, pos') /\
    (ev == 1)%Q.
Proof.
  intros Hbust HN.
  destruct (solver_ev_run stream "Stand" player_cards dealer_card
              simulations pos HN) as (payoffs & pos' & Hrun & Hev).
  exists (inject_Z (py_sum payoffs) / inject_Z (Z.of_nat simulations))%Q, pos'.
  split; [exact Hev|].
  assert (Hall : Forall (fun x => x = 1) payoffs).
  { eapply (run_trials_all (fun x => x = 1)); [|exact Hrun].
    intros p x p'. unfold Soft17Solver.trial.
    cbn [String.eqb Ascii.eqb Bool.eqb andb]. unfold bind, ret.
    destruct (Soft17.simulate_dealer_hand stream [dealer_card] p)
      as [[[t h] p1]|e]; [|discriminate].
    intros [= <- _]. now apply outcome_bust_player. }
  assert (Hsum : py_sum payoffs = Z.of_nat (length payoffs)).
  { clear Hrun Hev. induction Hall as [|x xs -> _ IH]; [reflexivity|].
    unfold py_sum in *. cbn [foldr length]. lia. }
  rewrite Hsum, (run_trials_length _ _ _ _ _ Hrun).
  destruct simulations as [|n]; [lia|].
  unfold Qeq, Qdiv, Qmult, Qinv, inject_Z. simpl. lia.
Qed.

Lemma soft17_stand_on_bust_wins_witness :
  exists ev pos',
    Soft17Solver.monte_carlo_ev sample_stream [10; 6; 9] 10 "Stand" 10 O =
      Ok (ev, pos') /\ (ev == 1)%Q.
Proof.
  apply (soft17_stand_on_bust_wins sample_stream [10; 6; 9] 10 10 O).
  - vm_compute. reflexivity.
  - lia.
Defined.

(** X23. [get_player_action] of [11-23-BJSOLV-RNG.py] always returns.  It
    ranks Stand and Hit, and Double Down exactly on two-card hands, and
    returns the ranked action of greatest EV, the earliest of them when
    several share it. *)
Theorem soft17_get_player_action_first_max (stream : nat -> nat)
    (player_cards : list Z) (dealer_card : Z) (pos : nat) :
  (In "Double Down"%string (Soft17Solver.offered_actions player_cards) <->
   length player_cards = 2%nat) /\
  exists evs best best_ev pos' l1 l2,
    Soft17Solver.evaluate stream player_cards dealer_card
      (Soft17Solver.offered_actions player_cards) [] pos = Ok (evs, pos') /\
    map fst evs = Soft17Solver.offered_actions player_cards /\
    Soft17Solver.get_player_action stream player_cards dealer_card pos =
      Ok (best, pos') /\
    evs = l1 ++ (best, best_ev) :: l2 /\
    (forall y, In y l1 -> (snd y < best_ev)%Q) /\
    (forall y, In y l2 -> (snd y <= best_ev)%Q).
Proof.
  split.
  - unfold Soft17Solver.offered_actions.
    destruct (Nat.eqb_spec (length player_cards) 2) as [->|Hne]; simpl;
      split; intros H; try tauto; try reflexivity.
    repeat (destruct H as [H|H]; try discriminate). destruct H.
  - destruct (evaluate_keys stream player_cards dealer_card
                (Soft17Solver.offered_actions player_cards) [] pos)
      as (evs & pos' & Hrun & Hkeys).
    { unfold Soft17Solver.offered_actions.
      destruct (negb _); simpl;
        repeat (constructor; [simpl; intuition discriminate|]); constructor. }
    simpl in Hkeys.
    destruct evs as [|x rest].
    { unfold Soft17Solver.offered_actions in Hkeys.
      destruct (negb _); discriminate. }
    destruct (max_from_first_max rest x [] []) as (l1 & l2 & Heq & H1 & H2);
      try (intros y []).
    simpl in Heq.
    exists (x :: rest), (fst (Soft17Solver.max_from x rest)),
      (snd (Soft17Solver.max_from x rest)), pos', l1, l2.
    split; [exact Hrun|]. split; [exact Hkeys|]. split.
    + unfold Soft17Solver.get_player_action.
      now rewrite (bind_ok _ _ _ _ _ Hrun).
    + split; [|split; assumption].
      rewrite Heq. now destruct (Soft17Solver.max_from x rest).
Qed.

(** ** Split trials *)

Section SplitTrials.

Variable stream : nat -> nat.

Lemma remove_first_Forall (P : Z -> Prop) x l :
  Forall P l -> Forall P (remove_first x l).
Proof.
  induction 1 as [|c cs Hc Hcs IH]; simpl; [constructor|].
  destruct (c =? x); [exact Hcs|now constructor].
Qed.

Lemma discard_if_present_Forall (P : Z -> Prop) x l :
  Forall P l -> Forall P (discard_if_present x l).
Proof.
  intros H. unfold discard_if_present.
  destruct (py_in x l); [now apply remove_first_Forall|exact H].
Qed.

Lemma discard_if_present_keeps x l :
  (length l <= S (length (discard_if_present x l)))%nat.
Proof.
  unfold discard_if_present. destruct (py_in x l) eqn:E; [|lia].
  pose proof (remove_first_length x l E). lia.
Qed.

(** The playout leaves all but at most [17 - length p_cards] cards of the
    deck: a card is only drawn at a total under 17, and every card counts
    for 1 at least. *)
Lemma play_out_hand_leaves p_cards local_deck pos :
  Forall (fun c => 2 <= c <= 11) p_cards ->
  Forall (fun c => 2 <= c <= 11) local_deck ->
  exists sub_hand deck' pos',
    play_out_hand stream p_cards local_deck pos =
      Ok ((sub_hand, deck'), pos') /\
    Forall (fun c => 2 <= c <= 11) deck' /\
    (length local_deck <= length deck' + (17 - length p_cards))%nat.
Proof.
  intros Hp Hdeck.
  destruct (play_out_loop_stops stream _ local_deck p_cards pos eq_refl)
    as (drawn & deck' & Hrun & Hperm & _ & Hpre).
  exists (p_cards ++ drawn), deck', (pos + length drawn)%nat.
  split; [apply Hrun; unfold loop_fuel; lia|].
  assert (Hall : Forall (fun c => 2 <= c <= 11) (drawn ++ deck')).
  { apply (Permutation_Forall (Permutation_sym Hperm)), Hdeck. }
  apply Forall_app in Hall as [Hd Hdk]. split; [exact Hdk|].
  apply Permutation_length in Hperm. rewrite length_app in Hperm.
  destruct (Nat.eq_dec (length drawn) O) as [H0|Hpos]; [lia|].
  specialize (Hpre (length drawn - 1)%nat ltac:(lia)).
  pose proof (hard_sum_at_least_length
                (p_cards ++ take (length drawn - 1) drawn)) as Hlen.
  rewrite length_app, length_take in Hlen.
  assert (Forall (fun c => 2 <= c <= 11)
            (p_cards ++ take (length drawn - 1) drawn)) as Hok.
  { apply Forall_app. split; [exact Hp|now apply Forall_take]. }
  specialize (Hlen Hok). lia.
Qed.

(** A sub-hand of a split comes back whenever the pool has a card to give
    it, and leaves all but at most 16 cards of the pool. *)
Lemma split_sub_hand_returns split_card_val dealer_card_val local_shoe pos :
  2 <= split_card_val <= 11 ->
  Forall (fun c => 2 <= c <= 11) local_shoe ->
  local_shoe <> [] ->
  exists result local_shoe' pos',
    split_sub_hand stream split_card_val dealer_card_val local_shoe pos =
      Ok ((result, local_shoe'), pos') /\
    -1 <= result <= 1 /\
    Forall (fun c => 2 <= c <= 11) local_shoe' /\
    (length local_shoe <= length local_shoe' + 16)%nat.
Proof.
  intros Hs Hall Hne.
  destruct (choice_nonempty stream local_shoe pos Hne) as (x & Hx & Hin).
  assert (Hxok : 2 <= x <= 11).
  { apply py_in_In in Hin.
    exact (proj1 (List.Forall_forall _ _) Hall x Hin). }
  destruct (play_out_hand_leaves [split_card_val; x]
              (remove_first x local_shoe) (S pos))
    as (sub_hand & deck' & pos1 & Hplay & Hdk & Hlen).
  { repeat constructor; lia. }
  { now apply remove_first_Forall. }
  destruct (simulate_dealer_hand_once_returns stream dealer_card_val deck'
              pos1) as (drawn & shoe' & Hdealer & _).
  exists (compare_final_totals (hand_value sub_hand)
            (hand_value (dealer_card_val :: drawn))), deck',
    (pos1 + length drawn)%nat.
  split; [|split; [apply compare_final_totals_range|split; [exact Hdk|]]].
  - unfold split_sub_hand. rewrite (bind_ok _ _ _ _ _ Hx).
    unfold list_remove. rewrite Hin.
    unfold bind at 1, lift at 1.
    rewrite (bind_ok _ _ _ _ _ Hplay).
    now rewrite (bind_ok _ _ _ _ _ Hdealer).
  - pose proof (remove_first_length x local_shoe Hin). simpl in Hlen. lia.
Qed.

(** A Split trial on a built list of 20 cards or more always comes back,
    with a payoff between -2 and 2. *)
Lemma split_trial_returns split_card_val dealer_card_val shoe_counts built
    pos :
  build_shoe_list shoe_counts = Ok built ->
  Forall (fun c => 2 <= c <= 11) built ->
  (20 <= length built)%nat ->
  exists x pos',
    split_trial stream split_card_val dealer_card_val shoe_counts pos =
      Ok (x, pos') /\ -2 <= x <= 2.
Proof.
  intros Hb Hall Hlen. unfold split_trial. rewrite Hb.
  unfold bind at 1, lift at 1.
  destruct (Nat.leb_spec 2 (py_count split_card_val built)) as [Hc|Hc];
    [|eexists _, _; split; [reflexivity|lia]].
  assert (Hin1 : py_in split_card_val built = true).
  { rewrite py_in_count. apply Nat.ltb_lt. lia. }
  assert (Hin2 : py_in split_card_val (remove_first split_card_val built)
                 = true).
  { rewrite py_in_count, remove_first_count, Z.eqb_refl, Hin1. simpl.
    apply Nat.ltb_lt. lia. }
  assert (Hs : 2 <= split_card_val <= 11).
  { apply py_in_In in Hin1.
    exact (proj1 (List.Forall_forall _ _) Hall _ Hin1). }
  unfold list_remove. rewrite Hin1.
  unfold bind at 1, lift at 1. rewrite Hin2.
  unfold bind at 1, lift at 1. cbv zeta.
  set (pool := discard_if_present dealer_card_val
                 (remove_first split_card_val
                    (remove_first split_card_val built))).
  assert (Hpool : Forall (fun c => 2 <= c <= 11) pool).
  { apply discard_if_present_Forall.
    now do 2 apply remove_first_Forall. }
  assert (Hpl : (17 <= length pool)%nat).
  { pose proof (discard_if_present_keeps dealer_card_val
                  (remove_first split_card_val
                     (remove_first split_card_val built))).
    pose proof (remove_first_length _ _ Hin1).
    pose proof (remove_first_length _ _ Hin2).
    fold pool in H. lia. }
  destruct (split_sub_hand_returns split_card_val dealer_card_val pool pos
              Hs Hpool)
    as (r1 & pool1 & pos1 & H1 & Hr1 & Hpool1 & Hl1).
  { intros E. rewrite E in Hpl. simpl in Hpl. lia. }
  destruct (split_sub_hand_returns split_card_val dealer_card_val pool1 pos1
              Hs Hpool1)
    as (r2 & pool2 & pos2 & H2 & Hr2 & _ & _).
  { intros E. rewrite E in Hl1. simpl in Hl1. lia. }
  exists (r1 + r2), pos2.
  rewrite (bind_ok _ _ _ _ _ H1). rewrite (bind_ok _ _ _ _ _ H2).
  split; [reflexivity|lia].
Qed.

(** A Split trial on a pool that holds at most one card once the pair and
    the upcard are out raises [IndexError]: a sub-hand has no card to
    draw. *)
Lemma split_trial_short_pool split_card_val dealer_card_val shoe_counts built
    pos :
  build_shoe_list shoe_counts = Ok built ->
  (2 <= py_count split_card_val built)%nat ->
  (length (discard_if_present dealer_card_val
             (remove_first split_card_val
                (remove_first split_card_val built))) <= 1)%nat ->
  split_trial stream split_card_val dealer_card_val shoe_counts pos =
    Err IndexError.
Proof.
  intros Hb Hc Hshort. unfold split_trial. rewrite Hb.
  unfold bind at 1, lift at 1.
  destruct (Nat.leb_spec 2 (py_count split_card_val built)) as [_|Hlt];
    [|lia].
  assert (Hin1 : py_in split_card_val built = true).
  { rewrite py_in_count. apply Nat.ltb_lt. lia. }
  assert (Hin2 : py_in split_card_val (remove_first split_card_val built)
                 = true).
  { rewrite py_in_count, remove_first_count, Z.eqb_refl, Hin1. simpl.
    apply Nat.ltb_lt. lia. }
  unfold list_remove. rewrite Hin1.
  unfold bind at 1, lift at 1. rewrite Hin2.
  unfold bind at 1, lift at 1. cbv zeta.
  destruct (discard_if_present dealer_card_val
              (remove_first split_card_val
                 (remove_first split_card_val built)))
    as [|x [|y pool]]; [reflexivity| |simpl in Hshort; lia].
  unfold split_sub_hand at 1.
  assert (Hx : choice stream [x] pos = Ok (x, S pos)).
  { unfold choice. cbn [length]. now rewrite Nat.mod_1_r. }
  unfold bind at 1. rewrite (bind_ok _ _ _ _ _ Hx).
  unfold list_remove. simpl. rewrite Z.eqb_refl. simpl.
  unfold bind at 1, lift at 1.
  destruct (play_out_loop_stops stream _ [] [split_card_val; x] (S pos)
              eq_refl) as (drawn & deck' & Hrun & Hperm & _).
  apply Permutation_sym, Permutation_nil, app_eq_nil in Hperm
    as [-> ->].
  specialize (Hrun (loop_fuel []) ltac:(unfold loop_fuel; simpl; lia)).
  unfold play_out_hand. rewrite (bind_ok _ _ _ _ _ Hrun).
  destruct (simulate_dealer_hand_once_returns stream dealer_card_val []
              (S pos + 0)) as (dd & shoe' & Hdealer & _).
  simpl length in Hdealer. rewrite (bind_ok _ _ _ _ _ Hdealer).
  reflexivity.
Qed.

Lemma trials_loop_fails (trial : M Z) (e : exn) :
  (forall pos, trial pos = Err e) ->
  forall n ev_chunk pos, (0 < n)%nat ->
    trials_loop n trial ev_chunk pos = Err e.
Proof.
  intros Hfail [|n] ev_chunk pos Hn; [lia|].
  simpl. unfold bind. now rewrite Hfail.
Qed.

End SplitTrials.

(** X24. On a shoe that holds all 13 ranks and stands for 20 cards or
    more, Split over [10 * c] trials, [c > 0], always returns: every trial
    comes back with a payoff between -2 and 2 (two sub-hands of one unit
    each, or 0 for a skipped trial), the trace is empty, and the EV is the
    summed payoffs divided by the trial count on the Split branch and once
    more on the closing line. *)
Theorem split_estimate_returns (stream : nat -> nat)
    (split_card_val : Z) (rest : list Z) (dealer_card_val : Z)
    (shoe_counts : gmap string Z) (c pos : nat) :
  shoe_complete shoe_counts ->
  (20 <= cards_in_shoe shoe_counts)%nat ->
  (0 < c)%nat ->
  exists payoffs pos',
    run_trials (10 * c)
      (split_trial stream split_card_val dealer_card_val shoe_counts) pos =
      Ok (payoffs, pos') /\
    Forall (fun x => -2 <= x <= 2) payoffs /\
    monte_carlo_ev stream (split_card_val :: rest) dealer_card_val
      shoe_counts "Split" (10 * c) pos =
      Ok (((inject_Z (py_sum payoffs) / inject_Z (10 * Z.of_nat c)
            / inject_Z (Z.of_nat (10 * c)) * RTP)%Q, []), pos').
Proof.
  intros Hcomplete Hcards Hc.
  destruct (build_shoe_list_holds shoe_counts Hcomplete)
    as (built & Hb & Hlen & _ & Hall).
  rewrite <- Hlen in Hcards.
  pose proof (split_trial_returns stream split_card_val dealer_card_val
                shoe_counts built) as Hret.
  destruct (run_trials_total (10 * c)
              (split_trial stream split_card_val dealer_card_val shoe_counts)
              (fun p =>
                 match Hret p Hb Hall Hcards with
                 | ex_intro _ x (ex_intro _ p' (conj H _)) =>
                     ex_intro _ x (ex_intro _ p' H)
                 end) pos)
    as (payoffs & pos' & Hrun).
  exists payoffs, pos'. split; [exact Hrun|]. split.
  - eapply (run_trials_all (fun x => -2 <= x <= 2)); [|exact Hrun].
    intros p x p' Hx.
    destruct (Hret p Hb Hall Hcards) as (x0 & p0 & Hx0 & Hr).
    rewrite Hx in Hx0. now injection Hx0 as <- <-.
  - now apply split_ev_run.
Qed.

Lemma split_estimate_returns_witness :
  exists payoffs pos',
    run_trials (10 * 1)
      (split_trial sample_stream 8 10 (initialize_shoe_counts 1)) O =
      Ok (payoffs, pos') /\
    Forall (fun x => -2 <= x <= 2) payoffs /\
    monte_carlo_ev sample_stream [8; 8] 10 (initialize_shoe_counts 1)
      "Split" (10 * 1) O =
      Ok (((inject_Z (py_sum payoffs) / inject_Z (10 * Z.of_nat 1)
            / inject_Z (Z.of_nat (10 * 1)) * RTP)%Q, []), pos').
Proof.
  apply (split_estimate_returns sample_stream 8 [8] 10
           (initialize_shoe_counts 1) 1 O).
  - apply initial_shoe_complete.
  - vm_compute. lia.
  - lia.
Defined.

(** X25. Split on a shoe that has at most one card left once the pair and
    the upcard, if present, are taken out raises [IndexError] for any trial
    count of 10 or more: [random.choice] is called on an empty pool, for
    the first sub-hand or for the second. *)
Theorem split_short_shoe_raises (stream : nat -> nat)
    (split_card_val : Z) (rest : list Z) (dealer_card_val : Z)
    (shoe_counts : gmap string Z) (built : list Z) (N pos : nat) :
  build_shoe_list shoe_counts = Ok built ->
  (2 <= py_count split_card_val built)%nat ->
  (length (discard_if_present dealer_card_val
             (remove_first split_card_val
                (remove_first split_card_val built))) <= 1)%nat ->
  (10 <= N)%nat ->
  monte_carlo_ev stream (split_card_val :: rest) dealer_card_val shoe_counts
    "Split" N pos = Err IndexError.
Proof.
  intros Hb Hc Hshort HN.
  assert (Hchunk : (0 < N / 10)%nat) by (apply Nat.div_str_pos; lia).
  unfold monte_carlo_ev. cbv zeta.
  cbn [String.eqb Ascii.eqb Bool.eqb andb py_first].
  unfold bind at 1. unfold bind at 1, lift at 1. unfold bind at 1.
  cbn [split_loop]. unfold bind at 1.
  rewrite (trials_loop_fails
             (split_trial stream split_card_val dealer_card_val shoe_counts)
             IndexError); [reflexivity| |exact Hchunk].
  intros p. now apply (split_trial_short_pool stream _ _ _ built).
Qed.

Lemma split_short_shoe_raises_witness :
  monte_carlo_ev sample_stream [8; 8] 10
    (<["7"%string := 1]> (<["8"%string := 2]> (initialize_shoe_counts 0)))
    "Split" 10 O = Err IndexError.
Proof.
  apply (split_short_shoe_raises sample_stream 8 [8] 10
           (<["7"%string := 1]> (<["8"%string := 2]>
              (initialize_shoe_counts 0)))
           [7; 8; 8] 10 O).
  - vm_compute. reflexivity.
  - vm_compute. lia.
  - vm_compute. lia.
  - lia.
Defined.

(** ** [get_player_action] on any hand *)

Section PlayerActionAnyHand.

Variable stream : nat -> nat.
Variables (player_cards : list Z) (dealer_card_val : Z).
Variable shoe_counts : gmap string Z.
Hypothesis Hcomplete : shoe_complete shoe_counts.
Hypothesis Hcards : (20 <= cards_in_shoe shoe_counts)%nat.

Lemma split_trials_total split_card_val n pos :
  exists payoffs pos',
    run_trials n
      (split_trial stream split_card_val dealer_card_val shoe_counts) pos =
      Ok (payoffs, pos').
Proof.
  destruct (build_shoe_list_holds shoe_counts Hcomplete)
    as (built & Hb & Hlen & _ & Hall).
  apply run_trials_total. intros p.
  destruct (split_trial_returns stream split_card_val dealer_card_val
              shoe_counts built p Hb Hall ltac:(lia))
    as (x & p' & Hx & _).
  eauto.
Qed.

Lemma evaluate_actions_any actions :
  (forall a, In a actions -> In a PRIORITY) ->
  (In "Split"%string actions -> player_cards <> []) ->
  forall evs0 pos,
    exists evs pos',
      evaluate_actions stream player_cards dealer_card_val shoe_counts
        actions evs0 pos = Ok (evs, pos').
Proof.
  destruct (build_shoe_list_holds shoe_counts Hcomplete)
    as (built & Hb & _).
  induction actions as [|a actions IH]; intros Hall Hsplit evs0 pos; simpl.
  - eexists _, _. reflexivity.
  - assert (Hev : exists ev trace pos1,
              monte_carlo_ev stream player_cards dealer_card_val shoe_counts
                a SIMULATIONS pos = Ok ((ev, trace), pos1)).
    { rewrite simulations_chunks.
      pose proof (Hall a (or_introl eq_refl)) as Ha.
      unfold PRIORITY in Ha. simpl in Ha.
      destruct Ha as [<- | [<- | [<- | [<- | []]]]].
      1-3: match goal with
           | |- context [monte_carlo_ev _ _ _ _ ?act _ _] =>
               destruct (monte_carlo_ev_run stream player_cards
                           dealer_card_val shoe_counts built Hb act 1000 pos
                           ltac:(lia) ltac:(auto))
                 as (payoffs & pos1 & _ & H);
               rewrite H; eauto
           end.
      destruct player_cards as [|s rest] eqn:Ecards.
      { exfalso. apply Hsplit; [now left|reflexivity]. }
      destruct (split_trials_total s (10 * 1000) pos)
        as (payoffs & pos1 & Hrun).
      rewrite (split_ev_run stream s rest dealer_card_val shoe_counts 1000
                 pos payoffs pos1 ltac:(lia) Hrun).
      eauto. }
    destruct Hev as (ev & trace & pos1 & Hev).
    rewrite (bind_ok _ _ _ _ _ Hev).
    apply IH.
    + intros a' Ha'. apply Hall. now right.
    + intros H. apply Hsplit. now right.
Qed.

End PlayerActionAnyHand.

(** X26. On a shoe that holds all 13 ranks and stands for 20 cards or
    more, [get_player_action] always returns, on any hand and upcard, Split
    included: the action returned is one of the offered actions, and the
    report closes on the line naming it. *)
Theorem get_player_action_returns_any_hand (stream : nat -> nat)
    (player_cards : list Z) (dealer_card_val : Z)
    (shoe_counts : gmap string Z)
    (is_first_turn is_split_hand : bool) (pos : nat) :
  shoe_complete shoe_counts ->
  (20 <= cards_in_shoe shoe_counts)%nat ->
  exists best lines pos',
    get_player_action stream player_cards dealer_card_val shoe_counts
      is_first_turn is_split_hand pos = Ok ((best, lines), pos') /\
    In best (legal_actions player_cards is_first_turn is_split_hand) /\
    last lines = Some (OptimalLine best).
Proof.
  intros Hcomplete Hcards.
  set (actions := legal_actions player_cards is_first_turn is_split_hand)
    in *.
  destruct (legal_actions_priority player_cards is_first_turn is_split_hand)
    as [Hord Hlen]. fold actions in Hord, Hlen.
  assert (Hprio : forall a, In a actions -> In a PRIORITY).
  { intros a Ha.
    exact (proj1 (priority_ordered_from_bounds 0 actions Hord a Ha)). }
  assert (Hsplit : In "Split"%string actions -> player_cards <> []).
  { intros H ->. unfold actions, legal_actions in H.
    destruct is_first_turn, is_split_hand; simpl in H;
      intuition discriminate. }
  destruct (evaluate_actions_any stream player_cards dealer_card_val
              shoe_counts Hcomplete Hcards actions Hprio Hsplit [] pos)
    as (evs & pos' & Hevs).
  pose proof (evaluate_actions_keys stream player_cards dealer_card_val
                shoe_counts actions [] pos evs pos'
                (priority_ordered_from_nodup 0 actions Hord) Hevs) as Hkeys.
  simpl in Hkeys.
  assert (Hne : evs <> []).
  { intros ->. simpl in Hkeys. rewrite <- Hkeys in Hlen. simpl in Hlen. lia. }
  destruct (select_best_member evs Hne) as (sel & Hsel & Hin).
  exists (best_action sel), (report evs sel), pos'.
  split; [|split].
  - unfold get_player_action. fold actions.
    rewrite (bind_ok _ _ _ _ _ Hevs). rewrite Hsel. reflexivity.
  - now rewrite <- Hkeys.
  - unfold report. apply last_snoc.
Qed.

Lemma get_player_action_returns_any_hand_witness :
  exists best lines pos',
    get_player_action sample_stream [8; 8] 10 (initialize_shoe_counts 6)
      true false O = Ok ((best, lines), pos') /\
    In best (legal_actions [8; 8] true false) /\
    last lines = Some (OptimalLine best).
Proof.
  apply (get_player_action_returns_any_hand sample_stream [8; 8] 10
           (initialize_shoe_counts 6) true false O).
  - apply initial_shoe_complete.
  - vm_compute. lia.
Defined.

(** ** The action [get_player_action] selects *)

(** C7. [get_player_action] ranks the EVs the estimator returns for the
    offered actions, which are always two or more, so that a hand with a
    single legal action never reaches the selecting lines.  Whenever it
    returns, the action returned has the greatest EV and, among the actions
    of that same EV, the first place in the order Stand, Hit, Double Down,
    Split; the runner-up is another action whose EV no action but the best
    exceeds, and the gap, printed in the report, is best EV minus runner-up
    EV.  On a shoe that holds all 13 ranks and stands for 20 cards or more
    it does return. *)
Theorem get_player_action_best_by_priority (stream : nat -> nat)
    (player_cards : list Z) (dealer_card_val : Z)
    (shoe_counts : gmap string Z) (is_first_turn is_split_hand : bool)
    (pos : nat) :
  (2 <= length (legal_actions player_cards is_first_turn is_split_hand))%nat
  /\
  (forall best lines pos',
     get_player_action stream player_cards dealer_card_val shoe_counts
       is_first_turn is_split_hand pos = Ok ((best, lines), pos') ->
     exists evs sel best_ev second second_ev,
       evaluate_actions stream player_cards dealer_card_val shoe_counts
         (legal_actions player_cards is_first_turn is_split_hand) [] pos =
         Ok (evs, pos') /\
       map fst evs = legal_actions player_cards is_first_turn is_split_hand /\
       select_best evs = Ok sel /\
       best = best_action sel /\
       lines = report evs sel /\
       In (best, best_ev) evs /\
       (forall a e, In (a, e) evs ->
          (e <= best_ev)%Q /\
          ((e == best_ev)%Q ->
           (position best PRIORITY <= position a PRIORITY)%nat)) /\
       second_best_action sel = Some second /\
       second <> best /\
       In (second, second_ev) evs /\
       (forall a e, In (a, e) evs -> a <> best -> (e <= second_ev)%Q) /\
       ev_diff sel = (best_ev - second_ev)%Q /\
       In (EvDiffLine (best_ev - second_ev)%Q second) lines) /\
  (shoe_complete shoe_counts ->
   (20 <= cards_in_shoe shoe_counts)%nat ->
   exists best lines pos',
     get_player_action stream player_cards dealer_card_val shoe_counts
       is_first_turn is_split_hand pos = Ok ((best, lines), pos')).
Proof.
  set (actions := legal_actions player_cards is_first_turn is_split_hand).
  destruct (legal_actions_priority player_cards is_first_turn is_split_hand)
    as [Hord Hlen]. fold actions in Hord, Hlen.
  split; [exact Hlen|]. split.
  - intros best lines pos'. unfold get_player_action. cbv zeta.
    fold actions. unfold bind at 1.
    destruct (evaluate_actions stream player_cards dealer_card_val
                shoe_counts actions [] pos) as [[evs pos1]|e] eqn:E;
      [|discriminate].
    unfold bind, lift. destruct (select_best evs) as [sel|e] eqn:Es;
      [|discriminate].
    unfold ret. intros [= <- <- <-].
    pose proof (evaluate_actions_keys stream player_cards dealer_card_val
                  shoe_counts actions [] pos evs pos1
                  (priority_ordered_from_nodup 0 actions Hord) E) as Hkeys.
    simpl in Hkeys.
    assert (Hlen2 : (2 <= length evs)%nat).
    { now rewrite <- (length_map fst), Hkeys. }
    destruct (select_best_ranked evs) as (sel' & best_ev & Hsel & Hin & Hmax
                                          & Htwo & _).
    { lia. }
    { now rewrite Hkeys. }
    rewrite Es in Hsel. injection Hsel as <-.
    destruct (Htwo Hlen2)
      as (second & second_ev & Hs & Hne & Hsin & Hrest & Hgap & Hline).
    exists evs, sel, best_ev, second, second_ev.
    repeat (split; [first [assumption | reflexivity]|]). exact Hline.
  - intros Hcomplete Hcards.
    assert (Hprio : forall a, In a actions -> In a PRIORITY).
    { intros a Ha.
      exact (proj1 (priority_ordered_from_bounds 0 actions Hord a Ha)). }
    assert (Hsplit : In "Split"%string actions -> player_cards <> []).
    { intros H ->. unfold actions, legal_actions in H.
      destruct is_first_turn, is_split_hand; simpl in H;
        intuition discriminate. }
    destruct (evaluate_actions_any stream player_cards dealer_card_val
                shoe_counts Hcomplete Hcards actions Hprio Hsplit [] pos)
      as (evs & pos' & Hevs).
    pose proof (evaluate_actions_keys stream player_cards dealer_card_val
                  shoe_counts actions [] pos evs pos'
                  (priority_ordered_from_nodup 0 actions Hord) Hevs)
      as Hkeys.
    simpl in Hkeys.
    assert (Hne : evs <> []).
    { intros ->. simpl in Hkeys. rewrite <- Hkeys in Hlen.
      simpl in Hlen. lia. }
    destruct (select_best_member evs Hne) as (sel & Hsel & _).
    exists (best_action sel), (report evs sel), pos'.
    unfold get_player_action. fold actions.
    rewrite (bind_ok _ _ _ _ _ Hevs). rewrite Hsel. reflexivity.
Qed.

(** The selection on a pair of eights against a ten, six decks: Split is
    among the four actions ranked. *)
Lemma get_player_action_best_by_priority_witness :
  exists best lines pos' evs sel best_ev second second_ev,
    get_player_action sample_stream [8; 8] 10 (initialize_shoe_counts 6)
      true false O = Ok ((best, lines), pos') /\
    map fst evs = ["Stand"; "Hit"; "Double Down"; "Split"]%string /\
    select_best evs = Ok sel /\
    best = best_action sel /\
    In (best, best_ev) evs /\
    (forall a e, In (a, e) evs -> (e <= best_ev)%Q) /\
    second_best_action sel = Some second /\
    ev_diff sel = (best_ev - second_ev)%Q.
Proof.
  destruct (get_player_action_best_by_priority sample_stream [8; 8] 10
              (initialize_shoe_counts 6) true false O)
    as (_ & Hsel & Hret).
  destruct Hret as (best & lines & pos' & Hrun).
  - apply initial_shoe_complete.
  - vm_compute. lia.
  - destruct (Hsel best lines pos' Hrun)
      as (evs & sel & best_ev & second & second_ev & _ & Hkeys & Hs & Hb
          & _ & Hin & Hmax & Hsec & _ & _ & _ & Hgap & _).
    exists best, lines, pos', evs, sel, best_ev, second, second_ev.
    repeat (split; [first [assumption | reflexivity]|]).
    split; [intros a e Ha; exact (proj1 (Hmax a e Ha))|].
    split; assumption.
Defined.

(** * The estimator on the store

    The run of [Store.monte_carlo_ev] on list and dict objects does what
    [monte_carlo_ev] does on values, and leaves the objects it was handed
    as they were. *)

Section StoreFacts.

Implicit Types (w : Store.world) (r : nat) (l : list Z).

Lemma store_wf_lt w r l : store_wf w -> Store.lists w !! r = Some l ->
  (r < Store.next_addr w)%nat.
Proof.
  intros Hwf Hr. destruct (Nat.lt_ge_cases r (Store.next_addr w)) as [H|H];
    [exact H|]. rewrite (Hwf r H) in Hr. discriminate.
Qed.

Lemma store_step_refl ts w : store_wf w -> store_step ts w w.
Proof. intros Hwf. repeat split; auto. Qed.

Lemma store_step_trans ts w1 w2 w3 :
  store_step ts w1 w2 -> store_step ts w2 w3 -> store_step ts w1 w3.
Proof.
  intros (Hn1 & Hd1 & Hl1 & _) (Hn2 & Hd2 & Hl2 & Hwf).
  split; [lia|]. split; [congruence|]. split; [|exact Hwf].
  intros r Hr Hts. rewrite Hl2 by (auto; lia). now apply Hl1.
Qed.

Lemma store_step_weaken ts ts' w w' :
  store_step ts w w' -> (forall r, In r ts -> In r ts') ->
  store_step ts' w w'.
Proof.
  intros (Hn & Hd & Hl & Hwf) Hincl. repeat split; auto.
Qed.

(** Objects made since [w] may change freely: [w] does not see them. *)
Lemma store_step_fresh ts w w' :
  store_step ts w w' ->
  (forall r, In r ts -> (Store.next_addr w <= r)%nat) ->
  store_step [] w w'.
Proof.
  intros (Hn & Hd & Hl & Hwf) Hfresh. repeat split; auto.
  intros r Hr _. apply Hl; [exact Hr|].
  intros Hin. apply Hfresh in Hin. lia.
Qed.

Lemma store_wf_update w r l l0 :
  store_wf w -> Store.lists w !! r = Some l0 -> store_wf (Store.update r l w).
Proof.
  intros Hwf Hr r' Hr'. simpl in *.
  rewrite lookup_insert_ne; [now apply Hwf|].
  intros <-. rewrite (Hwf r Hr') in Hr. discriminate.
Qed.

Lemma store_wf_alloc w l : store_wf w -> store_wf (Store.alloc l w).
Proof.
  intros Hwf r Hr. simpl in *.
  rewrite lookup_insert_ne by lia. apply Hwf. lia.
Qed.

Lemma store_step_update ts w r l l0 :
  store_wf w -> Store.lists w !! r = Some l0 -> In r ts ->
  store_step ts w (Store.update r l w).
Proof.
  intros Hwf Hr Hin. split; [simpl; lia|]. split; [reflexivity|].
  split; [|now apply (store_wf_update w r l l0)].
  intros r' _ Hts. simpl. apply lookup_insert_ne. now intros <-.
Qed.

Lemma store_step_alloc ts w l : store_wf w -> store_step ts w (Store.alloc l w).
Proof.
  intros Hwf. split; [simpl; lia|]. split; [reflexivity|].
  split; [|now apply store_wf_alloc].
  intros r Hr _. simpl. apply lookup_insert_ne. lia.
Qed.

Lemma store_step_reseed ts w pos : store_wf w -> store_step ts w (Store.reseed pos w).
Proof. intros Hwf. repeat split; auto. Qed.

Lemma store_step_tick ts w : store_wf w -> store_step ts w (Store.tick w).
Proof. intros Hwf. repeat split; auto. Qed.

Lemma store_step_wf ts w w' : store_step ts w w' -> store_wf w'.
Proof. now intros (_ & _ & _ & H). Qed.

Lemma store_step_list w w' r l :
  store_step [] w w' -> store_wf w -> Store.lists w !! r = Some l ->
  Store.lists w' !! r = Some l.
Proof.
  intros (_ & _ & Hl & _) Hwf Hr. rewrite Hl; [exact Hr| |auto].
  now apply (store_wf_lt w r l).
Qed.

Lemma store_step_dict w w' ts r d :
  store_step ts w w' -> Store.dicts w !! r = Some d -> Store.dicts w' !! r = Some d.
Proof. intros (_ & Hd & _) Hr. now rewrite Hd. Qed.

(** *** What the list operations do *)

Lemma bind_read {B} r l (k : list Z -> Store.St B) w :
  Store.lists w !! r = Some l -> Store.bind (Store.read r) k w = k l w.
Proof. intros H. cbv [Store.bind Store.read]. repeat (rewrite H; cbv beta iota). reflexivity. Qed.

Lemma bind_on_list {A B} (f : list Z -> A) r l (k : A -> Store.St B) w :
  Store.lists w !! r = Some l -> Store.bind (Store.on_list f r) k w = k (f l) w.
Proof. intros H. cbv [Store.bind Store.on_list Store.read Store.ret]. repeat (rewrite H; cbv beta iota). reflexivity. Qed.

Lemma on_list_at {A} (f : list Z -> A) r l w :
  Store.lists w !! r = Some l -> Store.on_list f r w = Store.Done (f l) w.
Proof. intros H. cbv [Store.on_list Store.bind Store.read Store.ret]. repeat (rewrite H; cbv beta iota). reflexivity. Qed.

Lemma bind_new_list {B} l (k : nat -> Store.St B) w :
  Store.bind (Store.new_list l) k w = k (Store.next_addr w) (Store.alloc l w).
Proof. reflexivity. Qed.

Lemma bind_copy {B} r l (k : nat -> Store.St B) w :
  Store.lists w !! r = Some l -> Store.bind (Store.copy r) k w = k (Store.next_addr w) (Store.alloc l w).
Proof. intros H. cbv [Store.bind Store.copy Store.read Store.new_list]. repeat (rewrite H; cbv beta iota). reflexivity. Qed.

Lemma bind_append {B} r l v (k : unit -> Store.St B) w :
  Store.lists w !! r = Some l ->
  Store.bind (Store.append r v) k w = k tt (Store.update r (l ++ [v]) w).
Proof. intros H. cbv [Store.bind Store.append Store.read Store.write]. repeat (rewrite H; cbv beta iota). reflexivity. Qed.

Lemma bind_extend {B} r l vs (k : unit -> Store.St B) w :
  Store.lists w !! r = Some l ->
  Store.bind (Store.extend r vs) k w = k tt (Store.update r (l ++ vs) w).
Proof. intros H. cbv [Store.bind Store.extend Store.read Store.write]. repeat (rewrite H; cbv beta iota). reflexivity. Qed.

Lemma bind_remove {B} r l v (k : unit -> Store.St B) w :
  Store.lists w !! r = Some l -> py_in v l = true ->
  Store.bind (Store.remove r v) k w = k tt (Store.update r (remove_first v l) w).
Proof.
  intros H Hin. cbv [Store.bind Store.remove Store.read Store.write Store.lift list_remove].
  rewrite H, Hin. cbv beta iota. now rewrite H.
Qed.

Lemma update_id w r l : Store.lists w !! r = Some l -> Store.update r l w = w.
Proof.
  intros H. destruct w as [ls ds n p c]. unfold Store.update. simpl in *.
  now rewrite insert_id.
Qed.

Lemma bind_discard {B} r l v (k : unit -> Store.St B) w :
  Store.lists w !! r = Some l ->
  Store.bind (Store.discard r v) k w = k tt (Store.update r (discard_if_present v l) w).
Proof.
  intros H. unfold Store.discard, discard_if_present.
  unfold Store.bind at 1. rewrite (bind_on_list _ r l _ w H).
  destruct (py_in v l) eqn:E.
  - change (Store.bind (Store.remove r v) k w = k tt (Store.update r (remove_first v l) w)).
    now apply bind_remove.
  - cbv [Store.ret]. now rewrite (update_id w r l H).
Qed.

Lemma bind_time {B} (now : nat -> Q) (k : Q -> Store.St B) w :
  Store.bind (Store.time_time now) k w = k (now (Store.clock_reads w)) (Store.tick w).
Proof. reflexivity. Qed.

Lemma bind_random_choice {B} stream r l x pos' (k : Z -> Store.St B) w :
  Store.lists w !! r = Some l ->
  choice stream l (Store.rng_pos w) = Ok (x, pos') ->
  Store.bind (Store.random_choice stream r) k w = k x (Store.reseed pos' w).
Proof.
  intros H Hc. cbv [Store.bind Store.random_choice Store.read]. rewrite H. cbv beta iota. now rewrite Hc.
Qed.

Lemma bind_lift_ok {A B} (a : A) (k : A -> Store.St B) w :
  Store.bind (Store.lift (Ok a)) k w = k a w.
Proof. reflexivity. Qed.

Lemma bind_lift_err {A B} (e : exn) (k : A -> Store.St B) w :
  Store.bind (Store.lift (Err e)) k w = Store.Raised e.
Proof. reflexivity. Qed.

Lemma bind_ret {A B} (a : A) (k : A -> Store.St B) w :
  Store.bind (Store.ret a) k w = k a w.
Proof. reflexivity. Qed.

Lemma bind_read_dict {B} r d (k : gmap string Z -> Store.St B) w :
  Store.dicts w !! r = Some d -> Store.bind (Store.read_dict r) k w = k d w.
Proof. intros H. cbv [Store.bind Store.read_dict]. now rewrite H. Qed.

(** *** Rules for [refines] *)

Lemma refines_step {A B} (h h' : Store.St A) (m m' : M B) w w' post :
  h w = h' w' -> m (Store.rng_pos w) = m' (Store.rng_pos w') ->
  refines h' m' w' post -> refines h m w post.
Proof. unfold refines. now intros -> ->. Qed.

Lemma refines_weaken {A B} (h : Store.St A) (m : M B) w (P Q : A -> B -> Store.world -> Prop) :
  refines h m w P -> (forall a b w', P a b w' -> Q a b w') ->
  refines h m w Q.
Proof.
  unfold refines. destruct (m (Store.rng_pos w)) as [[b pos']|e]; [|auto].
  intros (a & w' & H1 & H2 & H3) HPQ. eauto 6.
Qed.

Lemma refines_bind {A A' B B'} (h : Store.St A) (k : A -> Store.St A') (m : M B)
    (k' : B -> M B') w (P : A -> B -> Store.world -> Prop) Q :
  refines h m w P ->
  (forall a b w', P a b w' -> refines (k a) (k' b) w' Q) ->
  refines (Store.bind h k) (bind m k') w Q.
Proof.
  unfold refines, Store.bind, bind.
  destruct (m (Store.rng_pos w)) as [[b pos']|e].
  - intros (a & w' & -> & <- & HP) Hk. apply (Hk a b w' HP).
  - now intros ->.
Qed.

Lemma refines_ret {A B} (a : A) (b : B) w (P : A -> B -> Store.world -> Prop) :
  P a b w -> refines (Store.ret a) (ret b) w P.
Proof. intros H. unfold refines. simpl. eauto. Qed.

Lemma refines_lift {A} (x : result A) w (P : A -> A -> Store.world -> Prop) :
  (forall a, x = Ok a -> P a a w) ->
  refines (Store.lift x) (lift x) w P.
Proof.
  intros H. unfold refines, Store.lift, lift.
  destruct x as [a|e]; [|reflexivity].
  exists a, w. split; [reflexivity|]. split; [reflexivity|]. now apply H.
Qed.

End StoreFacts.

Section StoreRefinement.

Variable stream : nat -> nat.
Variable now : nat -> Q.

Implicit Types (w : Store.world) (r : nat) (l : list Z).

Lemma update_update w r l l' :
  Store.update r l (Store.update r l' w) = Store.update r l w.
Proof. unfold Store.update. simpl. now rewrite insert_insert_eq. Qed.

Lemma update_alloc w l l' :
  Store.update (Store.next_addr w) l (Store.alloc l' w) = Store.alloc l w.
Proof. unfold Store.update, Store.alloc. simpl. now rewrite insert_insert_eq. Qed.

Lemma lists_update_eq w r l : Store.lists (Store.update r l w) !! r = Some l.
Proof. apply lookup_insert_eq. Qed.

Lemma lists_update_ne w r r' l :
  r <> r' -> Store.lists (Store.update r l w) !! r' = Store.lists w !! r'.
Proof. apply lookup_insert_ne. Qed.

Lemma lists_alloc_eq w l :
  Store.lists (Store.alloc l w) !! Store.next_addr w = Some l.
Proof. apply lookup_insert_eq. Qed.

Lemma lists_alloc_ne w r l l0 :
  store_wf w -> Store.lists w !! r = Some l0 ->
  Store.lists (Store.alloc l w) !! r = Some l0.
Proof.
  intros Hwf Hr. simpl. rewrite lookup_insert_ne; [exact Hr|].
  pose proof (store_wf_lt w r l0 Hwf Hr). lia.
Qed.

(** *** [build_shoe_list] *)

Lemma build_shoe_from_store ranks :
  forall w s shoe r acc,
    Store.dicts w !! s = Some shoe -> Store.lists w !! r = Some acc ->
    match build_shoe_from ranks shoe acc with
    | Ok built =>
        Store.build_shoe_from ranks s r w =
          Store.Done tt (Store.update r built w)
    | Err e => Store.build_shoe_from ranks s r w = Store.Raised e
    end.
Proof.
  induction ranks as [|rank ranks IH]; intros w s shoe r acc Hs Hr.
  - simpl. unfold Store.ret. now rewrite (update_id w r acc Hr).
  - cbn [build_shoe_from Store.build_shoe_from].
    rewrite (bind_read_dict s shoe _ w Hs). unfold dict_get.
    destruct (shoe !! rank) as [count|];
      [rewrite bind_lift_ok|now rewrite bind_lift_err].
    destruct (RANK_TO_VALUE !! rank) as [val|];
      [rewrite bind_lift_ok|now rewrite bind_lift_err].
    destruct (0 <? count).
    + rewrite (bind_extend r acc _ _ w Hr).
      specialize (IH (Store.update r (acc ++ replicate (Z.to_nat count) val) w)
                    s shoe r (acc ++ replicate (Z.to_nat count) val) Hs
                    (lists_update_eq _ _ _)).
      destruct (build_shoe_from ranks shoe _) as [built|e]; [|exact IH].
      now rewrite update_update in IH.
    + rewrite bind_ret. apply (IH w s shoe r acc Hs Hr).
Qed.

Lemma build_shoe_list_store w s shoe :
  Store.dicts w !! s = Some shoe ->
  match build_shoe_list shoe with
  | Ok built =>
      Store.build_shoe_list s w =
        Store.Done (Store.next_addr w) (Store.alloc built w)
  | Err e => Store.build_shoe_list s w = Store.Raised e
  end.
Proof.
  intros Hs. unfold build_shoe_list, Store.build_shoe_list.
  rewrite bind_new_list.
  pose proof (build_shoe_from_store ALL_RANKS (Store.alloc [] w) s shoe
                (Store.next_addr w) [] Hs (lists_alloc_eq w [])) as H.
  destruct (build_shoe_from ALL_RANKS shoe []) as [built|e];
    unfold Store.bind; rewrite H; [|reflexivity].
  unfold Store.ret. now rewrite update_alloc.
Qed.

(** *** [simulate_dealer_hand_once] *)

Lemma dealer_loop_refines fuel :
  forall w dc ls cards shoe,
    store_wf w ->
    Store.lists w !! dc = Some cards -> Store.lists w !! ls = Some shoe ->
    dc <> ls ->
    refines (Store.dealer_loop stream fuel dc ls)
      (dealer_loop stream fuel cards shoe) w
      (fun _ '(cards', shoe') w' =>
         Store.lists w' !! dc = Some cards' /\
         Store.lists w' !! ls = Some shoe' /\
         store_step [dc; ls] w w').
Proof.
  induction fuel as [|fuel IH]; intros w dc ls cards shoe Hwf Hdc Hls Hne.
  - unfold refines. reflexivity.
  - destruct ((hand_value cards <? DEALER_STAND) && negb (py_not shoe))
      eqn:Hcond.
    + apply andb_true_iff in Hcond as Hc. destruct Hc as [_ Hshoe].
      apply negb_true_iff, py_not_false in Hshoe.
      destruct (choice_nonempty stream shoe (Store.rng_pos w) Hshoe)
        as (x & Hx & Hin).
      set (w1 := Store.reseed (S (Store.rng_pos w)) w).
      set (w2 := Store.update ls (remove_first x shoe) w1).
      set (w3 := Store.update dc (cards ++ [x]) w2).
      assert (Hwf1 : store_wf w1) by exact Hwf.
      assert (Hwf2 : store_wf w2) by now apply (store_wf_update w1 ls _ shoe).
      assert (Hdc2 : Store.lists w2 !! dc = Some cards).
      { unfold w2. rewrite lists_update_ne by auto. exact Hdc. }
      assert (Hwf3 : store_wf w3) by now apply (store_wf_update w2 dc _ cards).
      eapply (refines_step _ (Store.dealer_loop stream fuel dc ls) _
                (dealer_loop stream fuel (cards ++ [x])
                   (remove_first x shoe)) w w3).
      * cbn [Store.dealer_loop].
        rewrite (bind_on_list _ dc cards _ w Hdc).
        rewrite (bind_on_list _ ls shoe _ w Hls). rewrite Hcond.
        rewrite (bind_random_choice stream ls shoe x _ _ w Hls Hx).
        fold w1.
        rewrite (bind_remove ls shoe x _ w1 Hls Hin). fold w2.
        rewrite (bind_append dc cards x _ w2 Hdc2). reflexivity.
      * cbn [dealer_loop]. rewrite Hcond.
        rewrite (bind_ok _ _ _ _ _ Hx). unfold list_remove. rewrite Hin.
        reflexivity.
      * eapply refines_weaken.
        -- apply (IH w3 dc ls); [exact Hwf3| | |exact Hne].
           ++ apply lists_update_eq.
           ++ unfold w3. rewrite lists_update_ne by auto.
              apply lists_update_eq.
        -- intros _ [cards' shoe'] w' (H1 & H2 & Hstep).
           split; [exact H1|]. split; [exact H2|].
           apply (store_step_trans _ w w3 w'); [|exact Hstep].
           apply (store_step_trans _ w w2 w3).
           ++ apply (store_step_trans _ w w1 w2).
              ** now apply store_step_reseed.
              ** apply (store_step_update _ w1 ls _ shoe); simpl; auto.
           ++ apply (store_step_update _ w2 dc _ cards); simpl; auto.
    + eapply (refines_step _ (Store.ret tt) _ (ret (cards, shoe)) w w).
      * cbn [Store.dealer_loop].
        rewrite (bind_on_list _ dc cards _ w Hdc).
        rewrite (bind_on_list _ ls shoe _ w Hls). now rewrite Hcond.
      * cbn [dealer_loop]. now rewrite Hcond.
      * apply refines_ret. split; [exact Hdc|]. split; [exact Hls|].
        now apply store_step_refl.
Qed.

Lemma simulate_dealer_hand_once_refines w sl shoe_list dealer_card_val :
  store_wf w -> Store.lists w !! sl = Some shoe_list ->
  refines (Store.simulate_dealer_hand_once stream dealer_card_val sl)
    (simulate_dealer_hand_once stream dealer_card_val shoe_list) w
    (fun t t' w' => t = t' /\ store_step [] w w').
Proof.
  intros Hwf Hsl.
  set (ls := Store.next_addr w).
  set (w1 := Store.alloc shoe_list w).
  set (w2 := Store.update ls (discard_if_present dealer_card_val shoe_list) w1).
  set (dc := S ls).
  set (w3 := Store.alloc [dealer_card_val] w2).
  assert (Hwf1 : store_wf w1) by now apply store_wf_alloc.
  assert (Hls1 : Store.lists w1 !! ls = Some shoe_list)
    by apply lists_alloc_eq.
  assert (Hwf2 : store_wf w2) by now apply (store_wf_update w1 ls _ shoe_list).
  assert (Hwf3 : store_wf w3) by now apply store_wf_alloc.
  assert (Hls3 : Store.lists w3 !! ls =
                 Some (discard_if_present dealer_card_val shoe_list)).
  { apply (lists_alloc_ne w2); [exact Hwf2|]. apply lists_update_eq. }
  assert (Hdc3 : Store.lists w3 !! dc = Some [dealer_card_val])
    by apply (lists_alloc_eq w2).
  assert (Hsl3 : Store.lists w3 !! sl = Some shoe_list).
  { apply (lists_alloc_ne w2); [exact Hwf2|].
    unfold w2. rewrite lists_update_ne.
    - now apply lists_alloc_ne.
    - pose proof (store_wf_lt w sl _ Hwf Hsl). unfold ls. lia. }
  assert (Hstep3 : store_step [dc; ls] w w3).
  { apply (store_step_trans _ w w1 w3); [now apply store_step_alloc|].
    apply (store_step_trans _ w1 w2 w3); [|now apply store_step_alloc].
    apply (store_step_update _ w1 ls _ shoe_list); simpl; auto. }
  eapply (refines_step _
            (Store.bind (Store.dealer_loop stream (loop_fuel shoe_list) dc ls)
               (fun _ => Store.on_list hand_value dc))
            _ (simulate_dealer_hand_once stream dealer_card_val shoe_list)
            w w3).
  - unfold Store.simulate_dealer_hand_once.
    rewrite (bind_copy sl shoe_list _ w Hsl). fold ls w1.
    rewrite (bind_discard ls shoe_list dealer_card_val _ w1 Hls1). fold w2.
    rewrite bind_new_list.
    change (Store.next_addr w2) with dc. fold w3.
    rewrite (bind_on_list _ sl shoe_list _ w3 Hsl3). reflexivity.
  - reflexivity.
  - unfold simulate_dealer_hand_once, dealer_playout, dealer_pool.
    eapply refines_bind.
    + apply (dealer_loop_refines _ w3 dc ls); auto; unfold dc; lia.
    + intros _ [cards' shoe'] w' (H1 & H2 & Hstep).
      eapply (refines_step _ (Store.ret (hand_value cards')) _
                (ret (hand_value cards')) w' w').
      * now apply on_list_at.
      * reflexivity.
      * apply refines_ret. split; [reflexivity|].
        apply (store_step_fresh [dc; ls]).
        -- now apply (store_step_trans _ w w3 w').
        -- intros r [<-|[<-|[]]]; unfold dc, ls; lia.
Qed.

(** *** [play_out_hand] *)

Lemma play_out_loop_refines fuel :
  forall w p ld cards deck,
    store_wf w ->
    Store.lists w !! p = Some cards -> Store.lists w !! ld = Some deck ->
    p <> ld ->
    refines (Store.play_out_loop stream fuel p ld)
      (play_out_loop stream fuel cards deck) w
      (fun _ '(cards', deck') w' =>
         Store.lists w' !! p = Some cards' /\
         Store.lists w' !! ld = Some deck' /\
         store_step [p; ld] w w').
Proof.
  induction fuel as [|fuel IH]; intros w p ld cards deck Hwf Hp Hld Hne.
  - unfold refines. reflexivity.
  - destruct (17 <=? hand_value cards) eqn:Hstand.
    { eapply (refines_step _ (Store.ret tt) _ (ret (cards, deck)) w w).
      - cbn [Store.play_out_loop].
        rewrite (bind_on_list _ p cards _ w Hp). now rewrite Hstand.
      - cbn [play_out_loop]. now rewrite Hstand.
      - apply refines_ret. split; [exact Hp|]. split; [exact Hld|].
        now apply store_step_refl. }
    destruct (py_not deck) eqn:Hempty.
    { eapply (refines_step _ (Store.ret tt) _ (ret (cards, deck)) w w).
      - cbn [Store.play_out_loop].
        rewrite (bind_on_list _ p cards _ w Hp). rewrite Hstand.
        rewrite (bind_on_list _ ld deck _ w Hld). now rewrite Hempty.
      - cbn [play_out_loop]. now rewrite Hstand, Hempty.
      - apply refines_ret. split; [exact Hp|]. split; [exact Hld|].
        now apply store_step_refl. }
    apply py_not_false in Hempty as Hdeck.
    destruct (choice_nonempty stream deck (Store.rng_pos w) Hdeck)
      as (x & Hx & Hin).
    set (w1 := Store.reseed (S (Store.rng_pos w)) w).
    set (w2 := Store.update ld (remove_first x deck) w1).
    set (w3 := Store.update p (cards ++ [x]) w2).
    assert (Hwf1 : store_wf w1) by exact Hwf.
    assert (Hwf2 : store_wf w2) by now apply (store_wf_update w1 ld _ deck).
    assert (Hp2 : Store.lists w2 !! p = Some cards).
    { unfold w2. rewrite lists_update_ne by auto. exact Hp. }
    assert (Hwf3 : store_wf w3) by now apply (store_wf_update w2 p _ cards).
    assert (Hp3 : Store.lists w3 !! p = Some (cards ++ [x]))
      by apply lists_update_eq.
    assert (Hld3 : Store.lists w3 !! ld = Some (remove_first x deck)).
    { unfold w3. rewrite lists_update_ne by auto. apply lists_update_eq. }
    assert (Hstep3 : store_step [p; ld] w w3).
    { apply (store_step_trans _ w w2 w3).
      - apply (store_step_trans _ w w1 w2).
        + now apply store_step_reseed.
        + apply (store_step_update _ w1 ld _ deck); simpl; auto.
      - apply (store_step_update _ w2 p _ cards); simpl; auto. }
    destruct (BLACKJACK <? hand_value (cards ++ [x])) eqn:Hbust.
    + eapply (refines_step _ (Store.ret tt) _
                (ret (cards ++ [x], remove_first x deck)) w w3).
      * cbn [Store.play_out_loop].
        rewrite (bind_on_list _ p cards _ w Hp). rewrite Hstand.
        rewrite (bind_on_list _ ld deck _ w Hld). rewrite Hempty.
        rewrite (bind_random_choice stream ld deck x _ _ w Hld Hx).
        fold w1.
        rewrite (bind_remove ld deck x _ w1 Hld Hin). fold w2.
        rewrite (bind_append p cards x _ w2 Hp2). fold w3.
        rewrite (bind_on_list _ p _ _ w3 Hp3). now rewrite Hbust.
      * cbn [play_out_loop]. rewrite Hstand, Hempty.
        rewrite (bind_ok _ _ _ _ _ Hx). unfold list_remove. rewrite Hin.
        unfold bind at 1, lift at 1. now rewrite Hbust.
      * apply refines_ret. auto.
    + eapply (refines_step _ (Store.play_out_loop stream fuel p ld) _
                (play_out_loop stream fuel (cards ++ [x])
                   (remove_first x deck)) w w3).
      * cbn [Store.play_out_loop].
        rewrite (bind_on_list _ p cards _ w Hp). rewrite Hstand.
        rewrite (bind_on_list _ ld deck _ w Hld). rewrite Hempty.
        rewrite (bind_random_choice stream ld deck x _ _ w Hld Hx).
        fold w1.
        rewrite (bind_remove ld deck x _ w1 Hld Hin). fold w2.
        rewrite (bind_append p cards x _ w2 Hp2). fold w3.
        rewrite (bind_on_list _ p _ _ w3 Hp3). now rewrite Hbust.
      * cbn [play_out_loop]. rewrite Hstand, Hempty.
        rewrite (bind_ok _ _ _ _ _ Hx). unfold list_remove. rewrite Hin.
        unfold bind at 1, lift at 1. now rewrite Hbust.
      * eapply refines_weaken.
        -- apply (IH w3 p ld); auto.
        -- intros _ [cards' deck'] w' (H1 & H2 & Hstep).
           split; [exact H1|]. split; [exact H2|].
           now apply (store_step_trans _ w w3 w').
Qed.

Lemma play_out_hand_refines w p ld cards deck :
  store_wf w ->
  Store.lists w !! p = Some cards -> Store.lists w !! ld = Some deck ->
  p <> ld ->
  refines (Store.play_out_hand stream p ld) (play_out_hand stream cards deck)
    w
    (fun a '(cards', deck') w' =>
       a = p /\
       Store.lists w' !! p = Some cards' /\
       Store.lists w' !! ld = Some deck' /\
       store_step [p; ld] w w').
Proof.
  intros Hwf Hp Hld Hne.
  eapply (refines_step _
            (Store.bind (Store.play_out_loop stream (loop_fuel deck) p ld)
               (fun _ => Store.ret p))
            _ (bind (play_out_loop stream (loop_fuel deck) cards deck) ret)
            w w).
  - unfold Store.play_out_hand.
    now rewrite (bind_on_list _ ld deck _ w Hld).
  - unfold play_out_hand, bind.
    destruct (play_out_loop _ _ _ _ _) as [[[? ?] ?]|]; reflexivity.
  - eapply refines_bind.
    + now apply play_out_loop_refines.
    + intros _ [cards' deck'] w' H. apply refines_ret. auto.
Qed.

Lemma store_step_compose ts1 ts2 ts w1 w2 w3 :
  store_step ts1 w1 w2 -> store_step ts2 w2 w3 ->
  (forall r, In r ts1 -> In r ts) -> (forall r, In r ts2 -> In r ts) ->
  store_step ts w1 w3.
Proof.
  intros H1 H2 Hi1 Hi2.
  apply (store_step_trans ts w1 w2 w3); eapply store_step_weaken; eauto.
Qed.

Lemma bind_done {A B} (h : Store.St A) (k : A -> Store.St B) w a w' :
  h w = Store.Done a w' -> Store.bind h k w = k a w'.
Proof. intros H. unfold Store.bind. now rewrite H. Qed.

Lemma bind_raised {A B} (h : Store.St A) (k : A -> Store.St B) w e :
  h w = Store.Raised e -> Store.bind h k w = Store.Raised e.
Proof. intros H. unfold Store.bind. now rewrite H. Qed.

(** *** [simulate_dealer_hands] *)

Lemma dealer_totals_loop_refines dealer_card_val sl ft built n :
  forall w acc,
    store_wf w ->
    Store.lists w !! sl = Some built -> Store.lists w !! ft = Some acc ->
    sl <> ft ->
    refines (Store.dealer_totals_loop stream n dealer_card_val sl ft)
      (dealer_totals_loop stream n dealer_card_val built acc) w
      (fun _ totals w' =>
         Store.lists w' !! ft = Some totals /\ store_step [ft] w w').
Proof.
  induction n as [|n IH]; intros w acc Hwf Hsl Hft Hne.
  - apply refines_ret. split; [exact Hft|now apply store_step_refl].
  - cbn [Store.dealer_totals_loop dealer_totals_loop].
    eapply refines_bind.
    + now apply (simulate_dealer_hand_once_refines w sl built).
    + intros t t' w1 [<- Hstep1].
      pose proof (store_step_wf _ _ _ Hstep1) as Hwf1.
      pose proof (store_step_list _ _ _ _ Hstep1 Hwf Hsl) as Hsl1.
      pose proof (store_step_list _ _ _ _ Hstep1 Hwf Hft) as Hft1.
      eapply (refines_step _
                (Store.dealer_totals_loop stream n dealer_card_val sl ft) _
                (dealer_totals_loop stream n dealer_card_val built
                   (acc ++ [t]))
                w1 (Store.update ft (acc ++ [t]) w1)).
      * now rewrite (bind_append ft acc t _ w1 Hft1).
      * reflexivity.
      * eapply refines_weaken.
        -- apply IH.
           ++ now apply (store_wf_update w1 ft _ acc).
           ++ rewrite lists_update_ne by auto. exact Hsl1.
           ++ apply lists_update_eq.
           ++ exact Hne.
        -- intros _ totals w' [H1 Hstep].
           split; [exact H1|].
           apply (store_step_compose [] [ft] [ft] w w1 w');
             [exact Hstep1| |simpl; tauto|auto].
           apply (store_step_trans _ w1 (Store.update ft (acc ++ [t]) w1) w');
             [|exact Hstep].
           apply (store_step_update _ w1 ft _ acc); simpl; auto.
Qed.

Lemma simulate_dealer_hands_refines w s shoe dealer_card_val n :
  store_wf w -> Store.dicts w !! s = Some shoe ->
  refines (Store.simulate_dealer_hands stream dealer_card_val s n)
    (simulate_dealer_hands stream dealer_card_val shoe n) w
    (fun a totals w' =>
       Store.lists w' !! a = Some totals /\ store_step [] w w').
Proof.
  intros Hwf Hs.
  pose proof (build_shoe_list_store w s shoe Hs) as Hbuild.
  unfold simulate_dealer_hands, Store.simulate_dealer_hands.
  destruct (build_shoe_list shoe) as [built|e].
  - set (sl := Store.next_addr w). set (w1 := Store.alloc built w).
    set (ft := S sl). set (w2 := Store.alloc [] w1).
    assert (Hwf1 : store_wf w1) by now apply store_wf_alloc.
    assert (Hwf2 : store_wf w2) by now apply store_wf_alloc.
    eapply (refines_step _
              (Store.bind
                 (Store.dealer_totals_loop stream n dealer_card_val sl ft)
                 (fun _ => Store.ret ft))
              _ (bind (dealer_totals_loop stream n dealer_card_val built [])
                   ret)
              w w2).
    + rewrite (bind_done _ _ _ _ _ Hbuild). fold sl w1.
      now rewrite bind_new_list.
    + unfold bind, lift.
      destruct (dealer_totals_loop _ _ _ _ _ _) as [[? ?]|]; reflexivity.
    + eapply refines_bind.
      * apply (dealer_totals_loop_refines _ sl ft built n w2 []).
        -- exact Hwf2.
        -- apply (lists_alloc_ne w1); [exact Hwf1|apply lists_alloc_eq].
        -- apply (lists_alloc_eq w1).
        -- unfold ft. lia.
      * intros _ totals w' [H1 Hstep]. apply refines_ret.
        split; [exact H1|].
        apply (store_step_fresh [ft]).
        -- apply (store_step_compose [] [ft] [ft] w w2 w');
             [|exact Hstep|simpl; tauto|auto].
           apply (store_step_trans _ w w1 w2); now apply store_step_alloc.
        -- intros r [<-|[]]. unfold ft, sl. lia.
  - unfold refines. simpl. now apply bind_raised.
Qed.

(** *** The trials *)

Lemma take_known_store vals :
  forall w ls tmp shoe acc,
    store_wf w ->
    Store.lists w !! ls = Some shoe -> Store.lists w !! tmp = Some acc ->
    ls <> tmp ->
    exists w',
      Store.take_known vals ls tmp w = Store.Done tt w' /\
      Store.rng_pos w' = Store.rng_pos w /\
      Store.lists w' !! ls = Some (remove_known vals shoe) /\
      Store.lists w' !! tmp = Some (acc ++ vals) /\
      store_step [ls; tmp] w w'.
Proof.
  induction vals as [|v vals IH]; intros w ls tmp shoe acc Hwf Hls Htmp Hne.
  - exists w. rewrite app_nil_r.
    split; [reflexivity|]. split; [reflexivity|]. split; [exact Hls|].
    split; [exact Htmp|now apply store_step_refl].
  - cbn [Store.take_known].
    rewrite (bind_discard ls shoe v _ w Hls).
    set (w1 := Store.update ls (discard_if_present v shoe) w).
    assert (Hwf1 : store_wf w1) by now apply (store_wf_update w ls _ shoe).
    assert (Htmp1 : Store.lists w1 !! tmp = Some acc).
    { unfold w1. rewrite lists_update_ne by auto. exact Htmp. }
    rewrite (bind_append tmp acc v _ w1 Htmp1).
    set (w2 := Store.update tmp (acc ++ [v]) w1).
    destruct (IH w2 ls tmp (discard_if_present v shoe) (acc ++ [v]))
      as (w' & Hrun & Hrng & H1 & H2 & Hstep).
    + now apply (store_wf_update w1 tmp _ acc).
    + unfold w2. rewrite lists_update_ne by auto. apply lists_update_eq.
    + apply lists_update_eq.
    + exact Hne.
    + exists w'. split; [exact Hrun|]. split; [exact Hrng|].
      split; [exact H1|]. split; [now rewrite <- app_assoc in H2|].
      apply (store_step_trans _ w w2 w'); [|exact Hstep].
      apply (store_step_trans _ w w1 w2).
      * apply (store_step_update _ w ls _ shoe); simpl; auto.
      * apply (store_step_update _ w1 tmp _ acc); simpl; auto.
Qed.

(** The opening of a Hit or a Double Down trial: the pool is built, the
    player's cards and the upcard are taken out of it, and [tmp_cards]
    holds the player's cards. *)
Lemma trial_opening w p cards s shoe dealer_card_val built
    {B} (k : nat -> nat -> Store.St B) :
  store_holds w p cards s shoe ->
  build_shoe_list shoe = Ok built ->
  exists w',
    (Store.bind (Store.build_shoe_list s)
       (fun local_shoe =>
          Store.bind (Store.new_list [])
            (fun tmp_cards =>
               Store.bind (Store.read p)
                 (fun vals =>
                    Store.bind (Store.take_known vals local_shoe tmp_cards)
                      (fun _ =>
                         Store.bind (Store.discard local_shoe dealer_card_val)
                           (fun _ => k local_shoe tmp_cards)))))) w =
      k (Store.next_addr w) (S (Store.next_addr w)) w' /\
    Store.rng_pos w' = Store.rng_pos w /\
    Store.lists w' !! Store.next_addr w =
      Some (discard_if_present dealer_card_val (remove_known cards built)) /\
    Store.lists w' !! S (Store.next_addr w) = Some cards /\
    store_step [Store.next_addr w; S (Store.next_addr w)] w w'.
Proof.
  intros (Hwf & Hp & Hs) Hbuilt.
  pose proof (build_shoe_list_store w s shoe Hs) as Hbuild.
  rewrite Hbuilt in Hbuild.
  set (ls := Store.next_addr w) in *. set (w1 := Store.alloc built w) in *.
  set (tmp := S ls). set (w2 := Store.alloc [] w1).
  assert (Hwf1 : store_wf w1) by now apply store_wf_alloc.
  assert (Hwf2 : store_wf w2) by now apply store_wf_alloc.
  assert (Hp2 : Store.lists w2 !! p = Some cards).
  { apply (lists_alloc_ne w1); [exact Hwf1|]. now apply lists_alloc_ne. }
  destruct (take_known_store cards w2 ls tmp built [])
    as (w3 & Hrun & Hrng & H1 & H2 & Hstep);
    [exact Hwf2
    |apply (lists_alloc_ne w1); [exact Hwf1|apply lists_alloc_eq]
    |apply (lists_alloc_eq w1)
    |unfold tmp; lia
    |].
  exists (Store.update ls
            (discard_if_present dealer_card_val (remove_known cards built))
            w3).
  pose proof (store_step_wf _ _ _ Hstep) as Hwf3.
  split; [|split; [exact Hrng|split; [apply lists_update_eq|split]]].
  - rewrite (bind_done _ _ _ _ _ Hbuild). rewrite bind_new_list.
    change (Store.next_addr w1) with tmp. fold w2.
    rewrite (bind_read p cards _ w2 Hp2).
    rewrite (bind_done _ _ _ _ _ Hrun).
    now rewrite (bind_discard ls _ dealer_card_val _ w3 H1).
  - rewrite lists_update_ne by (unfold tmp; lia). exact H2.
  - apply (store_step_trans _ w w2).
    + apply (store_step_trans _ w w1); now apply store_step_alloc.
    + apply (store_step_trans _ w2 w3); [exact Hstep|].
      apply (store_step_update _ w3 ls _ _ Hwf3 H1). simpl. auto.
Qed.

Lemma store_step_drop ts ts' w w' :
  store_step ts w w' ->
  (forall r, In r ts -> In r ts' \/ (Store.next_addr w <= r)%nat) ->
  store_step ts' w w'.
Proof.
  intros (Hn & Hd & Hl & Hwf) Hts. repeat split; auto.
  intros r Hr Hnot. apply Hl; [exact Hr|].
  intros Hin. destruct (Hts r Hin) as [H|H]; [auto|lia].
Qed.

Lemma store_holds_step w w' p cards s shoe :
  store_holds w p cards s shoe -> store_step [] w w' ->
  store_holds w' p cards s shoe.
Proof.
  intros (Hwf & Hp & Hs) Hstep. split; [|split].
  - exact (store_step_wf _ _ _ Hstep).
  - exact (store_step_list _ _ _ _ Hstep Hwf Hp).
  - exact (store_step_dict _ _ _ _ _ Hstep Hs).
Qed.

Lemma reseed_id w : Store.reseed (Store.rng_pos w) w = w.
Proof. now destruct w. Qed.

Lemma bind_random_choice_err {B} r l e (k : Z -> Store.St B) w :
  Store.lists w !! r = Some l ->
  choice stream l (Store.rng_pos w) = Err e ->
  Store.bind (Store.random_choice stream r) k w = Store.Raised e.
Proof.
  intros H Hc. cbv [Store.bind Store.random_choice Store.read].
  rewrite H. cbv beta iota. now rewrite Hc.
Qed.

Lemma hit_trial_refines w p cards s shoe dealer_card_val :
  store_holds w p cards s shoe ->
  refines (Store.hit_trial stream p dealer_card_val s)
    (hit_trial stream cards dealer_card_val shoe) w
    (fun x y w' => x = y /\ store_step [] w w').
Proof.
  intros Hh. destruct (build_shoe_list shoe) as [built|e] eqn:Hb.
  - set (ls := Store.next_addr w). set (tmp := S ls).
    set (pool := discard_if_present dealer_card_val
                   (remove_known cards built)).
    destruct (trial_opening w p cards s shoe dealer_card_val built
                (fun local_shoe tmp_cards =>
                   Store.bind (Store.play_out_hand stream tmp_cards local_shoe)
                     (fun tmp_cards =>
                        Store.bind (Store.on_list hand_value tmp_cards)
                          (fun p_total =>
                             Store.bind
                               (Store.simulate_dealer_hand_once stream
                                  dealer_card_val local_shoe)
                               (fun d_total =>
                                  Store.ret (settle 1 p_total d_total)))))
                Hh Hb)
      as (w4 & Hrun & Hrng & Hls & Htmp & Hstep4).
    fold ls tmp pool in Hrun, Hls, Htmp, Hstep4.
    pose proof (store_step_wf _ _ _ Hstep4) as Hwf4.
    eapply (refines_step _ _ _
              (bind (play_out_hand stream cards pool)
                 (fun '(tmp_cards, local_shoe) =>
                    bind (simulate_dealer_hand_once stream dealer_card_val
                            local_shoe)
                      (fun d_total =>
                         ret (settle 1 (hand_value tmp_cards) d_total))))
              w w4).
    + exact Hrun.
    + unfold hit_trial, trial_pool. rewrite Hb, Hrng. reflexivity.
    + eapply refines_bind.
      * apply (play_out_hand_refines w4 tmp ls cards pool); auto;
          unfold tmp; lia.
      * intros a [cards' deck'] w5 (-> & H1 & H2 & Hstep5).
        pose proof (store_step_wf _ _ _ Hstep5) as Hwf5.
        eapply (refines_step _
                  (Store.bind
                     (Store.simulate_dealer_hand_once stream dealer_card_val
                        ls)
                     (fun d_total =>
                        Store.ret (settle 1 (hand_value cards') d_total)))
                  _ _ w5 w5);
          [now rewrite (bind_on_list _ tmp cards' _ w5 H1)|reflexivity|].
        eapply refines_bind.
        -- now apply (simulate_dealer_hand_once_refines w5 ls deck').
        -- intros t t' w6 [<- Hstep6]. apply refines_ret.
           split; [reflexivity|].
           apply (store_step_drop [ls; tmp]).
           ++ apply (store_step_compose [ls; tmp] [] _ w w5 w6);
                [|exact Hstep6|auto|simpl; tauto].
              apply (store_step_compose [ls; tmp] [tmp; ls] _ w w4 w5);
                [exact Hstep4|exact Hstep5|auto|simpl; tauto].
           ++ intros r [<-|[<-|[]]]; right; unfold tmp, ls; lia.
  - pose proof (build_shoe_list_store w s shoe (proj2 (proj2 Hh))) as Hbuild.
    rewrite Hb in Hbuild. unfold refines, hit_trial, trial_pool.
    rewrite Hb. simpl. unfold Store.hit_trial. now apply bind_raised.
Qed.

Lemma double_trial_refines w p cards s shoe dealer_card_val :
  store_holds w p cards s shoe ->
  refines (Store.double_trial stream p dealer_card_val s)
    (double_trial stream cards dealer_card_val shoe) w
    (fun x y w' => x = y /\ store_step [] w w').
Proof.
  intros Hh. destruct (build_shoe_list shoe) as [built|e] eqn:Hb.
  - set (ls := Store.next_addr w). set (tmp := S ls).
    set (pool := discard_if_present dealer_card_val
                   (remove_known cards built)).
    destruct (trial_opening w p cards s shoe dealer_card_val built
                (fun local_shoe tmp_cards =>
                   Store.bind (Store.on_list py_not local_shoe)
                     (fun empty =>
                        Store.bind
                          (if empty then Store.ret 0
                           else Store.random_choice stream local_shoe)
                          (fun draw_val =>
                             Store.bind (Store.discard local_shoe draw_val)
                               (fun _ =>
                                  Store.bind (Store.append tmp_cards draw_val)
                                    (fun _ =>
                                       Store.bind
                                         (Store.on_list hand_value tmp_cards)
                                         (fun p_total =>
                                            Store.bind
                                              (Store.simulate_dealer_hand_once
                                                 stream dealer_card_val
                                                 local_shoe)
                                              (fun d_total =>
                                                 Store.ret
                                                   (settle 2 p_total
                                                      d_total))))))))
                Hh Hb)
      as (w4 & Hrun & Hrng & Hls & Htmp & Hstep4).
    fold ls tmp pool in Hrun, Hls, Htmp, Hstep4.
    pose proof (store_step_wf _ _ _ Hstep4) as Hwf4.
    assert (Hdraw : exists x pos',
              (if py_not pool then ret 0 else choice stream pool)
                (Store.rng_pos w4) = Ok (x, pos') /\
              forall B (k : Z -> Store.St B),
                Store.bind
                  (if py_not pool then Store.ret 0
                   else Store.random_choice stream ls) k w4 =
                  k x (Store.reseed pos' w4)).
    { destruct (py_not pool) eqn:Hempty.
      - exists 0, (Store.rng_pos w4). split; [reflexivity|].
        intros B k. now rewrite reseed_id.
      - apply py_not_false in Hempty.
        destruct (choice_nonempty stream pool (Store.rng_pos w4) Hempty)
          as (x & Hx & _).
        exists x, (S (Store.rng_pos w4)). split; [exact Hx|].
        intros B k. now apply (bind_random_choice stream ls pool). }
    destruct Hdraw as (x & pos' & Hpure & Hstore).
    set (w5 := Store.reseed pos' w4).
    set (w6 := Store.update ls (discard_if_present x pool) w5).
    set (w7 := Store.update tmp (cards ++ [x]) w6).
    assert (Hwf5 : store_wf w5) by exact Hwf4.
    assert (Hwf6 : store_wf w6) by now apply (store_wf_update w5 ls _ pool).
    assert (Htmp6 : Store.lists w6 !! tmp = Some cards).
    { unfold w6. rewrite lists_update_ne by (unfold tmp; lia). exact Htmp. }
    assert (Hwf7 : store_wf w7) by now apply (store_wf_update w6 tmp _ cards).
    assert (Hls7 : Store.lists w7 !! ls = Some (discard_if_present x pool)).
    { unfold w7. rewrite lists_update_ne by (unfold tmp; lia).
      apply lists_update_eq. }
    assert (Hstep7 : store_step [ls; tmp] w w7).
    { apply (store_step_trans _ w w4); [exact Hstep4|].
      apply (store_step_trans _ w4 w5); [now apply store_step_reseed|].
      apply (store_step_trans _ w5 w6).
      - apply (store_step_update _ w5 ls _ pool); simpl; auto.
      - apply (store_step_update _ w6 tmp _ cards); simpl; auto. }
    eapply (refines_step _
              (Store.bind
                 (Store.simulate_dealer_hand_once stream dealer_card_val ls)
                 (fun d_total =>
                    Store.ret (settle 2 (hand_value (cards ++ [x])) d_total)))
              _
              (bind
                 (simulate_dealer_hand_once stream dealer_card_val
                    (discard_if_present x pool))
                 (fun d_total =>
                    ret (settle 2 (hand_value (cards ++ [x])) d_total)))
              w w7).
    + unfold Store.double_trial. rewrite Hrun.
      rewrite (bind_on_list _ ls pool _ w4 Hls). rewrite Hstore. fold w5.
      rewrite (bind_discard ls pool x _ w5 Hls). fold w6.
      rewrite (bind_append tmp cards x _ w6 Htmp6). fold w7.
      rewrite (bind_on_list _ tmp (cards ++ [x]) _ w7 (lists_update_eq _ _ _)).
      reflexivity.
    + unfold double_trial, trial_pool. rewrite Hb.
      unfold bind at 1, lift at 1. fold pool.
      unfold double_draw. unfold bind at 1. unfold bind at 1.
      rewrite <- Hrng, Hpure. reflexivity.
    + eapply refines_bind.
      * now apply (simulate_dealer_hand_once_refines w7 ls).
      * intros t t' w8 [<- Hstep8]. apply refines_ret.
        split; [reflexivity|].
        apply (store_step_drop [ls; tmp]).
        -- apply (store_step_compose [ls; tmp] [] _ w w7 w8);
             [exact Hstep7|exact Hstep8|auto|simpl; tauto].
        -- intros r [<-|[<-|[]]]; right; unfold tmp, ls; lia.
  - pose proof (build_shoe_list_store w s shoe (proj2 (proj2 Hh))) as Hbuild.
    rewrite Hb in Hbuild. unfold refines, double_trial, trial_pool.
    rewrite Hb. simpl. unfold Store.double_trial. now apply bind_raised.
Qed.

Lemma split_sub_hand_refines w ls shoe split_card_val dealer_card_val :
  store_wf w -> Store.lists w !! ls = Some shoe ->
  refines (Store.split_sub_hand stream split_card_val dealer_card_val ls)
    (split_sub_hand stream split_card_val dealer_card_val shoe) w
    (fun x '(y, shoe') w' =>
       x = y /\ Store.lists w' !! ls = Some shoe' /\ store_step [ls] w w').
Proof.
  intros Hwf Hls.
  pose proof (store_wf_lt w ls shoe Hwf Hls) as Hlt.
  set (sub := Store.next_addr w).
  set (w1 := Store.alloc [split_card_val] w).
  assert (Hwf1 : store_wf w1) by now apply store_wf_alloc.
  assert (Hls1 : Store.lists w1 !! ls = Some shoe) by now apply lists_alloc_ne.
  destruct shoe as [|c0 shoe0] eqn:Eshoe.
  { unfold refines, split_sub_hand. simpl.
    unfold Store.split_sub_hand. rewrite bind_new_list.
    now apply (bind_random_choice_err ls []). }
  rewrite <- Eshoe in *.
  assert (Hne : shoe <> []) by (rewrite Eshoe; discriminate).
  clear Eshoe c0 shoe0.
  destruct (choice_nonempty stream shoe (Store.rng_pos w) Hne)
    as (x & Hx & Hin).
  set (w2 := Store.reseed (S (Store.rng_pos w)) w1).
  set (w3 := Store.update ls (remove_first x shoe) w2).
  set (w4 := Store.update sub [split_card_val; x] w3).
  assert (Hwf2 : store_wf w2) by exact Hwf1.
  assert (Hwf3 : store_wf w3) by now apply (store_wf_update w2 ls _ shoe).
  assert (Hsub3 : Store.lists w3 !! sub = Some [split_card_val]).
  { unfold w3. rewrite lists_update_ne by (unfold sub; lia).
    apply lists_alloc_eq. }
  assert (Hwf4 : store_wf w4) by now apply (store_wf_update w3 sub _ _ Hwf3 Hsub3).
  assert (Hls4 : Store.lists w4 !! ls = Some (remove_first x shoe)).
  { unfold w4. rewrite lists_update_ne by (unfold sub; lia).
    apply lists_update_eq. }
  assert (Hstep4 : store_step [ls; sub] w w4).
  { apply (store_step_trans _ w w1); [now apply store_step_alloc|].
    apply (store_step_trans _ w1 w2); [now apply store_step_reseed|].
    apply (store_step_trans _ w2 w3).
    - apply (store_step_update _ w2 ls _ shoe); simpl; auto.
    - apply (store_step_update _ w3 sub _ _ Hwf3 Hsub3). simpl. auto. }
  eapply (refines_step _
            (Store.bind (Store.play_out_hand stream sub ls)
               (fun sub_hand =>
                  Store.bind (Store.on_list hand_value sub_hand)
                    (fun p_total =>
                       Store.bind (Store.copy ls)
                         (fun snapshot =>
                            Store.bind
                              (Store.simulate_dealer_hand_once stream
                                 dealer_card_val snapshot)
                              (fun dealer_final =>
                                 Store.ret
                                   (compare_final_totals p_total
                                      dealer_final))))))
            _
            (bind (play_out_hand stream [split_card_val; x]
                     (remove_first x shoe))
               (fun '(sub_hand, local_shoe) =>
                  bind (simulate_dealer_hand_once stream dealer_card_val
                          local_shoe)
                    (fun dealer_final =>
                       ret (compare_final_totals (hand_value sub_hand)
                              dealer_final, local_shoe))))
            w w4).
  - unfold Store.split_sub_hand. rewrite bind_new_list. fold sub w1.
    rewrite (bind_random_choice stream ls shoe x _ _ w1 Hls1 Hx). fold w2.
    rewrite (bind_remove ls shoe x _ w2 Hls1 Hin). fold w3.
    now rewrite (bind_append sub _ x _ w3 Hsub3).
  - unfold split_sub_hand. rewrite (bind_ok _ _ _ _ _ Hx).
    unfold list_remove. rewrite Hin. reflexivity.
  - eapply refines_bind.
    + apply (play_out_hand_refines w4 sub ls); auto.
      * apply lists_update_eq.
      * unfold sub. lia.
    + intros a [cards' deck'] w5 (-> & H1 & H2 & Hstep5).
      pose proof (store_step_wf _ _ _ Hstep5) as Hwf5.
      set (snap := Store.next_addr w5). set (w6 := Store.alloc deck' w5).
      assert (Hwf6 : store_wf w6) by now apply store_wf_alloc.
      eapply (refines_step _
                (Store.bind
                   (Store.simulate_dealer_hand_once stream dealer_card_val
                      snap)
                   (fun dealer_final =>
                      Store.ret
                        (compare_final_totals (hand_value cards')
                           dealer_final)))
                _ _ w5 w6).
      * rewrite (bind_on_list _ sub cards' _ w5 H1).
        now rewrite (bind_copy ls deck' _ w5 H2).
      * reflexivity.
      * eapply refines_bind.
        -- apply (simulate_dealer_hand_once_refines w6 snap deck');
             [exact Hwf6|apply lists_alloc_eq].
        -- intros t t' w7 [<- Hstep7]. apply refines_ret.
           split; [reflexivity|]. split.
           ++ apply (store_step_list w6 w7 ls deck' Hstep7 Hwf6).
              now apply lists_alloc_ne.
           ++ apply (store_step_drop [ls; sub]).
              ** apply (store_step_compose [ls; sub] [] _ w w6 w7);
                   [|exact Hstep7|auto|simpl; tauto].
                 apply (store_step_compose [ls; sub] [] _ w w5 w6);
                   [|now apply store_step_alloc|auto|simpl; tauto].
                 apply (store_step_compose [ls; sub] [sub; ls] _ w w4 w5);
                   [exact Hstep4|exact Hstep5|auto|simpl; tauto].
              ** intros r [<-|[<-|[]]]; [left; now left|right].
                 unfold sub. lia.
Qed.

Lemma split_trial_refines w p cards s shoe split_card_val dealer_card_val :
  store_holds w p cards s shoe ->
  refines (Store.split_trial stream split_card_val dealer_card_val s)
    (split_trial stream split_card_val dealer_card_val shoe) w
    (fun x y w' => x = y /\ store_step [] w w').
Proof.
  intros (Hwf & Hp & Hs).
  pose proof (build_shoe_list_store w s shoe Hs) as Hbuild.
  destruct (build_shoe_list shoe) as [built|e] eqn:Hb.
  - set (ls := Store.next_addr w) in *.
    set (w1 := Store.alloc built w) in *.
    assert (Hwf1 : store_wf w1) by now apply store_wf_alloc.
    assert (Hls1 : Store.lists w1 !! ls = Some built) by apply lists_alloc_eq.
    assert (Hstep1 : store_step [ls] w w1) by now apply store_step_alloc.
    destruct (2 <=? py_count split_card_val built)%nat eqn:Hcount.
    + apply Nat.leb_le in Hcount as Hc.
      assert (Hin1 : py_in split_card_val built = true).
      { rewrite py_in_count. apply Nat.ltb_lt. lia. }
      assert (Hin2 : py_in split_card_val
                       (remove_first split_card_val built) = true).
      { rewrite py_in_count, remove_first_count, Z.eqb_refl, Hin1. simpl.
        apply Nat.ltb_lt. lia. }
      set (pool := discard_if_present dealer_card_val
                     (remove_first split_card_val
                        (remove_first split_card_val built))).
      set (w2 := Store.update ls (remove_first split_card_val built) w1).
      set (w3 := Store.update ls (remove_first split_card_val
                                    (remove_first split_card_val built)) w2).
      set (w4 := Store.update ls pool w3).
      assert (Hwf2 : store_wf w2) by now apply (store_wf_update w1 ls _ built).
      assert (Hls2 : Store.lists w2 !! ls =
                     Some (remove_first split_card_val built))
        by apply lists_update_eq.
      assert (Hwf3 : store_wf w3) by now apply (store_wf_update w2 ls _ _ Hwf2 Hls2).
      assert (Hls3 : Store.lists w3 !! ls =
                     Some (remove_first split_card_val
                             (remove_first split_card_val built)))
        by apply lists_update_eq.
      assert (Hwf4 : store_wf w4) by now apply (store_wf_update w3 ls _ _ Hwf3 Hls3).
      assert (Hstep4 : store_step [ls] w w4).
      { apply (store_step_trans _ w w1); [exact Hstep1|].
        apply (store_step_trans _ w1 w2).
        - apply (store_step_update _ w1 ls _ built); simpl; auto.
        - apply (store_step_trans _ w2 w3).
          + apply (store_step_update _ w2 ls _ _ Hwf2 Hls2). simpl. auto.
          + apply (store_step_update _ w3 ls _ _ Hwf3 Hls3). simpl. auto. }
      eapply (refines_step _
                (Store.bind
                   (Store.split_sub_hand stream split_card_val
                      dealer_card_val ls)
                   (fun result_1 =>
                      Store.bind
                        (Store.split_sub_hand stream split_card_val
                           dealer_card_val ls)
                        (fun result_2 => Store.ret (result_1 + result_2))))
                _
                (bind (split_sub_hand stream split_card_val dealer_card_val
                         pool)
                   (fun '(result_1, local_shoe) =>
                      bind (split_sub_hand stream split_card_val
                              dealer_card_val local_shoe)
                        (fun '(result_2, _) => ret (result_1 + result_2))))
                w w4).
      * unfold Store.split_trial. rewrite (bind_done _ _ _ _ _ Hbuild).
        rewrite (bind_on_list _ ls built _ w1 Hls1). rewrite Hcount.
        rewrite (bind_remove ls built _ _ w1 Hls1 Hin1). fold w2.
        rewrite (bind_remove ls _ _ _ w2 Hls2 Hin2). fold w3.
        now rewrite (bind_discard ls _ dealer_card_val _ w3 Hls3).
      * unfold split_trial. rewrite Hb. unfold bind at 1, lift at 1.
        rewrite Hcount. unfold list_remove. rewrite Hin1.
        unfold bind at 1, lift at 1. rewrite Hin2. reflexivity.
      * eapply refines_bind.
        -- apply (split_sub_hand_refines w4 ls pool);
             [exact Hwf4|apply lists_update_eq].
        -- intros x [y pool1] w5 (<- & Hls5 & Hstep5).
           eapply refines_bind.
           ++ apply (split_sub_hand_refines w5 ls pool1);
                [exact (store_step_wf _ _ _ Hstep5)|exact Hls5].
           ++ intros x2 [y2 pool2] w6 (<- & _ & Hstep6).
              apply refines_ret. split; [reflexivity|].
              apply (store_step_drop [ls]).
              ** apply (store_step_trans _ w w5);
                   [now apply (store_step_trans _ w w4)|exact Hstep6].
              ** intros r [<-|[]]. right. unfold ls. lia.
    + eapply (refines_step _ (Store.ret 0) _ (ret 0) w w1).
      * unfold Store.split_trial. rewrite (bind_done _ _ _ _ _ Hbuild).
        rewrite (bind_on_list _ ls built _ w1 Hls1). now rewrite Hcount.
      * unfold split_trial. rewrite Hb. unfold bind at 1, lift at 1.
        now rewrite Hcount.
      * apply refines_ret. split; [reflexivity|].
        now apply store_step_alloc.
  - unfold refines, split_trial. rewrite Hb. simpl.
    unfold Store.split_trial. now apply bind_raised.
Qed.

(** *** The loops *)

Section StoreLoops.

Variables (p : nat) (cards : list Z) (s : nat) (shoe : gmap string Z).
Variables (th : Store.St Z) (t : M Z).
Hypothesis Htrial :
  forall w, store_holds w p cards s shoe ->
            refines th t w (fun x y w' => x = y /\ store_step [] w w').

Lemma trials_loop_refines n :
  forall acc w,
    store_holds w p cards s shoe ->
    refines (Store.trials_loop n th acc) (trials_loop n t acc) w
      (fun x y w' => x = y /\ store_step [] w w').
Proof.
  induction n as [|n IH]; intros acc w Hh.
  - apply refines_ret. split; [reflexivity|].
    apply store_step_refl, Hh.
  - cbn [Store.trials_loop trials_loop]. eapply refines_bind.
    + now apply Htrial.
    + intros x y w1 [<- Hstep1]. eapply refines_weaken.
      * apply IH. now apply (store_holds_step w w1).
      * intros a b w' [<- Hstep]. split; [reflexivity|].
        now apply (store_step_trans _ w w1).
Qed.

Lemma checkpoint_loop_refines chunk_size todo :
  forall i ev means w,
    store_holds w p cards s shoe ->
    refines (Store.checkpoint_loop th chunk_size todo i ev means)
      (checkpoint_loop t chunk_size todo i ev means) w
      (fun x y w' => x = y /\ store_step [] w w').
Proof.
  induction todo as [|todo IH]; intros i ev means w Hh.
  - apply refines_ret. split; [reflexivity|].
    apply store_step_refl, Hh.
  - cbn [Store.checkpoint_loop checkpoint_loop]. eapply refines_bind.
    + now apply Htrial.
    + intros x y w1 [<- Hstep1]. cbv zeta.
      eapply (refines_bind _ _ _ _ w1 (fun a b w' => a = b /\ w' = w1)).
      * apply refines_lift. auto.
      * intros mean _ _ [<- ->]. eapply refines_weaken.
        -- apply IH. now apply (store_holds_step w w1).
        -- intros a b w' [<- Hstep]. split; [reflexivity|].
           now apply (store_step_trans _ w w1).
Qed.

Lemma split_loop_refines todo :
  forall acc w,
    store_holds w p cards s shoe ->
    refines (Store.split_loop th todo acc) (split_loop t todo acc) w
      (fun x y w' => x = y /\ store_step [] w w').
Proof.
  induction todo as [|todo IH]; intros acc w Hh.
  - apply refines_ret. split; [reflexivity|].
    apply store_step_refl, Hh.
  - cbn [Store.split_loop split_loop]. eapply refines_bind.
    + now apply Htrial.
    + intros x y w1 [<- Hstep1]. eapply refines_weaken.
      * apply IH. now apply (store_holds_step w w1).
      * intros a b w' [<- Hstep]. split; [reflexivity|].
        now apply (store_step_trans _ w w1).
Qed.

End StoreLoops.

(** *** [monte_carlo_ev] *)

Lemma stand_chunk_refines w p cards s shoe dealer_card_val chunk_size
    player_total is_soft_player :
  store_holds w p cards s shoe ->
  refines
    (Store.bind
       (Store.simulate_dealer_hands stream dealer_card_val s chunk_size)
       (fun dealer_totals =>
          Store.on_list
            (fun dealer_totals_list =>
               process_results_for_stand_like player_total dealer_totals_list
                 is_soft_player)
            dealer_totals))
    (bind (simulate_dealer_hands stream dealer_card_val shoe chunk_size)
       (fun dealer_totals =>
          ret (process_results_for_stand_like player_total dealer_totals
                 is_soft_player)))
    w (fun x y w' => x = y /\ store_step [] w w').
Proof.
  intros (Hwf & Hp & Hs). eapply refines_bind.
  - now apply simulate_dealer_hands_refines.
  - intros a totals w' [Ha Hstep].
    eapply (refines_step _
              (Store.ret
                 (process_results_for_stand_like player_total totals
                    is_soft_player)) _ _ w' w');
      [exact (on_list_at _ a totals w' Ha)|reflexivity|].
    apply refines_ret. auto.
Qed.

Lemma estimate_refines w p cards s shoe dealer_card_val action simulations :
  store_holds w p cards s shoe ->
  refines
    (if String.eqb action "Stand" then
       Store.bind
         (Store.checkpoint_loop
            (Store.bind
               (Store.simulate_dealer_hands stream dealer_card_val s
                  (simulations / 10))
               (fun dealer_totals =>
                  Store.on_list
                    (fun dealer_totals_list =>
                       process_results_for_stand_like (hand_value cards)
                         dealer_totals_list (is_soft_hand cards))
                    dealer_totals))
            (simulations / 10) 10 0 0 [])
         (fun '(ev, means) => Store.ret (inject_Z ev, means))
     else if String.eqb action "Hit" then
       Store.bind
         (Store.checkpoint_loop
            (Store.trials_loop (simulations / 10)
               (Store.hit_trial stream p dealer_card_val s) 0)
            (simulations / 10) 10 0 0 [])
         (fun '(ev, means) => Store.ret (inject_Z ev, means))
     else if String.eqb action "Double Down" then
       Store.bind
         (Store.checkpoint_loop
            (Store.trials_loop (simulations / 10)
               (Store.double_trial stream p dealer_card_val s) 0)
            (simulations / 10) 10 0 0 [])
         (fun '(ev, means) => Store.ret (inject_Z ev, means))
     else if String.eqb action "Split" then
       Store.bind
         (Store.bind (Store.read p) (fun l => Store.lift (py_first l)))
         (fun split_card_val =>
            Store.bind
              (Store.split_loop
                 (Store.trials_loop (simulations / 10)
                    (Store.split_trial stream split_card_val dealer_card_val
                       s) 0)
                 10 0)
              (fun split_ev_accumulator =>
                 Store.bind
                   (Store.lift
                      (py_truediv (inject_Z split_ev_accumulator)
                         (inject_Z (10 * Z.of_nat (simulations / 10)))))
                   (fun ev => Store.ret (ev, []))))
     else Store.ret (inject_Z 0, []))
    (if String.eqb action "Stand" then
       bind
         (checkpoint_loop
            (bind
               (simulate_dealer_hands stream dealer_card_val shoe
                  (simulations / 10))
               (fun dealer_totals =>
                  ret (process_results_for_stand_like (hand_value cards)
                         dealer_totals (is_soft_hand cards))))
            (simulations / 10) 10 0 0 [])
         (fun '(ev, means) => ret (inject_Z ev, means))
     else if String.eqb action "Hit" then
       bind
         (checkpoint_loop
            (trials_loop (simulations / 10)
               (hit_trial stream cards dealer_card_val shoe) 0)
            (simulations / 10) 10 0 0 [])
         (fun '(ev, means) => ret (inject_Z ev, means))
     else if String.eqb action "Double Down" then
       bind
         (checkpoint_loop
            (trials_loop (simulations / 10)
               (double_trial stream cards dealer_card_val shoe) 0)
            (simulations / 10) 10 0 0 [])
         (fun '(ev, means) => ret (inject_Z ev, means))
     else if String.eqb action "Split" then
       bind (lift (py_first cards))
         (fun split_card_val =>
            bind
              (split_loop
                 (trials_loop (simulations / 10)
                    (split_trial stream split_card_val dealer_card_val shoe)
                    0)
                 10 0)
              (fun split_ev_accumulator =>
                 bind
                   (lift
                      (py_truediv (inject_Z split_ev_accumulator)
                         (inject_Z (10 * Z.of_nat (simulations / 10)))))
                   (fun ev => ret (ev, []))))
     else ret (inject_Z 0, []))
    w (fun x y w' => x = y /\ store_step [] w w').
Proof.
  intros Hh.
  destruct (String.eqb action "Stand").
  { eapply refines_bind.
    - apply (checkpoint_loop_refines p cards s shoe); [|exact Hh].
      intros w0 H0. now apply (stand_chunk_refines w0 p cards s shoe).
    - intros [ev means] [ev' means'] w' [[= <- <-] Hstep].
      apply refines_ret. auto. }
  destruct (String.eqb action "Hit").
  { eapply refines_bind.
    - apply (checkpoint_loop_refines p cards s shoe); [|exact Hh].
      intros w0 H0. apply (trials_loop_refines p cards s shoe); [|exact H0].
      intros w1 H1. now apply (hit_trial_refines w1 p cards s shoe).
    - intros [ev means] [ev' means'] w' [[= <- <-] Hstep].
      apply refines_ret. auto. }
  destruct (String.eqb action "Double Down").
  { eapply refines_bind.
    - apply (checkpoint_loop_refines p cards s shoe); [|exact Hh].
      intros w0 H0. apply (trials_loop_refines p cards s shoe); [|exact H0].
      intros w1 H1. now apply (double_trial_refines w1 p cards s shoe).
    - intros [ev means] [ev' means'] w' [[= <- <-] Hstep].
      apply refines_ret. auto. }
  destruct (String.eqb action "Split").
  { destruct Hh as (Hwf & Hp & Hs).
    destruct cards as [|split_card_val rest] eqn:Ecards.
    { unfold refines. simpl. unfold Store.bind at 1.
      now rewrite (bind_read p [] _ w Hp). }
    rewrite <- Ecards in *.
    eapply (refines_step _ _ _ _ w w).
    - unfold Store.bind at 1. rewrite (bind_read p cards _ w Hp).
      rewrite Ecards. cbn [py_first Store.lift]. reflexivity.
    - rewrite Ecards. cbn [py_first]. unfold bind at 1, lift at 1.
      reflexivity.
    - eapply refines_bind.
      + apply (split_loop_refines p cards s shoe); [|now repeat split].
        intros w0 H0. apply (trials_loop_refines p cards s shoe); [|exact H0].
        intros w1 H1. now apply (split_trial_refines w1 p cards).
      + intros acc _ w' [<- Hstep].
        eapply (refines_bind _ _ _ _ w' (fun a b w'' => a = b /\ w'' = w')).
        * apply refines_lift. auto.
        * intros ev _ _ [<- ->]. apply refines_ret. auto. }
  apply refines_ret. split; [reflexivity|]. apply store_step_refl, Hh.
Qed.

Lemma monte_carlo_ev_refines w p cards s shoe dealer_card_val action
    simulations :
  store_holds w p cards s shoe ->
  refines
    (Store.monte_carlo_ev stream now p dealer_card_val s action simulations)
    (monte_carlo_ev stream cards dealer_card_val shoe action simulations)
    w
    (fun '(final_ev, _, checkpoint_means) '(final_ev', checkpoint_means') w' =>
       final_ev = final_ev' /\ checkpoint_means = checkpoint_means' /\
       store_step [] w w').
Proof.
  intros Hh. pose proof Hh as (Hwf & Hp & Hs).
  set (w1 := Store.tick w).
  assert (Hh1 : store_holds w1 p cards s shoe) by exact Hh.
  eapply (refines_step _ _ _ _ w w1).
  - unfold Store.monte_carlo_ev. rewrite bind_time. fold w1.
    rewrite (bind_on_list _ p cards _ w1 Hp).
    rewrite (bind_on_list _ p cards _ w1 Hp). cbv zeta. reflexivity.
  - unfold monte_carlo_ev. cbv zeta. reflexivity.
  - eapply refines_bind.
    + now apply (estimate_refines w1 p cards s shoe).
    + intros [ev means] [ev' means'] w2 [[= <- <-] Hstep2].
      pose proof (store_step_wf _ _ _ Hstep2) as Hwf2.
      eapply (refines_step _ _ _ _ w2 (Store.tick w2));
        [now rewrite bind_time|reflexivity|].
      cbv zeta.
      eapply (refines_bind _ _ _ _ _
                (fun a b w'' => a = b /\ w'' = Store.tick w2)).
      * apply refines_lift. auto.
      * intros mean _ _ [<- ->]. apply refines_ret.
        split; [reflexivity|]. split; [reflexivity|].
        apply (store_step_trans _ w w1); [now apply store_step_tick|].
        apply (store_step_trans _ w1 w2); [exact Hstep2|].
        now apply store_step_tick.
Qed.

End StoreRefinement.

Lemma store_holds_reseed w pos p cards s shoe :
  store_holds w p cards s shoe ->
  store_holds (Store.reseed pos w) p cards s shoe.
Proof. intros H. exact H. Qed.

(** A run on the store in a world that holds the hand and the shoe: its EV
    and trace, or its exception, are those of the estimator on values; the
    objects of the world are left as they were. *)
Lemma store_run_outcome (stream : nat -> nat) (now : nat -> Q) w p cards s
    shoe dealer_card_val action simulations :
  store_holds w p cards s shoe ->
  Store.ev_and_trace
    (Store.monte_carlo_ev stream now p dealer_card_val s action simulations
       w) =
    Some (match monte_carlo_ev stream cards dealer_card_val shoe action
                  simulations (Store.rng_pos w) with
          | Ok (r, _) => Ok r
          | Err e => Err e
          end) /\
  store_step []  w
    (Store.world_after
       (Store.monte_carlo_ev stream now p dealer_card_val s action
          simulations w) w).
Proof.
  intros Hh.
  pose proof (monte_carlo_ev_refines stream now w p cards s shoe
                dealer_card_val action simulations Hh) as Href.
  unfold refines in Href.
  destruct (monte_carlo_ev stream cards dealer_card_val shoe action
              simulations (Store.rng_pos w)) as [[[ev tr] pos']|e].
  - destruct Href as ([[ev' el] tr'] & w' & Hrun & _ & -> & -> & Hstep).
    rewrite Hrun. split; [reflexivity|exact Hstep].
  - rewrite Href. split; [reflexivity|]. apply store_step_refl, Hh.
Qed.

(** C10. Two runs of [monte_carlo_ev] on the store, with generators that
    hand out the same values from the same position, hands that hold the
    same cards and shoes that hold the same counts, whatever the addresses
    of the hand and of the shoe, whatever else the two stores hold and
    whatever the two clocks show.  Both runs come to the same EV and the
    same trace, or raise the same exception: what the estimator on values
    gives; only the elapsed time is the clock's.  A run that returns has
    changed no object of the world it started in: the hand and the shoe
    are as it found them, so that a second estimate in the world the first
    has left, the generator seeded as before, returns the same EV and trace
    again. *)
Theorem monte_carlo_ev_rerun (stream1 stream2 : nat -> nat)
    (now1 now2 : nat -> Q) (w1 w2 : Store.world) (p1 p2 s1 s2 : nat)
    (cards : list Z) (shoe : gmap string Z) (dealer_card_val : Z)
    (action : string) (simulations : nat) :
  same_stream stream1 stream2 ->
  Store.rng_pos w1 = Store.rng_pos w2 ->
  store_holds w1 p1 cards s1 shoe ->
  store_holds w2 p2 cards s2 shoe ->
  let run1 :=
    Store.monte_carlo_ev stream1 now1 p1 dealer_card_val s1 action
      simulations w1 in
  let run2 :=
    Store.monte_carlo_ev stream2 now2 p2 dealer_card_val s2 action
      simulations w2 in
  let again :=
    Store.monte_carlo_ev stream2 now2 p1 dealer_card_val s1 action
      simulations
      (Store.reseed (Store.rng_pos w1) (Store.world_after run1 w1)) in
  Store.ev_and_trace run1 =
    Some (match monte_carlo_ev stream1 cards dealer_card_val shoe action
                  simulations (Store.rng_pos w1) with
          | Ok (r, _) => Ok r
          | Err e => Err e
          end) /\
  Store.ev_and_trace run2 = Store.ev_and_trace run1 /\
  store_step [] w1 (Store.world_after run1 w1) /\
  store_holds (Store.world_after run1 w1) p1 cards s1 shoe /\
  Store.ev_and_trace again = Store.ev_and_trace run1.
Proof.
  intros Hsame Hpos Hh1 Hh2 run1 run2 again.
  destruct (store_run_outcome stream1 now1 w1 p1 cards s1 shoe
              dealer_card_val action simulations Hh1) as [Hout1 Hstep1].
  fold run1 in Hout1, Hstep1.
  destruct (store_run_outcome stream2 now2 w2 p2 cards s2 shoe
              dealer_card_val action simulations Hh2) as [Hout2 _].
  fold run2 in Hout2.
  pose proof (store_holds_step _ _ _ _ _ _ Hh1 Hstep1) as Hh1'.
  destruct (store_run_outcome stream2 now2
              (Store.reseed (Store.rng_pos w1) (Store.world_after run1 w1))
              p1 cards s1 shoe dealer_card_val action simulations
              (store_holds_reseed _ _ _ _ _ _ Hh1')) as [Hout3 _].
  fold again in Hout3.
  pose proof (monte_carlo_ev_agree stream1 stream2 Hsame cards
                dealer_card_val shoe action simulations (Store.rng_pos w1))
    as Hagree.
  split; [exact Hout1|]. split; [|split; [exact Hstep1|split; [exact Hh1'|]]].
  - rewrite Hout1, Hout2, <- Hpos, Hagree. reflexivity.
  - rewrite Hout1, Hout3. cbn [Store.rng_pos Store.reseed].
    rewrite Hagree. reflexivity.
Qed.

(** Sixteen against a ten, one deck, twenty Hit trials: a run in the sample
    store on the sample clock, and a run with the hand and the shoe at
    other addresses, another object in the store and a clock standing
    still. *)
Lemma monte_carlo_ev_rerun_witness :
  let w1 := sample_world [10; 6] (initialize_shoe_counts 1) in
  let w2 :=
    Store.World {[ 3%nat := [10; 6]; 4%nat := [2; 2] ]}
      {[ 7%nat := initialize_shoe_counts 1 ]} 5 0 9 in
  let run1 :=
    Store.monte_carlo_ev sample_stream sample_clock 0 10 0 "Hit" 20 w1 in
  let run2 :=
    Store.monte_carlo_ev sample_stream_alt (fun _ => 0%Q) 3 10 7 "Hit" 20
      w2 in
  Store.ev_and_trace run2 = Store.ev_and_trace run1 /\
  store_holds (Store.world_after run1 w1) 0 [10; 6] 0
    (initialize_shoe_counts 1) /\
  Store.ev_and_trace
    (Store.monte_carlo_ev sample_stream_alt (fun _ => 0%Q) 0 10 0 "Hit" 20
       (Store.reseed 0 (Store.world_after run1 w1))) =
    Store.ev_and_trace run1.
Proof.
  intros w1 w2 run1 run2.
  destruct (monte_carlo_ev_rerun sample_stream sample_stream_alt
              sample_clock (fun _ => 0%Q) w1 w2 0 3 0 7 [10; 6]
              (initialize_shoe_counts 1) 10 "Hit" 20)
    as (_ & H2 & _ & H4 & H5).
  - intros n. unfold sample_stream, sample_stream_alt. f_equal. f_equal. lia.
  - reflexivity.
  - split; [|split; reflexivity].
    intros r Hr. simpl in Hr. apply lookup_singleton_ne. lia.
  - split; [|split; reflexivity].
    intros r Hr. simpl in Hr. simpl.
    rewrite lookup_insert_ne by lia. apply lookup_singleton_ne. lia.
  - split; [exact H2|]. split; [exact H4|exact H5].
Defined.

(** [play_out_hand] changes the two objects it is handed: here the hand at
    address 0 grows by the card that leaves the deck at address 1.  The
    trials hand it lists of their own making. *)
Example play_out_hand_in_place :
  let w :=
    Store.World {[ O := [10; 2]; 1%nat := [9; 5] ]} ∅ 2 0 0 in
  exists w',
    Store.play_out_hand sample_stream 0 1 w = Store.Done O w' /\
    Store.lists w' !! O = Some [10; 2; 5] /\
    Store.lists w' !! 1%nat = Some [9].
Proof. eexists. split; [vm_compute; reflexivity|]. split; reflexivity. Qed.

(** A run on the store, computed: ten Hit trials on sixteen against a ten,
    one deck. *)
Example store_run_computed :
  Store.ev_and_trace
    (Store.monte_carlo_ev sample_stream sample_clock 0 10 0 "Hit" 10
       (sample_world [10; 6] (initialize_shoe_counts 1))) =
    Some (match monte_carlo_ev sample_stream [10; 6] 10
                  (initialize_shoe_counts 1) "Hit" 10 O with
          | Ok (r, _) => Ok r
          | Err e => Err e
          end).
Proof. vm_compute. reflexivity. Qed.
